(** * LoopBuffer: the looper delay line of DaisyBard (loopbuffer.h)

    A shallow embedding of the class template
    [template <typename T, size_t max_size> class LoopBuffer] and the
    properties of its write, read and splice members.

    Conventions of the embedding:
    - [size_t] is an unsigned integer of [size_bits] bits, carried as a [Z]
      with the wrap-around written out ([size_wrap]); [int] and [int32_t]
      are 32-bit signed integers;
    - [float] is IEEE binary32, computed with the Standard Library's
      executable specification ([SpecFloat], precision 24, emax 128);
    - every member function returns an [Outcome]: either its result, or
      the undefined behaviour the C++ abstract machine runs into (an array
      access outside [line_], a remainder by zero, a signed overflow, a
      floating value that does not fit the integer type it is cast to). *)

From Stdlib Require Import ZArith Lia Bool.
From Stdlib Require Import Floats.SpecFloat.
From stdpp Require Import base list.

Local Open Scope Z_scope.

(** ** Integer types of the target *)

(** The width of [size_t]. The Daisy's Cortex-M7 is an ILP32 target (32
    bits); a desktop build of the same header has 64. *)
Class Target := {
  size_bits : Z;
  size_bits_ge : 32 <= size_bits
}.

Definition ILP32 : Target := {| size_bits := 32; size_bits_ge := Z.le_refl 32 |}.
Definition LP64 : Target :=
  {| size_bits := 64; size_bits_ge := Zle_bool_imp_le 32 64 eq_refl |}.

Definition SIZE_MOD {TG : Target} : Z := 2 ^ size_bits.

(** Conversion to [size_t] and the result of [size_t] arithmetic. *)
Definition size_wrap {TG : Target} (z : Z) : Z := z mod SIZE_MOD.

Definition is_size {TG : Target} (z : Z) : Prop := 0 <= z < SIZE_MOD.

Definition INT_MIN : Z := - 2 ^ 31.
Definition INT_MAX : Z := 2 ^ 31 - 1.

Definition is_int (z : Z) : Prop := INT_MIN <= z <= INT_MAX.

(** [(int) x] for a [size_t] x: the value modulo 2^32, read as signed. *)
Definition int_of_size (z : Z) : Z :=
  let r := z mod 2 ^ 32 in
  if r <? 2 ^ 31 then r else r - 2 ^ 32.

(** ** Undefined behaviour as an outcome *)

Inductive Undefined : Type :=
  | OutOfBounds (i : Z)   (* line_[i] with i outside [0, max_size) *)
  | RemainderByZero       (* x % 0 *)
  | SignedOverflow        (* int arithmetic leaving [INT_MIN, INT_MAX] *)
  | FloatToInt.           (* cast of a float the integer type cannot hold *)

Inductive Outcome (A : Type) : Type :=
  | Ok (a : A)
  | UB (u : Undefined).
Arguments Ok {A} a.
Arguments UB {A} u.

Definition bind {A B : Type} (m : Outcome A) (k : A -> Outcome B) : Outcome B :=
  match m with
  | Ok a => k a
  | UB u => UB u
  end.

Declare Scope outcome_scope.
Delimit Scope outcome_scope with outcome.
Notation "'let*' x ':=' m 'in' k" := (bind m (fun x => k))
  (at level 10, x pattern, m at level 100, k at level 200) : outcome_scope.
Local Open Scope outcome_scope.

(** [int] arithmetic: a result outside the type is undefined. *)
Definition int_arith (z : Z) : Outcome Z :=
  if (INT_MIN <=? z) && (z <=? INT_MAX) then Ok z else UB SignedOverflow.

(** [a % b] on [size_t]. *)
Definition size_rem (a b : Z) : Outcome Z :=
  if b =? 0 then UB RemainderByZero else Ok (a mod b).

(** ** binary32 *)

Module F32.

Definition prec : Z := 24.
Definition emax : Z := 128.

Definition float : Type := spec_float.

Definition add : float -> float -> float := SFadd prec emax.
Definition sub : float -> float -> float := SFsub prec emax.
Definition mul : float -> float -> float := SFmul prec emax.
Definition div : float -> float -> float := SFdiv prec emax.
Definition eqb : float -> float -> bool := SFeqb.
Definition leb : float -> float -> bool := SFleb.

(** Conversion of an integer, rounding to nearest even; 0 gives +0. *)
Definition of_Z (z : Z) : float := binary_normalize prec emax z 0 false.

Definition zero : float := S754_zero false.
Definition one : float := Eval vm_compute in of_Z 1.

Definition is_finite (x : float) : bool :=
  match x with
  | S754_zero _ | S754_finite _ _ _ => true
  | _ => false
  end.

Definition is_zero (x : float) : bool :=
  match x with
  | S754_zero _ => true
  | _ => false
  end.

(** The integer a finite float truncates to (rounding toward zero), and
    its floor, from sign, mantissa and exponent: the value is
    [(-1)^s * m * 2^e]. *)
Definition trunc_val (s : bool) (m : positive) (e : Z) : Z :=
  match e with
  | Zneg p => cond_Zopp s (Zpos m / 2 ^ Zpos p)
  | _ => cond_Zopp s (Zpos m * 2 ^ e)
  end.

Definition floor_val (s : bool) (m : positive) (e : Z) : Z :=
  match e with
  | Zneg p => cond_Zopp s (Zpos m) / 2 ^ Zpos p
  | _ => cond_Zopp s (Zpos m) * 2 ^ e
  end.

Definition trunc (x : float) : Outcome Z :=
  match x with
  | S754_zero _ => Ok 0
  | S754_finite s m e => Ok (trunc_val s m e)
  | _ => UB FloatToInt
  end.

Definition floor (x : float) : Outcome Z :=
  match x with
  | S754_zero _ => Ok 0
  | S754_finite s m e => Ok (floor_val s m e)
  | _ => UB FloatToInt
  end.

(** [static_cast<int32_t>(x)] and [(int) x]. *)
Definition to_int (x : float) : Outcome Z :=
  let* z := trunc x in
  if (INT_MIN <=? z) && (z <=? INT_MAX) then Ok z else UB FloatToInt.

(** [(int) floor(x)]. *)
Definition floor_to_int (x : float) : Outcome Z :=
  let* z := floor x in
  if (INT_MIN <=? z) && (z <=? INT_MAX) then Ok z else UB FloatToInt.

(** [(size_t) x]. *)
Definition to_size {TG : Target} (x : float) : Outcome Z :=
  let* z := trunc x in
  if (0 <=? z) && (z <? SIZE_MOD) then Ok z else UB FloatToInt.

(** [modf(x, &intpart)]: the pair (fractional part, integral part), both
    carrying the sign of [x]. *)
Definition modf (x : float) : float * float :=
  match x with
  | S754_zero _ => (x, x)
  | S754_infinity s => (S754_zero s, x)
  | S754_nan => (S754_nan, S754_nan)
  | S754_finite s m e =>
      let t := trunc_val s m e in
      let ip := if t =? 0 then S754_zero s else of_Z t in
      let fp := match sub x ip with
                | S754_zero _ => S754_zero s
                | d => d
                end in
      (fp, ip)
  end.

End F32.

Abbreviation float := F32.float.

(** ** The sample type [T]

    What the template asks of its sample type: construction from the
    integer literal [0] ([T(0)], [T a = 0]), from a [float] ([0.f]) and
    from a [size_t] ([length_ - 1] in the six-argument [Read]), the
    interpolation expression [a + (b - a) * frac_], and [x *= f] with a
    [float] factor. *)
Class Sample (T : Type) := {
  sample_of_int : Z -> T;
  sample_of_float : float -> T;
  sample_of_size : Z -> T;
  sample_lerp : T -> T -> float -> T;
  sample_scale : T -> float -> T
}.

(** [LoopBuffer<float, max_size>], the instantiation the header's
    comment gives. *)
#[export] Instance Sample_float : Sample float := {
  sample_of_int := F32.of_Z;
  sample_of_float := fun x => x;
  sample_of_size := F32.of_Z;
  sample_lerp := fun a b f => F32.add a (F32.mul (F32.sub b a) f);
  sample_scale := fun x f => F32.mul x f
}.

(** ** The object *)

Record LoopBuffer (T : Type) : Type := mkLoopBuffer {
  frac_ : float;
  write_ptr_ : Z;
  read_ptr_ : Z;
  length_ : Z;
  line_ : list T
}.
Arguments mkLoopBuffer {T} _ _ _ _ _.
Arguments frac_ {T} _.
Arguments write_ptr_ {T} _.
Arguments read_ptr_ {T} _.
Arguments length_ {T} _.
Arguments line_ {T} _.

(** The function-local [static size_t newEnd; static size_t offset;] of
    the five- and of the six-argument [Read]: zero-initialised, kept
    from call to call, one pair per overload. *)
Record Statics : Type := mkStatics {
  newEnd_ : Z;
  offset_ : Z
}.

Definition Statics_init : Statics := mkStatics 0 0.

(** [for (i = first; <n more iterations>; i++) body]. *)
Fixpoint for_loop {S : Type} (n : nat) (i : Z) (body : Z -> S -> Outcome S) (s : S)
  : Outcome S :=
  match n with
  | O => Ok s
  | S n' => let* s' := body i s in for_loop n' (i + 1) body s'
  end.

Section LoopBuffer.

Context {TG : Target}.
Context {T : Type} {SM : Sample T}.
Variable max_size : Z.

Implicit Type s : LoopBuffer T.

Definition with_frac s (f : float) : LoopBuffer T :=
  mkLoopBuffer f (write_ptr_ s) (read_ptr_ s) (length_ s) (line_ s).
Definition with_write_ptr s (w : Z) : LoopBuffer T :=
  mkLoopBuffer (frac_ s) w (read_ptr_ s) (length_ s) (line_ s).
Definition with_read_ptr s (r : Z) : LoopBuffer T :=
  mkLoopBuffer (frac_ s) (write_ptr_ s) r (length_ s) (line_ s).
Definition with_length s (n : Z) : LoopBuffer T :=
  mkLoopBuffer (frac_ s) (write_ptr_ s) (read_ptr_ s) n (line_ s).
Definition with_line s (l : list T) : LoopBuffer T :=
  mkLoopBuffer (frac_ s) (write_ptr_ s) (read_ptr_ s) (length_ s) l.

(** [line_[i]] as an rvalue and [line_[i] = v]: the array has
    [max_size] elements. *)
Definition in_bounds (i : Z) : bool := (0 <=? i) && (i <? max_size).

Definition line_get s (i : Z) : Outcome T :=
  if in_bounds i then
    match line_ s !! Z.to_nat i with
    | Some v => Ok v
    | None => UB (OutOfBounds i)
    end
  else UB (OutOfBounds i).

Definition line_set s (i : Z) (v : T) : Outcome (LoopBuffer T) :=
  if in_bounds i then
    match line_ s !! Z.to_nat i with
    | Some _ => Ok (with_line s (<[Z.to_nat i := v]> (line_ s)))
    | None => UB (OutOfBounds i)
    end
  else UB (OutOfBounds i).

(** [line_[i] *= f]. *)
Definition line_scale s (i : Z) (f : float) : Outcome (LoopBuffer T) :=
  let* v := line_get s i in
  line_set s i (sample_scale v f).

(** *** Init, Reset

    [Reset]: [write_ptr_ = 0; read_ptr_ = 0; length_ = 1; frac_ = 0.f;]
    [Init]: [for (size_t i = 0; i < max_size; i++) line_[i] = T(0);]
    then [Reset()]. *)

Definition Reset s : LoopBuffer T :=
  mkLoopBuffer F32.zero 0 0 1 (line_ s).

Definition Init s : Outcome (LoopBuffer T) :=
  let* s1 := for_loop (Z.to_nat max_size) 0
               (fun i s' => line_set s' i (sample_of_int 0)) s in
  Ok (Reset s1).

(** *** Length

    [SetLength(size_t length)]:
      [frac_ = 0.0f; length_ = length < max_size ? length : max_size;]
    [Setlength(float length)]:
      [int32_t int_length = static_cast<int32_t>(length);]
      [frac_ = length - static_cast<float>(int_length);]
      [length_ = static_cast<size_t>(int_length) < max_size
                   ? int_length : max_size - 1;]
    (both branches of the conditional are converted to [size_t]).
    [GetLength()]: [static_cast<float>(length_) + frac_]. *)

Definition SetLength s (length : Z) : LoopBuffer T :=
  let s1 := with_frac s F32.zero in
  with_length s1 (if length <? max_size then length else max_size).

Definition Setlength s (length : float) : Outcome (LoopBuffer T) :=
  let* int_length := F32.to_int length in
  let s1 := with_frac s (F32.sub length (F32.of_Z int_length)) in
  Ok (with_length s1 (if size_wrap int_length <? max_size
                      then size_wrap int_length
                      else size_wrap (max_size - 1))).

Definition GetLength s : float :=
  F32.add (F32.of_Z (length_ s)) (frac_ s).

(** *** Positions

    [SetReadPosition(size_t position)]:
      [read_ptr_ = position >= length_ ? position : length_ - 1;]
      [read_ptr_ = read_ptr_ < 0 ? 0 : read_ptr_;] *)

Definition SetReadPosition s (position : Z) : LoopBuffer T :=
  let s1 := with_read_ptr s (if position >=? length_ s then position
                             else size_wrap (length_ s - 1)) in
  with_read_ptr s1 (if read_ptr_ s1 <? 0 then 0 else read_ptr_ s1).

Definition GetReadPosition s : Z := read_ptr_ s.

Definition GetWritePosition s : Z := write_ptr_ s.

(** *** Write

    [line_[write_ptr_] = sample;]
    [write_ptr_ = (write_ptr_ + 1) % max_size;]
    [if (write_ptr_ >= length_) { length_ = write_ptr_ + 1; }] *)

Definition Write s (sample : T) : Outcome (LoopBuffer T) :=
  let* s1 := line_set s (write_ptr_ s) sample in
  let* w := size_rem (size_wrap (write_ptr_ s1 + 1)) max_size in
  let s2 := with_write_ptr s1 w in
  Ok (if write_ptr_ s2 >=? length_ s2
      then with_length s2 (size_wrap (write_ptr_ s2 + 1))
      else s2).

(** *** Read, ReadOnce

    [Read()]:
      [T a = line_[(read_ptr_) % length_];]
      [read_ptr_ = (read_ptr_ + 1) % length_; return a;]
    [ReadOnce()]:
      [T a = 0;]
      [if (read_ptr_ < length_) { a = line_[(read_ptr_) % length_]; }]
      [read_ptr_ = read_ptr_ < (length_ - 1) ? read_ptr_ + 1 : read_ptr_;]
      [return a;] *)

Definition Read s : Outcome (T * LoopBuffer T) :=
  let* i := size_rem (read_ptr_ s) (length_ s) in
  let* a := line_get s i in
  let* r := size_rem (size_wrap (read_ptr_ s + 1)) (length_ s) in
  Ok (a, with_read_ptr s r).

Definition ReadOnce s : Outcome (T * LoopBuffer T) :=
  let* a := if read_ptr_ s <? length_ s
            then let* i := size_rem (read_ptr_ s) (length_ s) in line_get s i
            else Ok (sample_of_int 0) in
  Ok (a, with_read_ptr s (if read_ptr_ s <? size_wrap (length_ s - 1)
                          then size_wrap (read_ptr_ s + 1)
                          else read_ptr_ s)).

(** *** The windowed reads

    [Read(float clipEnd, size_t minClip)] *)
Definition Read_2 s (clipEnd : float) (minClip : Z) : Outcome (T * LoopBuffer T) :=
  let* newEnd := F32.to_size (F32.mul clipEnd (F32.of_Z (length_ s))) in
  let newEnd := if newEnd <? minClip then minClip else newEnd in
  let* i := size_rem (read_ptr_ s) newEnd in
  let* a := line_get s i in
  let* r := size_rem (size_wrap (read_ptr_ s + 1)) newEnd in
  Ok (a, with_read_ptr s r).

(** [Read(float clipStart, float clipEnd, size_t minClip)] *)
Definition Read_3 s (clipStart clipEnd : float) (minClip : Z)
  : Outcome (T * LoopBuffer T) :=
  let* newEnd := F32.to_size (F32.mul clipEnd (F32.of_Z (length_ s))) in
  let newEnd := if newEnd <? minClip then minClip else newEnd in
  let* offset := F32.to_size (F32.mul clipStart (F32.of_Z (length_ s))) in
  let* i := size_rem (size_wrap (read_ptr_ s + offset)) (length_ s) in
  let* a := line_get s i in
  let* r := size_rem (size_wrap (read_ptr_ s + 1)) newEnd in
  Ok (a, with_read_ptr s r).

(** [(size_t) (clip * (rand() % length_))], with [r] the value [rand()]
    returns. *)
Definition random_point s (clip : float) (r : Z) : Outcome Z :=
  let* m := size_rem (size_wrap r) (length_ s) in
  F32.to_size (F32.mul clip (F32.of_Z m)).

(** The assignments to the static [offset] and [newEnd] that open the
    five- and six-argument [Read]; [floor_offset] is the six-argument
    one's [if (offset < 10) { offset = 10; }]. [r_start] and [r_len] are
    what the two calls of [rand()] return when they are made. *)
Definition choose_window s (st : Statics) (clipStart clipEnd : float) (minClip : Z)
    (randomLength randomStart : bool) (floor_offset : bool) (r_start r_len : Z)
  : Outcome Statics :=
  let* offset :=
    if negb randomStart
    then F32.to_size (F32.mul clipStart (F32.of_Z (length_ s)))
    else if GetReadPosition s =? 0
         then let* o := random_point s clipStart r_start in
              Ok (if floor_offset && (o <? 10) then 10 else o)
         else Ok (offset_ st) in
  let* newEnd :=
    if negb randomLength
    then F32.to_size (F32.mul clipEnd (F32.of_Z (length_ s)))
    else if GetReadPosition s =? 0
         then random_point s clipEnd r_len
         else Ok (newEnd_ st) in
  let newEnd := if newEnd <? minClip then minClip else newEnd in
  let newEnd := if newEnd >=? length_ s then length_ s else newEnd in
  Ok (mkStatics newEnd offset).

(** [Read(float clipStart, float clipEnd, size_t minClip,
          bool randomLength, bool randomStart)] *)
Definition Read_5 s (st : Statics) (clipStart clipEnd : float) (minClip : Z)
    (randomLength randomStart : bool) (r_start r_len : Z)
  : Outcome (T * Statics * LoopBuffer T) :=
  let* st' := choose_window s st clipStart clipEnd minClip
                randomLength randomStart false r_start r_len in
  let* i := size_rem (size_wrap (read_ptr_ s + offset_ st')) (length_ s) in
  let* a := line_get s i in
  let* r := size_rem (size_wrap (read_ptr_ s + 1)) (newEnd_ st') in
  Ok (a, st', with_read_ptr s r).

(** [Read(float clipStart, float clipEnd, float speed, size_t minClip,
          bool randomLength, bool randomStart)] *)
Definition Read_6 s (st : Statics) (clipStart clipEnd speed : float) (minClip : Z)
    (randomLength randomStart : bool) (r_start r_len : Z)
  : Outcome (T * Statics * LoopBuffer T) :=
  if length_ s >? 1 then
    let* st' := choose_window s st clipStart clipEnd minClip
                  randomLength randomStart true r_start r_len in
    let rpo := size_wrap (read_ptr_ s + offset_ st') in
    let* ia := size_rem rpo (length_ s) in
    let* a := line_get s ia in
    let* b :=
      if F32.leb F32.zero speed
      then let* ib := size_rem (size_wrap (rpo + 1)) (length_ s) in line_get s ib
      else if size_wrap (rpo - 1) >? 0
           then let* ib := size_rem (size_wrap (rpo - 1)) (length_ s) in line_get s ib
           else Ok (sample_of_size (size_wrap (length_ s - 1))) in
    let '(fracpart, intpart) := F32.modf (F32.add speed (frac_ s)) in
    let s1 := with_frac s fracpart in
    let* k := F32.to_int intpart in
    let* r := size_rem (size_wrap (read_ptr_ s1 + size_wrap k)) (newEnd_ st') in
    let s2 := with_read_ptr s1 r in
    let s3 := if read_ptr_ s2 <? 0
              then with_read_ptr s2 (size_wrap (newEnd_ st' - 1)) else s2 in
    Ok (sample_lerp a b (frac_ s3), st', s3)
  else Ok (sample_of_float F32.zero, st, s).

(** *** ReadSpeed

    [read_ptr_ = (read_ptr_ + (int)floor(speed + frac_)) % length_;]
    [if (read_ptr_ < 0) { read_ptr_ = length_ - 1; }]
    [frac_ = speed + frac_ - static_cast<int32_t>(speed + frac_);]
    [T a = line_[(read_ptr_) % length_];]
    [T b = line_[(read_ptr_ + 1) % length_];]
    [return a + (b - a) * frac_;] *)

Definition ReadSpeed s (speed : float) : Outcome (T * LoopBuffer T) :=
  let* k := F32.floor_to_int (F32.add speed (frac_ s)) in
  let* r := size_rem (size_wrap (read_ptr_ s + size_wrap k)) (length_ s) in
  let s1 := with_read_ptr s r in
  let s2 := if read_ptr_ s1 <? 0
            then with_read_ptr s1 (size_wrap (length_ s1 - 1)) else s1 in
  let* t := F32.to_int (F32.add speed (frac_ s2)) in
  let s3 := with_frac s2 (F32.sub (F32.add speed (frac_ s2)) (F32.of_Z t)) in
  let* ia := size_rem (read_ptr_ s3) (length_ s3) in
  let* a := line_get s3 ia in
  let* ib := size_rem (size_wrap (read_ptr_ s3 + 1)) (length_ s3) in
  let* b := line_get s3 ib in
  Ok (sample_lerp a b (frac_ s3), s3).

(** *** Splice

    [Splice()], with [int fadeLength = 2048]:
      [for (int i = 0; i < fadeLength; i++) {]
      [  line_[i]                 *= (float)i / (float)fadeLength;]
      [  line_[(length_ - 1) - i] *= (float)i / (float)fadeLength; }]
    [Splice(int fadeLength, int startPoint, int endPoint)]:
      [if ((2*fadeLength < (int)length_) && (startPoint >= 0)]
      [    && (endPoint < (int)length_)) {]
      [  for (int i = 0; i < fadeLength; i++) {]
      [    line_[startPoint + i] *= (float)i / (float)fadeLength;]
      [    line_[endPoint - i]   *= (float)i / (float)fadeLength; }]
      [  for (int i = endPoint; i < (int)length_; i++) { line_[i] = 0.f; } }] *)

(** [(float)i / (float)fadeLength] *)
Definition ramp (i fadeLength : Z) : float :=
  F32.div (F32.of_Z i) (F32.of_Z fadeLength).

Definition Splice s : Outcome (LoopBuffer T) :=
  let fadeLength := 2048 in
  for_loop (Z.to_nat fadeLength) 0
    (fun i s' =>
       let* s1 := line_scale s' i (ramp i fadeLength) in
       line_scale s1 (size_wrap (size_wrap (length_ s1 - 1) - i)) (ramp i fadeLength))
    s.

(** [Splice(int fadeLength, int startPoint, int endPoint)] *)
Definition Splice_3 s (fadeLength startPoint endPoint : Z) : Outcome (LoopBuffer T) :=
  let* twice := int_arith (2 * fadeLength) in
  if (twice <? int_of_size (length_ s)) && (startPoint >=? 0)
     && (endPoint <? int_of_size (length_ s))
  then
    let* s1 := for_loop (Z.to_nat fadeLength) 0
                 (fun i s' =>
                    let* j := int_arith (startPoint + i) in
                    let* s1 := line_scale s' j (ramp i fadeLength) in
                    let* k := int_arith (endPoint - i) in
                    line_scale s1 k (ramp i fadeLength))
                 s in
    for_loop (Z.to_nat (int_of_size (length_ s1) - endPoint)) endPoint
      (fun i s' => line_set s' i (sample_of_float F32.zero))
      s1
  else Ok s.

End LoopBuffer.

Arguments Reset {T} s.
Arguments GetReadPosition {T} s.
Arguments GetWritePosition {T} s.
Arguments GetLength {T} s.

(** ** The public interface as a transition system

    One object together with the statics of the two randomised reads;
    a [Call] is one invocation of a public member with its arguments
    (and, for the randomised reads, the values [rand()] hands out). *)

Record World (T : Type) : Type := mkWorld {
  buffer : LoopBuffer T;
  static_5 : Statics;
  static_6 : Statics
}.
Arguments mkWorld {T} _ _ _.
Arguments buffer {T} _.
Arguments static_5 {T} _.
Arguments static_6 {T} _.

Inductive Call (T : Type) : Type :=
  | CInit
  | CReset
  | CSetLength (length : Z)
  | CSetlength (length : float)
  | CGetLength
  | CSetReadPosition (position : Z)
  | CGetReadPosition
  | CGetWritePosition
  | CWrite (sample : T)
  | CRead
  | CReadOnce
  | CRead_2 (clipEnd : float) (minClip : Z)
  | CRead_3 (clipStart clipEnd : float) (minClip : Z)
  | CRead_5 (clipStart clipEnd : float) (minClip : Z)
      (randomLength randomStart : bool) (r_start r_len : Z)
  | CRead_6 (clipStart clipEnd speed : float) (minClip : Z)
      (randomLength randomStart : bool) (r_start r_len : Z)
  | CReadSpeed (speed : float)
  | CSplice
  | CSplice_3 (fadeLength startPoint endPoint : Z).
Arguments CInit {T}.
Arguments CReset {T}.
Arguments CSetLength {T} _.
Arguments CSetlength {T} _.
Arguments CGetLength {T}.
Arguments CSetReadPosition {T} _.
Arguments CGetReadPosition {T}.
Arguments CGetWritePosition {T}.
Arguments CWrite {T} _.
Arguments CRead {T}.
Arguments CReadOnce {T}.
Arguments CRead_2 {T} _ _.
Arguments CRead_3 {T} _ _ _.
Arguments CRead_5 {T} _ _ _ _ _ _ _.
Arguments CRead_6 {T} _ _ _ _ _ _ _ _.
Arguments CReadSpeed {T} _.
Arguments CSplice {T}.
Arguments CSplice_3 {T} _ _ _.

Section Interface.

Context {TG : Target}.
Context {T : Type} {SM : Sample T}.
Variable max_size : Z.

Definition on_buffer (w : World T) (b : LoopBuffer T) : World T :=
  mkWorld b (static_5 w) (static_6 w).

(** The state a call leaves behind (its return value dropped). *)
Definition exec (c : Call T) (w : World T) : Outcome (World T) :=
  let s := buffer w in
  match c with
  | CInit => let* s' := Init max_size s in Ok (on_buffer w s')
  | CReset => Ok (on_buffer w (Reset s))
  | CSetLength n => Ok (on_buffer w (SetLength max_size s n))
  | CSetlength x => let* s' := Setlength max_size s x in Ok (on_buffer w s')
  | CGetLength | CGetReadPosition | CGetWritePosition => Ok w
  | CSetReadPosition p => Ok (on_buffer w (SetReadPosition s p))
  | CWrite v => let* s' := Write max_size s v in Ok (on_buffer w s')
  | CRead => let* (_, s') := Read max_size s in Ok (on_buffer w s')
  | CReadOnce => let* (_, s') := ReadOnce max_size s in Ok (on_buffer w s')
  | CRead_2 ce mc => let* (_, s') := Read_2 max_size s ce mc in Ok (on_buffer w s')
  | CRead_3 cs ce mc =>
      let* (_, s') := Read_3 max_size s cs ce mc in Ok (on_buffer w s')
  | CRead_5 cs ce mc rl rs r1 r2 =>
      let* (_, st, s') := Read_5 max_size s (static_5 w) cs ce mc rl rs r1 r2 in
      Ok (mkWorld s' st (static_6 w))
  | CRead_6 cs ce sp mc rl rs r1 r2 =>
      let* (_, st, s') := Read_6 max_size s (static_6 w) cs ce sp mc rl rs r1 r2 in
      Ok (mkWorld s' (static_5 w) st)
  | CReadSpeed sp => let* (_, s') := ReadSpeed max_size s sp in Ok (on_buffer w s')
  | CSplice => let* s' := Splice max_size s in Ok (on_buffer w s')
  | CSplice_3 f a b => let* s' := Splice_3 max_size s f a b in Ok (on_buffer w s')
  end.

(** The arguments of a call are values of their C++ types. *)
Definition well_typed (c : Call T) : Prop :=
  match c with
  | CSetLength n => is_size n
  | CSetReadPosition p => is_size p
  | CRead_2 _ mc | CRead_3 _ _ mc => is_size mc
  | CRead_5 _ _ mc _ _ r1 r2 | CRead_6 _ _ _ mc _ _ r1 r2 =>
      is_size mc /\ 0 <= r1 <= INT_MAX /\ 0 <= r2 <= INT_MAX
  | CSplice_3 f a b => is_int f /\ is_int a /\ is_int b
  | _ => True
  end.

(** The calls that assign [length_] from an argument. *)
Definition sets_length_to_zero (c : Call T) : Prop :=
  match c with
  | CSetLength n => n = 0
  | CSetlength x => F32.to_int x = Ok 0 \/ max_size = 1
  | _ => False
  end.

(** States of an object once [Init] or [Reset] has run: the object
    before that holds arbitrary values, in an array of [max_size]
    samples. [allowed] restricts the calls made afterwards. *)
Inductive reachable (allowed : Call T -> Prop) : World T -> Prop :=
  | reach_Init w w' :
      length (line_ (buffer w)) = Z.to_nat max_size ->
      exec CInit w = Ok w' -> reachable allowed w'
  | reach_Reset w w' :
      length (line_ (buffer w)) = Z.to_nat max_size ->
      exec CReset w = Ok w' -> reachable allowed w'
  | reach_call c w w' :
      reachable allowed w -> well_typed c -> allowed c ->
      exec c w = Ok w' -> reachable allowed w'.

Definition any_call (c : Call T) : Prop := True.

(** A sequence of calls, one after the other. *)
Fixpoint run_calls (cs : list (Call T)) (w : World T) : Outcome (World T) :=
  match cs with
  | [] => Ok w
  | c :: rest => let* w' := exec c w in run_calls rest w'
  end.

End Interface.

(** ** Sequences of calls *)

Section Runs.

Context {TG : Target}.
Context {T : Type} {SM : Sample T}.
Variable max_size : Z.

Fixpoint write_all (s : LoopBuffer T) (samples : list T) : Outcome (LoopBuffer T) :=
  match samples with
  | [] => Ok s
  | v :: rest => let* s' := Write max_size s v in write_all s' rest
  end.

(** [n] calls of a read member in a row: the samples returned, in
    order, and the final state. *)
Fixpoint repeat_read (read : LoopBuffer T -> Outcome (T * LoopBuffer T))
    (n : nat) (s : LoopBuffer T) : Outcome (list T * LoopBuffer T) :=
  match n with
  | O => Ok ([], s)
  | S n' =>
      let* (a, s1) := read s in
      let* (out, s2) := repeat_read read n' s1 in
      Ok (a :: out, s2)
  end.

(** The array of a [LoopBuffer<T, max_size>] has [max_size] elements. *)
Definition sized (s : LoopBuffer T) : Prop := length (line_ s) = Z.to_nat max_size.

End Runs.

(** ** Concrete objects

    A [LoopBuffer<float, 4>] and a [LoopBuffer<float, 8>] as the
    constructor leaves them (no member initialised: arbitrary values),
    and a few [float] constants. *)

Definition fresh4 : LoopBuffer float :=
  mkLoopBuffer S754_nan 7 9 5 [S754_nan; S754_nan; S754_nan; S754_nan].

Definition fresh8 : LoopBuffer float :=
  mkLoopBuffer S754_nan 3 1 0 (replicate 8 S754_nan).

(** The program at start-up: the object unconstructed, the statics
    zero. *)
Definition world4 : World float := mkWorld fresh4 Statics_init Statics_init.

(** The calls that do not leave [length_] at 0. *)
Definition keeps_length_positive {T : Type} (max_size : Z) (c : Call T) : Prop :=
  ~ sets_length_to_zero max_size c.

Definition f10 : float := Eval vm_compute in F32.of_Z 10.
Definition f20 : float := Eval vm_compute in F32.of_Z 20.
Definition f30 : float := Eval vm_compute in F32.of_Z 30.
Definition f40 : float := Eval vm_compute in F32.of_Z 40.
Definition f50 : float := Eval vm_compute in F32.of_Z 50.
Definition minus_one : float := Eval vm_compute in F32.of_Z (-1).
Definition half : float := Eval vm_compute in F32.div (F32.of_Z 1) (F32.of_Z 2).
Definition minus_half : float := Eval vm_compute in F32.div (F32.of_Z (-1)) (F32.of_Z 2).
Definition two_and_half : float := Eval vm_compute in F32.div (F32.of_Z 5) (F32.of_Z 2).

(** The object after [Init] and the writes 10, 20, 30, 40, 50 of the
    saturation trace. *)
Definition saturated4 : LoopBuffer float :=
  mkLoopBuffer F32.zero 1 0 4 [f50; f20; f30; f40].

(** ** Comparing output streams of floats *)

(** The loop: the first [length_] samples of the array. *)
Definition loop {T : Type} (s : LoopBuffer T) : list T :=
  take (Z.to_nat (length_ s)) (line_ s).

(** Two objects that agree on everything but [frac_]. *)
Definition same_but_frac {T : Type} (s1 s2 : LoopBuffer T) : Prop :=
  write_ptr_ s1 = write_ptr_ s2 /\ read_ptr_ s1 = read_ptr_ s2 /\
  length_ s1 = length_ s2 /\ line_ s1 = line_ s2.

(** [a == b] on [float]. *)
Definition same_value (a b : float) : Prop := F32.eqb a b = true.

(** Samples on which interpolation at phase 0 is exact: each is finite,
    and the difference of any two does not overflow. *)
Definition tame (l : list float) : bool :=
  forallb (fun a =>
             F32.is_finite a && forallb (fun b => F32.is_finite (F32.sub b a)) l) l.

(** ** Further concrete objects and groups of calls *)

(** [LoopBuffer<float, 4096>] after [Init()] and [SetLength(4096)]. *)
Definition silent4096 : LoopBuffer float :=
  mkLoopBuffer F32.zero 0 0 4096 (replicate 4096 F32.zero).

(** [LoopBuffer<float, 8>] after [Init()] and the seven writes 10, 20,
    30, 40, 50, 10, 20. *)
Definition full8 : LoopBuffer float :=
  mkLoopBuffer F32.zero 7 0 8 [f10; f20; f30; f40; f50; f10; f20; F32.zero].

(** The members that hand out a sample or a position. *)
Definition is_read {T : Type} (c : Call T) : bool :=
  match c with
  | CGetLength | CGetReadPosition | CGetWritePosition
  | CRead | CReadOnce | CRead_2 _ _ | CRead_3 _ _ _
  | CRead_5 _ _ _ _ _ _ _ | CRead_6 _ _ _ _ _ _ _ _ | CReadSpeed _ => true
  | _ => false
  end.

(** The two reads that carry a fractional phase from call to call. *)
Definition moves_frac {T : Type} (c : Call T) : bool :=
  match c with
  | CRead_6 _ _ _ _ _ _ _ _ | CReadSpeed _ => true
  | _ => false
  end.

(** The saturated buffer with the statics of a program that has made no
    randomised read yet. *)
Definition world_saturated4 : World float :=
  mkWorld saturated4 Statics_init Statics_init.

(** ** Facts about the integer types *)

Section Integers.

Context {TG : Target}.

Lemma SIZE_MOD_ge : 2 ^ 32 <= SIZE_MOD.
Proof.
  unfold SIZE_MOD. apply Z.pow_le_mono_r; [lia | apply size_bits_ge].
Qed.

Lemma SIZE_MOD_pos : 0 < SIZE_MOD.
Proof. pose proof SIZE_MOD_ge. lia. Qed.

Lemma size_wrap_small z : is_size z -> size_wrap z = z.
Proof. intros Hz. apply Z.mod_small. exact Hz. Qed.

Lemma size_wrap_is_size z : is_size (size_wrap z).
Proof. apply Z.mod_pos_bound, SIZE_MOD_pos. Qed.

Lemma int_is_size z : 0 <= z <= INT_MAX -> is_size z.
Proof. unfold is_size, INT_MAX. pose proof SIZE_MOD_ge. lia. Qed.

Lemma int_of_size_small z : 0 <= z <= INT_MAX -> int_of_size z = z.
Proof.
  unfold INT_MAX, int_of_size. intros Hz.
  rewrite Z.mod_small by lia.
  destruct (Z.ltb_spec z (2 ^ 31)); lia.
Qed.

Lemma int_of_size_is_int z : is_int (int_of_size z).
Proof.
  unfold is_int, INT_MIN, INT_MAX, int_of_size.
  pose proof (Z.mod_pos_bound z (2 ^ 32) ltac:(lia)).
  destruct (Z.ltb_spec (z mod 2 ^ 32) (2 ^ 31)); lia.
Qed.

Lemma int_arith_ok z : is_int z -> int_arith z = Ok z.
Proof.
  unfold is_int, int_arith. intros [Hlo Hhi].
  apply Z.leb_le in Hlo, Hhi. now rewrite Hlo, Hhi.
Qed.

Lemma size_rem_ok a b : b <> 0 -> size_rem a b = Ok (a mod b).
Proof.
  unfold size_rem. intros Hb.
  destruct (Z.eqb_spec b 0); [contradiction | reflexivity].
Qed.

End Integers.

(** ** Facts about the array *)

Section Array.

Context {T : Type} {SM : Sample T}.
Variable max_size : Z.

Implicit Type s : LoopBuffer T.

Lemma in_bounds_true i : 0 <= i < max_size -> in_bounds max_size i = true.
Proof.
  unfold in_bounds. intros [Hlo Hhi].
  apply Z.leb_le in Hlo. apply Z.ltb_lt in Hhi. now rewrite Hlo, Hhi.
Qed.

Lemma in_bounds_false i : ~ (0 <= i < max_size) -> in_bounds max_size i = false.
Proof.
  unfold in_bounds. intros Hi.
  destruct (Z.leb_spec 0 i); destruct (Z.ltb_spec i max_size); simpl; lia.
Qed.

Lemma line_get_out s i : ~ (0 <= i < max_size) -> line_get max_size s i = UB (OutOfBounds i).
Proof. intros Hi. unfold line_get. now rewrite in_bounds_false. Qed.

Lemma line_get_lookup s i v :
  0 <= i < max_size -> line_ s !! Z.to_nat i = Some v -> line_get max_size s i = Ok v.
Proof. intros Hi Hv. unfold line_get. now rewrite in_bounds_true, Hv. Qed.

Lemma line_get_in s i :
  sized max_size s -> 0 <= i < max_size -> exists v, line_ s !! Z.to_nat i = Some v.
Proof.
  intros Hs Hi. apply lookup_lt_is_Some_2. unfold sized in Hs. lia.
Qed.

Lemma line_set_in s i v :
  sized max_size s -> 0 <= i < max_size ->
  line_set max_size s i v = Ok (with_line s (<[Z.to_nat i := v]> (line_ s))).
Proof.
  intros Hs Hi. unfold line_set. rewrite in_bounds_true by assumption.
  destruct (line_get_in s i Hs Hi) as [x Hx]. now rewrite Hx.
Qed.

Lemma line_set_out s i v : ~ (0 <= i < max_size) -> line_set max_size s i v = UB (OutOfBounds i).
Proof. intros Hi. unfold line_set. now rewrite in_bounds_false. Qed.

Lemma sized_with_line s l : length l = length (line_ s) -> sized max_size s -> sized max_size (with_line s l).
Proof. unfold sized. simpl. congruence. Qed.

(** The loop of [Init] fills the array from index [i] on. *)
Lemma fill_loop v n : forall i s,
  sized max_size s -> 0 <= i -> i + Z.of_nat n = max_size ->
  for_loop n i (fun j s' => line_set max_size s' j v) s
  = Ok (with_line s (take (Z.to_nat i) (line_ s) ++ replicate n v)).
Proof.
  induction n as [|n IH]; intros i s Hs Hi Hn.
  - simpl. rewrite app_nil_r, firstn_all2 by (unfold sized in Hs; lia).
    now destruct s.
  - cbn [for_loop]. rewrite line_set_in by (try assumption; lia). cbn [bind].
    rewrite IH; [| apply sized_with_line; [apply length_insert | assumption] | lia | lia].
    f_equal. unfold with_line. cbn. f_equal.
    replace (Z.to_nat (i + 1)) with (S (Z.to_nat i)) by lia.
    assert (Hlt : (Z.to_nat i < length (line_ s))%nat) by (unfold sized in Hs; lia).
    rewrite (take_S_r _ _ v) by (now apply list_lookup_insert_eq).
    rewrite take_insert_ge by lia.
    now rewrite <- app_assoc.
Qed.

Lemma Init_ok s :
  sized max_size s -> 0 <= max_size ->
  Init max_size s
  = Ok (mkLoopBuffer F32.zero 0 0 1 (replicate (Z.to_nat max_size) (sample_of_int 0))).
Proof.
  intros Hs Hm. unfold Init.
  rewrite fill_loop by (try assumption; lia). reflexivity.
Qed.

End Array.

(** ** Write *)

Section WriteFacts.

Context {TG : Target}.
Context {T : Type} {SM : Sample T}.
Variable max_size : Z.
Hypothesis max_size_fits : 1 <= max_size < SIZE_MOD.

Implicit Type s : LoopBuffer T.

(** What one [Write] does to an object whose write cursor is inside the
    array. *)
Lemma Write_ok s v :
  sized max_size s -> 0 <= write_ptr_ s < max_size ->
  Write max_size s v
  = Ok (let w := (write_ptr_ s + 1) mod max_size in
        mkLoopBuffer (frac_ s) w (read_ptr_ s)
          (if w >=? length_ s then w + 1 else length_ s)
          (<[Z.to_nat (write_ptr_ s) := v]> (line_ s))).
Proof.
  intros Hs Hw. unfold Write.
  rewrite line_set_in by assumption. cbn [bind with_line write_ptr_].
  rewrite size_wrap_small by (unfold is_size; lia).
  rewrite size_rem_ok by lia. cbn [bind].
  pose proof (Z.mod_pos_bound (write_ptr_ s + 1) max_size ltac:(lia)) as Hb.
  cbn. rewrite size_wrap_small by (unfold is_size; lia).
  now destruct (_ >=? _).
Qed.

Lemma Write_sized s v s' :
  sized max_size s -> Write max_size s v = Ok s' -> sized max_size s'.
Proof.
  intros Hs. unfold Write, line_set.
  destruct (in_bounds _ _); [| discriminate].
  destruct (line_ s !! _); [| discriminate]. cbn [bind].
  destruct (size_rem _ _); [| discriminate]. cbn [bind].
  intros [= <-]. unfold sized in *.
  destruct (_ >=? _); cbn; now rewrite length_insert.
Qed.

End WriteFacts.

(** C7. Write-wrap saturation: a [LoopBuffer<T, 4>], after [Init], is
    written five samples [v1 .. v5] (the spec's 10, 20, 30, 40, 50).
    The length is 1 after [Init], then 2, 3, 4 after the first three
    writes, and stays 4 after the fourth and the fifth; the fifth write
    goes to index 0, so the array ends as [v5; v2; v3; v4] with the
    write cursor at 1. *)
Theorem write_wrap_saturation {TG : Target} {T : Type} {SM : Sample T}
    (f : float) (w r n : Z) (x0 x1 x2 x3 : T) (v1 v2 v3 v4 v5 : T) :
  exists s0 s1 s2 s3 s4 s5 : LoopBuffer T,
    Init 4 (mkLoopBuffer f w r n [x0; x1; x2; x3]) = Ok s0 /\
    Write 4 s0 v1 = Ok s1 /\ Write 4 s1 v2 = Ok s2 /\ Write 4 s2 v3 = Ok s3 /\
    Write 4 s3 v4 = Ok s4 /\ Write 4 s4 v5 = Ok s5 /\
    length_ s0 = 1 /\ length_ s1 = 2 /\ length_ s2 = 3 /\ length_ s3 = 4 /\
    length_ s4 = 4 /\ length_ s5 = 4 /\
    line_ s5 = [v5; v2; v3; v4] /\ write_ptr_ s5 = 1 /\
    write_all 4 s0 [v1; v2; v3; v4; v5] = Ok s5.
Proof.
  assert (Hfit : 1 <= 4 < SIZE_MOD) by (pose proof SIZE_MOD_ge; lia).
  assert (Hstep : forall (s : LoopBuffer T) v, length (line_ s) = 4%nat -> 0 <= write_ptr_ s < 4 ->
            Write 4 s v
            = Ok (let w := (write_ptr_ s + 1) mod 4 in
                  mkLoopBuffer (frac_ s) w (read_ptr_ s)
                    (if w >=? length_ s then w + 1 else length_ s)
                    (<[Z.to_nat (write_ptr_ s) := v]> (line_ s)))).
  { intros s v Hs Hw. now apply Write_ok. }
  pose (z := sample_of_int 0 : T).
  pose (s0 := mkLoopBuffer F32.zero 0 0 1 [z; z; z; z]).
  pose (s1 := mkLoopBuffer F32.zero 1 0 2 [v1; z; z; z]).
  pose (s2 := mkLoopBuffer F32.zero 2 0 3 [v1; v2; z; z]).
  pose (s3 := mkLoopBuffer F32.zero 3 0 4 [v1; v2; v3; z]).
  pose (s4 := mkLoopBuffer F32.zero 0 0 4 [v1; v2; v3; v4]).
  pose (s5 := mkLoopBuffer F32.zero 1 0 4 [v5; v2; v3; v4]).
  assert (H1 : Write 4 s0 v1 = Ok s1) by (now rewrite Hstep by (cbn; lia)).
  assert (H2 : Write 4 s1 v2 = Ok s2) by (now rewrite Hstep by (cbn; lia)).
  assert (H3 : Write 4 s2 v3 = Ok s3) by (now rewrite Hstep by (cbn; lia)).
  assert (H4 : Write 4 s3 v4 = Ok s4) by (now rewrite Hstep by (cbn; lia)).
  assert (H5 : Write 4 s4 v5 = Ok s5) by (now rewrite Hstep by (cbn; lia)).
  exists s0, s1, s2, s3, s4, s5.
  split; [reflexivity |].
  repeat (split; [assumption || reflexivity |]).
  cbn [write_all].
  rewrite H1; cbn [bind]. rewrite H2; cbn [bind]. rewrite H3; cbn [bind].
  rewrite H4; cbn [bind]. now rewrite H5.
Qed.

(** ** Facts about binary32 *)

Section FloatFacts.

(** Rounding keeps the sign it is given. *)
Lemma binary_round_aux_cases sx mx ex lx :
  let r := binary_round_aux F32.prec F32.emax sx mx ex lx in
  r = S754_zero sx \/ (exists m e, r = S754_finite sx m e) \/
  r = S754_infinity sx \/ r = S754_nan.
Proof.
  unfold binary_round_aux.
  destruct (shr_fexp _ _ _ _ _) as [mrs' e'].
  destruct (shr_fexp _ _ _ _ _) as [mrs'' e''].
  destruct (shr_m mrs'') as [|m|m]; cbn zeta.
  - now left.
  - destruct (_ <=? _)%Z; [right; left; eauto | right; right; now left].
  - now repeat right.
Qed.

Lemma of_Z_cases z :
  0 <= z ->
  F32.of_Z z = S754_zero false \/ (exists m e, F32.of_Z z = S754_finite false m e) \/
  F32.of_Z z = S754_infinity false \/ F32.of_Z z = S754_nan.
Proof.
  intros Hz. destruct z as [|p|p]; [now left | | lia].
  unfold F32.of_Z, binary_normalize, binary_round.
  destruct (shl_align _ _ _) as [mz ez].
  apply binary_round_aux_cases.
Qed.

(** [(float) n + 0.f] is [(float) n] for an unsigned [n]. *)
Lemma of_Z_add_zero z : 0 <= z -> F32.add (F32.of_Z z) F32.zero = F32.of_Z z.
Proof.
  intros Hz.
  destruct (of_Z_cases z Hz) as [E | [(m & e & E) | [E | E]]]; now rewrite E.
Qed.

(** Truncation and floor agree on a float that is not negative. *)
Lemma floor_nonneg x : F32.leb F32.zero x = true -> F32.floor x = F32.trunc x.
Proof.
  destruct x as [s|s| |s m e]; try reflexivity.
  destruct s; [discriminate |].
  intros _. unfold F32.floor, F32.trunc, F32.floor_val, F32.trunc_val.
  now destruct e.
Qed.

Lemma digits2_pos_lower m : 2 ^ (Zpos (digits2_pos m) - 1) <= Zpos m.
Proof.
  induction m as [p IH | p IH |]; cbn [digits2_pos].
  - rewrite Pos2Z.inj_succ.
    replace (Z.succ (Zpos (digits2_pos p)) - 1) with (Z.succ (Zpos (digits2_pos p) - 1)) by lia.
    rewrite Z.pow_succ_r by lia. lia.
  - rewrite Pos2Z.inj_succ.
    replace (Z.succ (Zpos (digits2_pos p)) - 1) with (Z.succ (Zpos (digits2_pos p) - 1)) by lia.
    rewrite Z.pow_succ_r by lia. lia.
  - reflexivity.
Qed.

Lemma digits2_pos_shift m q :
  digits2_pos (Pos.iter xO m q) = (digits2_pos m + q)%positive.
Proof.
  induction q as [|q IH] using Pos.peano_ind.
  - cbn. lia.
  - rewrite Pos.iter_succ. cbn [digits2_pos]. rewrite IH. lia.
Qed.

Lemma Zpos_shift m q : Zpos (Pos.iter xO m q) = Zpos m * 2 ^ Zpos q.
Proof.
  induction q as [|q IH] using Pos.peano_ind.
  - cbn. lia.
  - rewrite Pos.iter_succ, Pos2Z.inj_succ, Z.pow_succ_r by lia.
    rewrite Pos2Z.inj_xO, IH. lia.
Qed.

Lemma binary_round_aux_exact s mz ez :
  Zpos (digits2_pos mz) = 24 -> -149 <= ez <= 104 ->
  binary_round_aux 24 128 s (Zpos mz) ez loc_Exact = S754_finite s mz ez.
Proof.
  intros Hd He. unfold binary_round_aux, shr_fexp, fexp, emin.
  cbn [Zdigits2 shr_record_of_loc]. rewrite Hd.
  replace (Z.max (24 + ez - 24) (3 - 128 - 24) - ez) with 0 by lia.
  cbn [shr shr_m loc_of_shr_record round_nearest_even Zdigits2]. rewrite Hd.
  replace (Z.max (24 + ez - 24) (3 - 128 - 24) - ez) with 0 by lia.
  cbn [shr shr_m].
  destruct (Z.leb_spec ez (128 - 24)); [reflexivity | lia].
Qed.

Lemma binary_round_small s m :
  Zpos m < 2 ^ 24 ->
  exists m' e', binary_round 24 128 s m 0 = S754_finite s m' e' /\
                e' <= 0 /\ Zpos m' = Zpos m * 2 ^ (- e').
Proof.
  intros Hm. pose proof (digits2_pos_lower m) as Hlow.
  assert (Hd : Zpos (digits2_pos m) <= 24).
  { destruct (Z.le_gt_cases (Zpos (digits2_pos m)) 24) as [|Hgt]; [assumption |].
    assert (2 ^ 24 <= 2 ^ (Zpos (digits2_pos m) - 1)) by (apply Z.pow_le_mono_r; lia).
    lia. }
  unfold binary_round, fexp, emin.
  replace (Z.max (Zpos (digits2_pos m) + 0 - 24) (3 - 128 - 24))
    with (Zpos (digits2_pos m) - 24) by lia.
  unfold shl_align.
  destruct (Zpos (digits2_pos m) - 24 - 0) as [|q|q] eqn:E; [| lia |].
  - rewrite binary_round_aux_exact by lia.
    exists m, 0. repeat split; [lia | cbn; lia].
  - rewrite binary_round_aux_exact; [| rewrite digits2_pos_shift; lia | lia].
    exists (Pos.iter xO m q), (Zpos (digits2_pos m) - 24).
    repeat split; [lia |].
    rewrite Zpos_shift. f_equal. f_equal. lia.
Qed.

(** Integers below 2^24 in magnitude convert exactly: the float
    obtained truncates (and floors) back to the integer. *)
Lemma of_Z_exact z :
  - 2 ^ 24 < z < 2 ^ 24 ->
  F32.trunc (F32.of_Z z) = Ok z /\ F32.floor (F32.of_Z z) = Ok z.
Proof.
  intros Hz. destruct z as [|m|m]; [now split | |].
  - destruct (binary_round_small false m ltac:(lia)) as (m' & e' & E & He & Hm).
    unfold F32.of_Z, binary_normalize, F32.prec, F32.emax. rewrite E.
    unfold F32.trunc, F32.floor, F32.trunc_val, F32.floor_val. cbn [cond_Zopp].
    destruct e' as [|q|q]; [| lia |].
    + cbn in Hm. split; f_equal; lia.
    + rewrite Hm. change (- Z.neg q) with (Z.pos q).
      rewrite Z.div_mul by (apply Z.pow_nonzero; lia). now split.
  - destruct (binary_round_small true m ltac:(lia)) as (m' & e' & E & He & Hm).
    unfold F32.of_Z, binary_normalize, F32.prec, F32.emax. rewrite E.
    unfold F32.trunc, F32.floor, F32.trunc_val, F32.floor_val. cbn [cond_Zopp].
    destruct e' as [|q|q]; [| lia |].
    + cbn in Hm. split; f_equal; lia.
    + rewrite Hm. change (- Z.neg q) with (Z.pos q).
      rewrite <- Z.mul_opp_l.
      rewrite !Z.div_mul by (apply Z.pow_nonzero; lia). split; f_equal; lia.
Qed.

End FloatFacts.

(** ** Read *)

Section ReadFacts.

Context {TG : Target}.
Context {T : Type} {SM : Sample T}.
Variable max_size : Z.
Hypothesis max_size_fits : 1 <= max_size < SIZE_MOD.

Implicit Type s : LoopBuffer T.

(** One plain [Read] away from the end of the loop: the sample under
    the cursor, and the cursor one further. *)
Lemma Read_inside s v :
  0 <= read_ptr_ s -> read_ptr_ s + 1 < length_ s -> length_ s <= max_size ->
  line_ s !! Z.to_nat (read_ptr_ s) = Some v ->
  Read max_size s = Ok (v, with_read_ptr s (read_ptr_ s + 1)).
Proof.
  intros Hr Hl Hm Hv. unfold Read.
  rewrite size_rem_ok by lia. cbn [bind].
  rewrite Z.mod_small by lia.
  rewrite (line_get_lookup _ _ _ v) by (try assumption; lia). cbn [bind].
  rewrite size_rem_ok by lia. cbn [bind].
  rewrite size_wrap_small by (unfold is_size; lia).
  now rewrite Z.mod_small by lia.
Qed.

(** [n] plain reads that stay before the end of the loop return the [n]
    samples from the cursor on. *)
Lemma repeat_Read_inside n : forall s,
  sized max_size s ->
  0 <= read_ptr_ s -> read_ptr_ s + Z.of_nat n < length_ s -> length_ s <= max_size ->
  repeat_read (Read max_size) n s
  = Ok (take n (drop (Z.to_nat (read_ptr_ s)) (line_ s)),
        with_read_ptr s (read_ptr_ s + Z.of_nat n)).
Proof.
  induction n as [|n IH]; intros s Hs Hr Hl Hm.
  - cbn. rewrite Z.add_0_r. now destruct s.
  - destruct (line_get_in max_size s (read_ptr_ s) Hs ltac:(lia)) as [v Hv].
    cbn [repeat_read]. rewrite (Read_inside s v) by (try assumption; lia).
    cbn [bind]. rewrite IH by (try assumption; cbn; lia). cbn [bind].
    cbn [with_read_ptr read_ptr_ line_ frac_ write_ptr_ length_].
    rewrite (drop_S _ v _ Hv). cbn [take].
    replace (Z.to_nat (read_ptr_ s + 1)) with (S (Z.to_nat (read_ptr_ s))) by lia.
    do 3 f_equal. lia.
Qed.

(** Writes that have not yet wrapped: each one moves the write cursor
    and the length up by one, the length staying one ahead. *)
Lemma write_all_grow vs : forall s,
  sized max_size s ->
  0 <= write_ptr_ s -> length_ s = write_ptr_ s + 1 ->
  write_ptr_ s + Z.of_nat (length vs) < max_size ->
  write_all max_size s vs
  = Ok (mkLoopBuffer (frac_ s) (write_ptr_ s + Z.of_nat (length vs)) (read_ptr_ s)
          (write_ptr_ s + Z.of_nat (length vs) + 1)
          (take (Z.to_nat (write_ptr_ s)) (line_ s) ++ vs
           ++ drop (Z.to_nat (write_ptr_ s) + length vs) (line_ s))).
Proof.
  induction vs as [|v vs IH]; intros s Hs Hw Hl Hm.
  - cbn. rewrite !Z.add_0_r, Nat.add_0_r, take_drop, <- Hl. now destruct s.
  - cbn [write_all]. cbn [length] in Hm.
    rewrite Write_ok by (try assumption; lia). cbn [bind]. cbn zeta.
    rewrite Z.mod_small by lia.
    replace (write_ptr_ s + 1 >=? length_ s) with true
      by (symmetry; rewrite Z.geb_leb; apply Z.leb_le; lia).
    assert (Hlt : (Z.to_nat (write_ptr_ s) < length (line_ s))%nat)
      by (unfold sized in Hs; lia).
    rewrite IH; cbn [write_ptr_ length_ line_ frac_ read_ptr_ length];
      [| unfold sized; cbn; now rewrite length_insert | lia | lia | lia].
    f_equal. f_equal; [lia | lia |].
    replace (Z.to_nat (write_ptr_ s + 1)) with (S (Z.to_nat (write_ptr_ s))) by lia.
    rewrite (take_S_r _ _ v) by (now apply list_lookup_insert_eq).
    rewrite take_insert_ge by lia.
    rewrite drop_insert_lt by lia.
    rewrite <- app_assoc. cbn. do 3 f_equal. f_equal. lia.
Qed.

End ReadFacts.

(** C3 (as amended). For every N < max_size: from a freshly [Init]'ed
    buffer, N calls of [Write] followed by N calls of plain [Read]
    return the N samples in the order written; after the N writes the
    length is N + 1, not N (it is 1 before the first write and each
    write adds one), so [GetLength()] is [(float)(N + 1)], which is
    N + 1 exactly as long as N + 1 < 2^24. *)
Theorem fresh_writes_read_back {TG : Target} {T : Type} {SM : Sample T}
    (max_size : Z) (s : LoopBuffer T) (samples : list T) :
  1 <= max_size < SIZE_MOD ->
  sized max_size s ->
  Z.of_nat (length samples) < max_size ->
  exists s0 s1 s2 : LoopBuffer T,
    Init max_size s = Ok s0 /\
    write_all max_size s0 samples = Ok s1 /\
    length_ s1 = Z.of_nat (length samples) + 1 /\
    GetLength s1 = F32.of_Z (Z.of_nat (length samples) + 1) /\
    (Z.of_nat (length samples) + 1 < 2 ^ 24 ->
     F32.trunc (GetLength s1) = Ok (Z.of_nat (length samples) + 1)) /\
    read_ptr_ s1 = 0 /\
    repeat_read (Read max_size) (length samples) s1 = Ok (samples, s2).
Proof.
  intros Hfit Hs HN.
  set (line0 := replicate (Z.to_nat max_size) (sample_of_int 0 : T)).
  set (s0 := mkLoopBuffer F32.zero 0 0 1 line0).
  assert (Hs0 : sized max_size s0)
    by (unfold sized, s0, line0; cbn; apply length_replicate).
  set (s1 := mkLoopBuffer F32.zero (Z.of_nat (length samples)) 0
               (Z.of_nat (length samples) + 1)
               (samples ++ drop (length samples) line0)).
  assert (Hw : write_all max_size s0 samples = Ok s1).
  { rewrite write_all_grow by (try assumption; cbn; lia). reflexivity. }
  assert (Hs1 : sized max_size s1).
  { unfold sized, s1, line0. cbn.
    rewrite length_app, length_drop, length_replicate. lia. }
  exists s0, s1, (with_read_ptr s1 (0 + Z.of_nat (length samples))).
  split; [now apply Init_ok; [| lia] |].
  split; [exact Hw |].
  split; [reflexivity |].
  assert (HG : GetLength s1 = F32.of_Z (Z.of_nat (length samples) + 1))
    by (unfold GetLength; cbn; apply of_Z_add_zero; lia).
  split; [exact HG |].
  split; [intros Hsmall; rewrite HG; apply of_Z_exact; lia |].
  split; [reflexivity |].
  rewrite repeat_Read_inside by (try assumption; cbn; lia).
  cbn. change (Z.to_nat 0) with 0%nat. rewrite drop_0.
  now rewrite take_app_length.
Qed.

Lemma fresh_writes_read_back_witness :
  exists s0 s1 s2 : LoopBuffer float,
    Init 4 fresh4 = Ok s0 /\
    write_all (TG := ILP32) 4 s0 [f10; f20; f30] = Ok s1 /\
    length_ s1 = 3 + 1 /\
    GetLength s1 = F32.of_Z (3 + 1) /\
    (3 + 1 < 2 ^ 24 -> F32.trunc (GetLength s1) = Ok (3 + 1)) /\
    read_ptr_ s1 = 0 /\
    repeat_read (Read (TG := ILP32) 4) 3 s1 = Ok ([f10; f20; f30], s2).
Proof.
  apply (fresh_writes_read_back (TG := ILP32) 4 fresh4 [f10; f20; f30]).
  - vm_compute. split; [discriminate | reflexivity].
  - reflexivity.
  - simpl. lia.
Defined.

(** C3, as the spec states it, fails: after two writes into a fresh
    [LoopBuffer<float, 4>] the two reads do return 10 and 20, but
    [GetLength()] is 3, and [3.f == 2.f] is false. *)
Lemma GetLength_after_two_writes_is_three :
  (let* s0 := Init 4 fresh4 in
   let* s1 := write_all (TG := ILP32) 4 s0 [f10; f20] in
   Ok (GetLength s1, F32.eqb (GetLength s1) (F32.of_Z 2)))
  = Ok (F32.of_Z 3, false).
Proof. vm_compute. reflexivity. Qed.

(** ** ReadOnce *)

Section ReadOnceFacts.

Context {TG : Target}.
Context {T : Type} {SM : Sample T}.
Variable max_size : Z.
Hypothesis max_size_fits : 1 <= max_size < SIZE_MOD.

Implicit Type s : LoopBuffer T.

(** Before the last sample of the loop [ReadOnce] returns the sample
    under the cursor and moves on. *)
Lemma ReadOnce_inside s v :
  0 <= read_ptr_ s -> read_ptr_ s + 1 < length_ s -> length_ s <= max_size ->
  line_ s !! Z.to_nat (read_ptr_ s) = Some v ->
  ReadOnce max_size s = Ok (v, with_read_ptr s (read_ptr_ s + 1)).
Proof.
  intros Hr Hl Hm Hv. unfold ReadOnce.
  destruct (Z.ltb_spec (read_ptr_ s) (length_ s)); [| lia].
  rewrite size_rem_ok by lia. cbn [bind].
  rewrite Z.mod_small by lia.
  rewrite (line_get_lookup _ _ _ v) by (try assumption; lia). cbn [bind].
  rewrite !size_wrap_small by (unfold is_size; lia).
  destruct (Z.ltb_spec (read_ptr_ s) (length_ s - 1)); [reflexivity | lia].
Qed.

(** On the last sample the cursor stays where it is, so it never gets
    to [length_]: the guard [read_ptr_ < length_] keeps holding and the
    call returns the last sample again, leaving the object as it was. *)
Lemma ReadOnce_at_end s v :
  1 <= length_ s <= max_size -> read_ptr_ s = length_ s - 1 ->
  line_ s !! Z.to_nat (read_ptr_ s) = Some v ->
  ReadOnce max_size s = Ok (v, s).
Proof.
  intros Hl Hr Hv. unfold ReadOnce.
  destruct (Z.ltb_spec (read_ptr_ s) (length_ s)); [| lia].
  rewrite size_rem_ok by lia. cbn [bind].
  rewrite Z.mod_small by lia.
  rewrite (line_get_lookup _ _ _ v) by (try assumption; lia). cbn [bind].
  rewrite size_wrap_small by (unfold is_size; lia).
  destruct (Z.ltb_spec (read_ptr_ s) (length_ s - 1)); [lia |].
  now destruct s.
Qed.

Lemma repeat_ReadOnce_at_end n s v :
  1 <= length_ s <= max_size -> read_ptr_ s = length_ s - 1 ->
  line_ s !! Z.to_nat (read_ptr_ s) = Some v ->
  repeat_read (ReadOnce max_size) n s = Ok (replicate n v, s).
Proof.
  intros Hl Hr Hv. induction n as [|n IH]; [reflexivity |].
  cbn [repeat_read]. rewrite (ReadOnce_at_end s v) by assumption.
  cbn [bind]. now rewrite IH.
Qed.

(** A cursor at or beyond [length_] (set there by [SetReadPosition])
    gives silence and does not move. *)
Lemma ReadOnce_beyond s :
  1 <= length_ s <= max_size -> length_ s <= read_ptr_ s ->
  ReadOnce max_size s = Ok (sample_of_int 0, s).
Proof.
  intros Hl Hr. unfold ReadOnce.
  destruct (Z.ltb_spec (read_ptr_ s) (length_ s)); [lia |]. cbn [bind].
  rewrite size_wrap_small by (unfold is_size; lia).
  destruct (Z.ltb_spec (read_ptr_ s) (length_ s - 1)); [lia |].
  now destruct s.
Qed.

(** From cursor 0, [n] calls with [n] below the length return the first
    [n] samples of the loop. *)
Lemma repeat_ReadOnce_inside n : forall s,
  sized max_size s ->
  0 <= read_ptr_ s -> read_ptr_ s + Z.of_nat n < length_ s -> length_ s <= max_size ->
  repeat_read (ReadOnce max_size) n s
  = Ok (take n (drop (Z.to_nat (read_ptr_ s)) (line_ s)),
        with_read_ptr s (read_ptr_ s + Z.of_nat n)).
Proof.
  induction n as [|n IH]; intros s Hs Hr Hl Hm.
  - cbn. rewrite Z.add_0_r. now destruct s.
  - destruct (line_get_in max_size s (read_ptr_ s) Hs ltac:(lia)) as [v Hv].
    cbn [repeat_read]. rewrite (ReadOnce_inside s v) by (try assumption; lia).
    cbn [bind]. rewrite IH by (try assumption; cbn; lia). cbn [bind].
    cbn [with_read_ptr read_ptr_ line_ frac_ write_ptr_ length_].
    rewrite (drop_S _ v _ Hv). cbn [take].
    replace (Z.to_nat (read_ptr_ s + 1)) with (S (Z.to_nat (read_ptr_ s))) by lia.
    do 3 f_equal. lia.
Qed.

End ReadOnceFacts.

Lemma saturated4_reached :
  (let* s0 := Init 4 fresh4 in
   write_all (TG := ILP32) 4 s0 [f10; f20; f30; f40; f50]) = Ok saturated4.
Proof. vm_compute. reflexivity. Qed.

(** C1. [ReadOnce] at the spec's own saturated buffer (capacity 4,
    writes 10 .. 50, so the loop is [50; 20; 30; 40] with length 4):
    six calls from cursor 0 return the four samples of the loop and then
    the last one, 40, again and again, not 0; the cursor stays at 3. *)
Theorem ReadOnce_repeats_last_sample :
  (let* s0 := Init 4 fresh4 in
   let* s1 := write_all (TG := ILP32) 4 s0 [f10; f20; f30; f40; f50] in
   let* (out, s2) := repeat_read (ReadOnce (TG := ILP32) 4) 6 s1 in
   Ok (length_ s1, read_ptr_ s1, out, read_ptr_ s2))
  = Ok (4, 0, [f50; f20; f30; f40; f40; f40], 3).
Proof. vm_compute. reflexivity. Qed.

(** ** SetReadPosition *)

(** C9. [SetReadPosition(position)] stores [position] exactly when
    [position >= length_], and [length_ - 1] when [position < length_];
    nothing else changes. *)
Theorem SetReadPosition_literal {TG : Target} {T : Type}
    (s : LoopBuffer T) (position : Z) :
  is_size position -> is_size (length_ s) ->
  (length_ s <= position -> read_ptr_ (SetReadPosition s position) = position) /\
  (position < length_ s -> read_ptr_ (SetReadPosition s position) = length_ s - 1) /\
  frac_ (SetReadPosition s position) = frac_ s /\
  write_ptr_ (SetReadPosition s position) = write_ptr_ s /\
  length_ (SetReadPosition s position) = length_ s /\
  line_ (SetReadPosition s position) = line_ s.
Proof.
  intros Hp Hl. unfold SetReadPosition, is_size in *. cbn.
  rewrite Z.geb_leb.
  destruct (Z.leb_spec (length_ s) position) as [Hle | Hlt].
  - destruct (Z.ltb_spec position 0); [lia |].
    repeat split; trivial; lia.
  - rewrite size_wrap_small by (unfold is_size; lia).
    destruct (Z.ltb_spec (length_ s - 1) 0); [lia |].
    repeat split; trivial; lia.
Qed.

Lemma SetReadPosition_literal_witness :
  (4 <= 1 -> read_ptr_ (SetReadPosition (TG := ILP32) saturated4 1) = 1) /\
  (1 < 4 -> read_ptr_ (SetReadPosition (TG := ILP32) saturated4 1) = 4 - 1) /\
  frac_ (SetReadPosition (TG := ILP32) saturated4 1) = F32.zero /\
  write_ptr_ (SetReadPosition (TG := ILP32) saturated4 1) = 1 /\
  length_ (SetReadPosition (TG := ILP32) saturated4 1) = 4 /\
  line_ (SetReadPosition (TG := ILP32) saturated4 1) = [f50; f20; f30; f40].
Proof.
  apply (SetReadPosition_literal (TG := ILP32) saturated4 1).
  - vm_compute. split; [discriminate | reflexivity].
  - vm_compute. split; [discriminate | reflexivity].
Defined.

(** ** SetLength and Setlength *)

Lemma to_int_trunc x k : F32.to_int x = Ok k -> F32.trunc x = Ok k /\ is_int k.
Proof.
  unfold F32.to_int. destruct (F32.trunc x) as [z|u]; [| discriminate]. cbn [bind].
  destruct (Z.leb_spec INT_MIN z); [| discriminate].
  destruct (Z.leb_spec z INT_MAX); [| discriminate].
  cbn. intros [= <-]. unfold is_int. auto.
Qed.

(** C10 (as amended). [SetLength(n)] sets the length to [min(n, max_size)]
    and [frac_] to 0. [Setlength(x)], for an [x] whose integer part [k]
    (truncation toward zero) fits [int32_t], sets the length to [k] when
    [0 <= k < max_size] and to [max_size - 1] otherwise (also for
    negative [k]), and [frac_] to [x - (float)k]; [k] is the floor of
    [x] when [x >= 0], so that [frac_] is then [x - floor(x)]. (The
    array has at most half as many elements as [size_t] has values.) *)
Theorem SetLength_asymmetry {TG : Target} {T : Type} {SM : Sample T}
    (max_size : Z) (s : LoopBuffer T) (n : Z) (x : float) (k : Z) :
  1 <= max_size -> 2 * max_size <= SIZE_MOD ->
  F32.to_int x = Ok k ->
  (length_ (SetLength max_size s n) = Z.min n max_size /\
   frac_ (SetLength max_size s n) = F32.zero) /\
  (exists s', Setlength max_size s x = Ok s' /\
     length_ s' = (if (0 <=? k) && (k <? max_size) then k else max_size - 1) /\
     frac_ s' = F32.sub x (F32.of_Z k) /\
     (F32.leb F32.zero x = true -> F32.floor x = Ok k)).
Proof.
  intros Hm Hfit Hk. split.
  - unfold SetLength. cbn. split; [| reflexivity].
    destruct (Z.ltb_spec n max_size); lia.
  - destruct (to_int_trunc x k Hk) as [Ht [Hlo Hhi]].
    unfold INT_MIN, INT_MAX in Hlo, Hhi.
    pose proof SIZE_MOD_ge as Hge.
    unfold Setlength. rewrite Hk. cbn [bind].
    eexists. split; [reflexivity |]. cbn.
    split; [| split; [reflexivity | intros Hx; now rewrite floor_nonneg]].
    rewrite (size_wrap_small (max_size - 1)) by (unfold is_size; lia).
    destruct (Z.leb_spec 0 k) as [Hk0 | Hk0]; cbn [andb].
    + rewrite size_wrap_small by (unfold is_size; lia). reflexivity.
    + assert (Hw : size_wrap k = k + SIZE_MOD).
      { unfold size_wrap. symmetry.
        apply (Z.mod_unique k SIZE_MOD (-1)); lia. }
      rewrite Hw. destruct (Z.ltb_spec (k + SIZE_MOD) max_size); [lia | reflexivity].
Qed.

Lemma SetLength_asymmetry_witness :
  (length_ (SetLength 4 saturated4 9) = Z.min 9 4 /\
   frac_ (SetLength 4 saturated4 9) = F32.zero) /\
  (exists s', Setlength (TG := ILP32) 4 saturated4 two_and_half = Ok s' /\
     length_ s' = (if (0 <=? 2) && (2 <? 4) then 2 else 4 - 1) /\
     frac_ s' = F32.sub two_and_half (F32.of_Z 2) /\
     (F32.leb F32.zero two_and_half = true -> F32.floor two_and_half = Ok 2)).
Proof.
  apply (SetLength_asymmetry (TG := ILP32) 4 saturated4 9 two_and_half 2).
  - lia.
  - vm_compute. discriminate.
  - reflexivity.
Defined.

(** C10, as the spec states it, fails on a negative argument:
    [Setlength(-0.5f)] truncates toward zero, so the integer part is 0
    and [frac_] becomes [-0.5], while [x - floor(x)] is [0.5]. *)
Lemma Setlength_negative_fraction :
  (let* s1 := Setlength (TG := ILP32) 4 saturated4 minus_half in
   let* fl := F32.floor minus_half in
   Ok (length_ s1, frac_ s1, F32.sub minus_half (F32.of_Z fl)))
  = Ok (0, minus_half, half)
  /\ F32.eqb minus_half half = false.
Proof. split; vm_compute; reflexivity. Qed.

(** ** Splice with arguments *)

(** C8 (as amended). When [2 * fadeLength] is an [int] (no signed
    overflow in the guard) and one of the guard's conditions fails,
    [Splice(fadeLength, startPoint, endPoint)] returns with the object
    exactly as it was. *)
Theorem Splice_3_noop {T : Type} {SM : Sample T}
    (max_size : Z) (s : LoopBuffer T) (fadeLength startPoint endPoint : Z) :
  is_int (2 * fadeLength) -> is_int endPoint -> 0 <= length_ s ->
  (2 * fadeLength >= length_ s \/ startPoint < 0 \/ endPoint >= length_ s) ->
  Splice_3 max_size s fadeLength startPoint endPoint = Ok s.
Proof.
  intros Hf He Hl Hfail. unfold Splice_3.
  rewrite int_arith_ok by assumption. cbn [bind].
  destruct Hf as [_ Hf], He as [_ He].
  destruct (Z.ltb_spec (2 * fadeLength) (int_of_size (length_ s))) as [H1 | H1];
    [| reflexivity].
  rewrite Z.geb_leb.
  destruct (Z.leb_spec 0 startPoint) as [H2 | H2]; [| reflexivity].
  destruct (Z.ltb_spec endPoint (int_of_size (length_ s))) as [H3 | H3];
    [| reflexivity].
  exfalso. destruct Hfail as [Hc | [Hc | Hc]].
  - rewrite int_of_size_small in H1 by lia. lia.
  - lia.
  - rewrite int_of_size_small in H3 by lia. lia.
Qed.

Lemma Splice_3_noop_witness :
  Splice_3 4 saturated4 2 0 3 = Ok saturated4.
Proof.
  apply (Splice_3_noop 4 saturated4 2 0 3).
  - vm_compute. split; discriminate.
  - vm_compute. split; discriminate.
  - vm_compute. discriminate.
  - left. vm_compute. discriminate.
Defined.

(** C8, as the spec states it, fails where the guard itself overflows:
    with [fadeLength = 2^30] the product [2 * fadeLength] is not an
    [int], although [2 * fadeLength >= length_] holds of the numbers. *)
Lemma Splice_3_guard_overflow :
  2 * 2 ^ 30 >= length_ saturated4 /\
  Splice_3 4 saturated4 (2 ^ 30) 0 0 = UB SignedOverflow.
Proof. split; vm_compute; [discriminate | reflexivity]. Qed.

(** What the guard would have to add for the splice to stay inside the
    array: [startPoint + fadeLength <= max_size] and
    [endPoint >= max(0, fadeLength - 1)]. *)
Section SpliceSafe.

Context {T : Type} {SM : Sample T}.
Variable max_size : Z.

Implicit Type s : LoopBuffer T.

Lemma line_set_sized s i v :
  sized max_size s -> 0 <= i < max_size ->
  exists s', line_set max_size s i v = Ok s' /\
             sized max_size s' /\ length_ s' = length_ s.
Proof.
  intros Hs Hi. rewrite line_set_in by assumption.
  eexists. split; [reflexivity |]. split; [| reflexivity].
  apply sized_with_line; [apply length_insert | assumption].
Qed.

Lemma line_scale_sized s i f :
  sized max_size s -> 0 <= i < max_size ->
  exists s', line_scale max_size s i f = Ok s' /\
             sized max_size s' /\ length_ s' = length_ s.
Proof.
  intros Hs Hi. unfold line_scale.
  destruct (line_get_in max_size s i Hs Hi) as [v Hv].
  rewrite (line_get_lookup _ _ _ v) by assumption. cbn [bind].
  now apply line_set_sized.
Qed.

Lemma for_loop_ok (P : LoopBuffer T -> Prop)
    (body : Z -> LoopBuffer T -> Outcome (LoopBuffer T)) (n : nat) :
  forall first s,
    (forall i s1, first <= i < first + Z.of_nat n -> P s1 ->
                  exists s2, body i s1 = Ok s2 /\ P s2) ->
    P s -> exists s', for_loop n first body s = Ok s' /\ P s'.
Proof.
  induction n as [|n IH]; intros first s Hbody Hs.
  - exists s. now split.
  - destruct (Hbody first s ltac:(lia) Hs) as (s1 & E1 & H1).
    cbn [for_loop]. rewrite E1. cbn [bind].
    apply IH; [| exact H1].
    intros i s2 Hi. apply Hbody. lia.
Qed.

Lemma Splice_3_in_bounds s fadeLength startPoint endPoint :
  sized max_size s -> 0 <= length_ s <= max_size -> max_size <= INT_MAX ->
  is_int (2 * fadeLength) -> 2 * fadeLength < length_ s ->
  0 <= startPoint -> startPoint + fadeLength <= max_size ->
  0 <= endPoint < length_ s -> fadeLength - 1 <= endPoint ->
  exists s', Splice_3 max_size s fadeLength startPoint endPoint = Ok s' /\
             sized max_size s' /\ length_ s' = length_ s.
Proof.
  intros Hs Hl Hm Hf Hg Hsp Hsf Hep Hef.
  pose proof Hm as Hm'. unfold INT_MAX in Hm'.
  unfold Splice_3. rewrite int_arith_ok by assumption. cbn [bind].
  rewrite int_of_size_small by lia.
  destruct (Z.ltb_spec (2 * fadeLength) (length_ s)); [| lia].
  rewrite Z.geb_leb.
  destruct (Z.leb_spec 0 startPoint); [| lia].
  destruct (Z.ltb_spec endPoint (length_ s)); [| lia]. cbn [andb].
  set (P := fun s1 : LoopBuffer T => sized max_size s1 /\ length_ s1 = length_ s).
  destruct (for_loop_ok P
              (fun i s' =>
                 let* j := int_arith (startPoint + i) in
                 let* s1 := line_scale max_size s' j (ramp i fadeLength) in
                 let* k := int_arith (endPoint - i) in
                 line_scale max_size s1 k (ramp i fadeLength))
              (Z.to_nat fadeLength) 0 s) as (s1 & E1 & Hs1 & Hl1).
  { intros i s1 Hi [Hz Hk].
    rewrite int_arith_ok by (unfold is_int, INT_MIN, INT_MAX; lia). cbn [bind].
    destruct (line_scale_sized s1 (startPoint + i) (ramp i fadeLength) Hz ltac:(lia))
      as (s2 & E2 & Hz2 & Hk2).
    rewrite E2. cbn [bind].
    rewrite int_arith_ok by (unfold is_int, INT_MIN, INT_MAX; lia). cbn [bind].
    destruct (line_scale_sized s2 (endPoint - i) (ramp i fadeLength) Hz2 ltac:(lia))
      as (s3 & E3 & Hz3 & Hk3).
    exists s3. split; [exact E3 |]. split; [exact Hz3 | congruence]. }
  { now split. }
  rewrite E1. cbn [bind]. rewrite Hl1, int_of_size_small by lia.
  apply (for_loop_ok P); [| now split].
  intros i s2 Hi [Hz Hk].
  destruct (line_set_sized s2 i (sample_of_float F32.zero) Hz ltac:(lia))
    as (s3 & E3 & Hz3 & Hk3).
  exists s3. split; [exact E3 |]. split; [exact Hz3 | congruence].
Qed.

End SpliceSafe.

(** C5. The guard does not bound [startPoint] from above nor
    [endPoint] from below. On a full [LoopBuffer<float, 8>] (seven
    writes: length 8) the call [Splice(2, 7, 0)] passes the guard
    ([4 < 8], [7 >= 0], [0 < 8]) and its second iteration accesses
    [line_[8]], one past the array. *)
Theorem Splice_3_out_of_bounds :
  (let* s0 := Init 8 fresh8 in
   let* s1 := write_all (TG := ILP32) 8 s0 [f10; f20; f30; f40; f50; f10; f20] in
   Ok (length_ s1)) = Ok 8
  /\
  (let* s0 := Init 8 fresh8 in
   let* s1 := write_all (TG := ILP32) 8 s0 [f10; f20; f30; f40; f50; f10; f20] in
   Splice_3 8 s1 2 7 0) = UB (OutOfBounds 8).
Proof. split; vm_compute; reflexivity. Qed.

(** ** ReadSpeed *)

Section ReadSpeedFacts.

Context {TG : Target}.
Context {T : Type} {SM : Sample T}.
Variable max_size : Z.

Implicit Type s : LoopBuffer T.

(** The cursor after [ReadSpeed]: the sum is taken in [size_t], so a
    negative step wraps modulo [SIZE_MOD] before the remainder by the
    length; the result is never negative and the test [read_ptr_ < 0]
    never fires. The cursor does end inside the loop. *)
Lemma ReadSpeed_cursor s speed k v s' :
  0 < length_ s ->
  F32.floor_to_int (F32.add speed (frac_ s)) = Ok k ->
  ReadSpeed max_size s speed = Ok (v, s') ->
  read_ptr_ s' = size_wrap (read_ptr_ s + size_wrap k) mod length_ s /\
  0 <= read_ptr_ s' < length_ s' /\ length_ s' = length_ s.
Proof.
  intros Hl Hk. unfold ReadSpeed. rewrite Hk. cbn [bind].
  rewrite size_rem_ok by lia. cbn [bind].
  pose proof (Z.mod_pos_bound (size_wrap (read_ptr_ s + size_wrap k)) (length_ s) Hl) as Hb.
  cbn [with_read_ptr read_ptr_].
  destruct (Z.ltb_spec (size_wrap (read_ptr_ s + size_wrap k) mod length_ s) 0); [lia |].
  cbn [frac_ length_ read_ptr_ with_frac].
  destruct (F32.to_int _); [| discriminate]. cbn [bind].
  destruct (size_rem _ _); [| discriminate]. cbn [bind].
  destruct (line_get _ _ _); [| discriminate]. cbn [bind].
  destruct (size_rem _ _); [| discriminate]. cbn [bind].
  destruct (line_get _ _ _); [| discriminate]. cbn [bind].
  intros [= _ <-]. cbn. auto.
Qed.

End ReadSpeedFacts.

(** C6. [ReadSpeed(-1.0f)] on a loop of length 3 with the cursor at 0
    and [frac_ == 0] (a fresh [LoopBuffer<float, 4>] after two writes):
    [floor(speed + frac_)] is -1, the [size_t] sum wraps to
    [SIZE_MOD - 1], and the cursor becomes [(SIZE_MOD - 1) % 3], which
    is 0 with a 32-bit and with a 64-bit [size_t]; the spec's
    [length - 1] would be 2. *)
Theorem ReadSpeed_negative_wrap :
  (let* s0 := Init 4 fresh4 in
   let* s1 := write_all (TG := ILP32) 4 s0 [f10; f20] in
   let* k := F32.floor_to_int (F32.add minus_one (frac_ s1)) in
   let* (_, s2) := ReadSpeed (TG := ILP32) 4 s1 minus_one in
   Ok (length_ s1, read_ptr_ s1, k, read_ptr_ s2)) = Ok (3, 0, -1, 0)
  /\
  (let* s0 := Init 4 fresh4 in
   let* s1 := write_all (TG := LP64) 4 s0 [f10; f20] in
   let* (_, s2) := ReadSpeed (TG := LP64) 4 s1 minus_one in
   Ok (length_ s1, read_ptr_ s1, read_ptr_ s2)) = Ok (3, 0, 0).
Proof. split; vm_compute; reflexivity. Qed.

(** ** ReadSpeed at speed 1 against plain Read *)

Section SpeedOne.

Context {TG : Target}.
Context {T : Type} {SM : Sample T}.
Variable max_size : Z.

Implicit Type s : LoopBuffer T.

(** Plain [Read] on a non-empty loop inside the array: the sample at
    [read_ptr_ % length_], and the cursor at [(read_ptr_ + 1) % length_]. *)
Lemma Read_ok s :
  sized max_size s -> 1 <= length_ s <= max_size ->
  exists v,
    line_ s !! Z.to_nat (read_ptr_ s mod length_ s) = Some v /\
    Read max_size s
    = Ok (v, with_read_ptr s (size_wrap (read_ptr_ s + 1) mod length_ s)).
Proof.
  intros Hs Hl.
  pose proof (Z.mod_pos_bound (read_ptr_ s) (length_ s) ltac:(lia)) as Hb.
  destruct (line_get_in max_size s (read_ptr_ s mod length_ s) Hs ltac:(lia)) as [v Hv].
  exists v. split; [exact Hv |]. unfold Read.
  rewrite size_rem_ok by lia. cbn [bind].
  rewrite (line_get_lookup _ _ _ v) by (try assumption; lia). cbn [bind].
  now rewrite size_rem_ok by lia.
Qed.

Lemma Read_keeps s v s' :
  Read max_size s = Ok (v, s') ->
  frac_ s' = frac_ s /\ length_ s' = length_ s /\ line_ s' = line_ s /\
  write_ptr_ s' = write_ptr_ s.
Proof.
  unfold Read.
  destruct (size_rem _ _); [| discriminate]. cbn [bind].
  destruct (line_get _ _ _); [| discriminate]. cbn [bind].
  destruct (size_rem _ _); [| discriminate]. cbn [bind].
  intros [= _ <-]. cbn. auto.
Qed.

(** One [ReadSpeed(1.0f)] with [frac_ == 0]: the object ends exactly as
    after one plain [Read], but the value returned is interpolated, at
    phase 0, between the samples the next two plain reads return. *)
Lemma ReadSpeed_one_step s :
  sized max_size s -> 1 <= length_ s <= max_size -> frac_ s = F32.zero ->
  exists a0 a b s1 s2 s3,
    Read max_size s = Ok (a0, s1) /\
    Read max_size s1 = Ok (a, s2) /\
    Read max_size s2 = Ok (b, s3) /\
    ReadSpeed max_size s F32.one = Ok (sample_lerp a b F32.zero, s1).
Proof.
  intros Hs Hl Hf.
  destruct (Read_ok s Hs Hl) as (a0 & Ha0 & HR0).
  set (s1 := with_read_ptr s (size_wrap (read_ptr_ s + 1) mod length_ s)) in *.
  assert (Hs1 : sized max_size s1) by exact Hs.
  destruct (Read_ok s1 Hs1 Hl) as (a & Ha & HR1).
  set (s2 := with_read_ptr s1 (size_wrap (read_ptr_ s1 + 1) mod length_ s1)) in *.
  assert (Hs2 : sized max_size s2) by exact Hs.
  destruct (Read_ok s2 Hs2 Hl) as (b & Hb & HR2).
  eexists a0, a, b, s1, s2, _.
  split; [exact HR0 |]. split; [exact HR1 |]. split; [exact HR2 |].
  unfold ReadSpeed. rewrite Hf.
  change (F32.floor_to_int (F32.add F32.one F32.zero)) with (Ok (A := Z) 1).
  cbn [bind].
  rewrite (size_wrap_small 1) by (unfold is_size; pose proof SIZE_MOD_ge; lia).
  rewrite size_rem_ok by lia. cbn [bind].
  pose proof (Z.mod_pos_bound (size_wrap (read_ptr_ s + 1)) (length_ s) ltac:(lia)) as Hr.
  cbn [with_read_ptr read_ptr_ frac_ length_].
  destruct (Z.ltb_spec (size_wrap (read_ptr_ s + 1) mod length_ s) 0); [lia |].
  unfold with_read_ptr, with_frac.
  cbn [frac_ read_ptr_ length_ line_ write_ptr_]. rewrite Hf.
  change (F32.to_int (F32.add F32.one F32.zero)) with (Ok (A := Z) 1).
  cbn [bind].
  change (F32.sub (F32.add F32.one F32.zero) (F32.of_Z 1)) with F32.zero.
  rewrite size_rem_ok by lia. cbn [bind].
  unfold s1 in Ha. cbn [with_read_ptr read_ptr_ length_ line_] in Ha.
  unfold line_get at 1. cbn [line_].
  rewrite in_bounds_true
    by (pose proof (Z.mod_pos_bound (size_wrap (read_ptr_ s + 1) mod length_ s)
                      (length_ s) ltac:(lia)); lia).
  rewrite Ha. cbn [bind].
  rewrite size_rem_ok by lia. cbn [bind].
  unfold s2, s1 in Hb. cbn [with_read_ptr read_ptr_ length_ line_] in Hb.
  rewrite Z.mod_mod in Hb by lia.
  unfold line_get. cbn [line_].
  rewrite in_bounds_true
    by (pose proof (Z.mod_pos_bound
                      (size_wrap (size_wrap (read_ptr_ s + 1) mod length_ s + 1))
                      (length_ s) ltac:(lia)); lia).
  rewrite Hb. cbn [bind]. unfold s1, with_read_ptr. now rewrite Hf.
Qed.

End SpeedOne.

(** *** Interpolation at phase 0 *)

Lemma eqb_refl_finite x : F32.is_finite x = true -> F32.eqb x x = true.
Proof.
  destruct x as [s|s| |s m e]; try discriminate; intros _; [reflexivity |].
  unfold F32.eqb, SFeqb, SFcompare.
  rewrite Z.compare_refl, Pos.compare_cont_refl. now destruct s.
Qed.

(** [a + (b - a) * 0.f == a] when [a] and [b - a] are finite. *)
Lemma lerp_zero (a b : float) :
  F32.is_finite a = true -> F32.is_finite (F32.sub b a) = true ->
  same_value (sample_lerp a b F32.zero) a.
Proof.
  intros Ha Hd. unfold same_value. cbn [sample_lerp Sample_float].
  destruct (F32.sub b a) as [sd|sd| |sd md ed]; try discriminate;
    destruct a as [sa|sa| |sa ma ea]; try discriminate;
    try (destruct sa, sd; reflexivity);
    cbn; unfold F32.eqb, SFeqb, SFcompare;
    rewrite Z.compare_refl, Pos.compare_cont_refl; now destruct sa.
Qed.

Lemma tame_elem (l : list float) (a b : float) :
  tame l = true -> a ∈ l -> b ∈ l ->
  F32.is_finite a = true /\ F32.is_finite (F32.sub b a) = true.
Proof.
  unfold tame. intros Ht Ha Hb.
  rewrite forallb_forall in Ht.
  apply list_elem_of_In in Ha. apply list_elem_of_In in Hb.
  specialize (Ht a Ha). apply andb_true_iff in Ht as [Hf Hd].
  rewrite forallb_forall in Hd. auto.
Qed.

Section SpeedOneStream.

Context {TG : Target}.
Variable max_size : Z.

Lemma Read_in_loop {T : Type} {SM : Sample T} (s : LoopBuffer T) v s' :
  1 <= length_ s -> Read max_size s = Ok (v, s') -> v ∈ loop s.
Proof.
  intros Hl. unfold Read, size_rem.
  destruct (Z.eqb_spec (length_ s) 0); [lia |]. cbn [bind].
  unfold line_get. destruct (in_bounds _ _); [| discriminate].
  destruct (line_ s !! _) as [x|] eqn:Hx; [| discriminate]. cbn [bind].
  intros [= -> _].
  pose proof (Z.mod_pos_bound (read_ptr_ s) (length_ s) ltac:(lia)).
  apply list_elem_of_lookup. exists (Z.to_nat (read_ptr_ s mod length_ s)).
  unfold loop. rewrite lookup_take_lt by lia. exact Hx.
Qed.

Lemma repeat_ReadSpeed_one n : forall s : LoopBuffer float,
  sized max_size s -> 1 <= length_ s <= max_size ->
  frac_ s = F32.zero -> tame (loop s) = true ->
  exists out s' skipped first rest s'',
    repeat_read (fun s0 => ReadSpeed max_size s0 F32.one) n s = Ok (out, s') /\
    repeat_read (Read max_size) n s = Ok (skipped, s') /\
    repeat_read (Read max_size) (S n) s = Ok (first :: rest, s'') /\
    Forall2 same_value out rest.
Proof.
  induction n as [|n IH]; intros s Hs Hl Hf Ht.
  - destruct (Read_ok max_size s Hs Hl) as (v & _ & HR).
    eexists [], s, [], v, [], _. cbn [repeat_read]. rewrite HR. cbn [bind].
    repeat split; constructor.
  - destruct (ReadSpeed_one_step max_size s Hs Hl Hf)
      as (a0 & a & b & s1 & s2 & s3 & HR0 & HR1 & HR2 & HRS).
    destruct (Read_keeps max_size s a0 s1 HR0) as (Hf1 & Hl1 & Hline1 & _).
    destruct (Read_keeps max_size s1 a s2 HR1) as (_ & Hl2 & Hline2 & _).
    assert (Hloop1 : loop s1 = loop s) by (unfold loop; now rewrite Hl1, Hline1).
    assert (Hloop2 : loop s2 = loop s)
      by (unfold loop; now rewrite Hl2, Hline2, Hl1, Hline1).
    assert (Ha : a ∈ loop s)
      by (rewrite <- Hloop1; apply (Read_in_loop s1 a s2); [lia | exact HR1]).
    assert (Hb : b ∈ loop s)
      by (rewrite <- Hloop2; apply (Read_in_loop s2 b s3); [lia | exact HR2]).
    destruct (tame_elem _ a b Ht Ha Hb) as [Hfa Hfd].
    destruct (IH s1) as (out & s' & skipped & first & rest & s'' & E1 & E2 & E3 & HF).
    { unfold sized in *. now rewrite Hline1. }
    { lia. }
    { congruence. }
    { now rewrite Hloop1. }
    assert (first = a) as ->.
    { cbn [repeat_read] in E3. rewrite HR1 in E3. cbn [bind] in E3.
      destruct (repeat_read _ n s2) as [[o q]|]; [| discriminate].
      cbn [bind] in E3. congruence. }
    exists (sample_lerp a b F32.zero :: out), s', (a0 :: skipped), a0, (a :: rest), s''.
    split; [cbn [repeat_read]; rewrite HRS; cbn [bind]; now rewrite E1 |].
    split; [cbn [repeat_read]; rewrite HR0; cbn [bind]; now rewrite E2 |].
    split; [change (repeat_read (Read max_size) (S (S n)) s)
              with (let* (x, t) := Read max_size s in
                    let* (o, q) := repeat_read (Read max_size) (S n) t in
                    Ok (x :: o, q));
            rewrite HR0; cbn [bind]; now rewrite E3 |].
    constructor; [now apply lerp_zero | exact HF].
Qed.

End SpeedOneStream.

(** *** A phase of -0

    [frac_ == 0] also holds of -0 (what [Setlength(-0.0f)] stores): the
    first [ReadSpeed(1.0f)] then behaves as from +0, and leaves +0. *)

Section SignedZero.

Context {TG : Target}.
Context {T : Type} {SM : Sample T}.
Variable max_size : Z.

Implicit Type s : LoopBuffer T.

Lemma ReadSpeed_one_zero_phase s :
  F32.is_zero (frac_ s) = true ->
  ReadSpeed max_size s F32.one = ReadSpeed max_size (with_frac s F32.zero) F32.one.
Proof.
  destruct s as [f w r l ln]. cbn [frac_].
  destruct f as [sg| | |]; try discriminate. intros _.
  destruct sg; [| reflexivity].
  unfold ReadSpeed. cbn [with_frac frac_ read_ptr_ length_ write_ptr_ line_].
  change (F32.floor_to_int (F32.add F32.one (S754_zero true)))
    with (F32.floor_to_int (F32.add F32.one F32.zero)).
  destruct (F32.floor_to_int _) as [k|]; [| reflexivity]. cbn [bind].
  destruct (size_rem _ _) as [r'|]; [| reflexivity]. cbn [bind].
  cbn [with_read_ptr read_ptr_].
  destruct (r' <? 0); reflexivity.
Qed.

Lemma Read_with_frac s f :
  Read max_size (with_frac s f)
  = let* (a, s') := Read max_size s in Ok (a, with_frac s' f).
Proof.
  assert (Hget : forall i, line_get max_size (with_frac s f) i = line_get max_size s i)
    by reflexivity.
  unfold Read.
  change (read_ptr_ (with_frac s f)) with (read_ptr_ s).
  change (length_ (with_frac s f)) with (length_ s).
  destruct (size_rem (read_ptr_ s) (length_ s)) as [i|]; [| reflexivity].
  cbn [bind]. rewrite Hget.
  destruct (line_get max_size s i); [| reflexivity]. cbn [bind].
  destruct (size_rem _ _); reflexivity.
Qed.

Lemma repeat_Read_with_frac f n : forall s out q,
  repeat_read (Read max_size) n (with_frac s f) = Ok (out, q) ->
  exists q', repeat_read (Read max_size) n s = Ok (out, q') /\ q = with_frac q' f.
Proof.
  induction n as [|n IH]; intros s out q Hq.
  - injection Hq as <- <-. now exists s.
  - cbn [repeat_read] in *. rewrite Read_with_frac in Hq.
    destruct (Read max_size s) as [[a s1]|]; [| discriminate].
    cbn [bind] in *.
    destruct (repeat_read (Read max_size) n (with_frac s1 f)) as [[o q1]|] eqn:E;
      [| discriminate].
    cbn [bind] in Hq. injection Hq as <- <-.
    destruct (IH s1 o q1 E) as (q' & E' & ->).
    rewrite E'. cbn [bind]. now exists q'.
Qed.

End SignedZero.

(** C4 (as amended). From a state with [frac_ == 0], a non-empty loop
    inside the array and tame samples, [n] calls of [ReadSpeed(1.0f)]
    leave the cursors, the length and the array exactly as [n] calls of
    plain [Read] do, with [frac_] still 0; but [ReadSpeed] advances the
    cursor before it fetches, so its output is the stream of plain
    [Read] delayed by one call: its k-th value equals, as floats, the
    (k+1)-th value of plain [Read]. *)
Theorem ReadSpeed_one_is_Read_shifted {TG : Target}
    (max_size : Z) (s : LoopBuffer float) (n : nat) :
  sized max_size s -> 1 <= length_ s <= max_size ->
  F32.is_zero (frac_ s) = true -> tame (loop s) = true ->
  exists out s' skipped s2 first rest s'',
    repeat_read (fun s0 => ReadSpeed max_size s0 F32.one) n s = Ok (out, s') /\
    repeat_read (Read max_size) n s = Ok (skipped, s2) /\
    same_but_frac s' s2 /\ F32.is_zero (frac_ s') = true /\
    repeat_read (Read max_size) (S n) s = Ok (first :: rest, s'') /\
    Forall2 same_value out rest.
Proof.
  intros Hs Hl Hz Ht. destruct n as [|n].
  - destruct (Read_ok max_size s Hs Hl) as (v & _ & HR).
    eexists [], s, [], s, v, [], _. cbn [repeat_read]. rewrite HR. cbn [bind].
    repeat split; [exact Hz | constructor].
  - destruct (repeat_ReadSpeed_one max_size (S n) (with_frac s F32.zero))
      as (out & s' & skipped & first & rest & s'' & E1 & E2 & E3 & HF);
      [exact Hs | exact Hl | reflexivity | exact Ht |].
    destruct (repeat_Read_with_frac max_size F32.zero (S n) s skipped s' E2)
      as (s2 & E2' & ->).
    destruct (repeat_Read_with_frac max_size F32.zero (S (S n)) s (first :: rest) s'' E3)
      as (s3 & E3' & _).
    exists out, (with_frac s2 F32.zero), skipped, s2, first, rest, s3.
    split; [| split; [exact E2' | split; [now repeat split | split;
                [reflexivity | split; [exact E3' | exact HF]]]]].
    cbn [repeat_read] in *. now rewrite ReadSpeed_one_zero_phase.
Qed.

Lemma ReadSpeed_one_is_Read_shifted_witness :
  exists out s' skipped s2 first rest s'',
    repeat_read (fun s0 => ReadSpeed (TG := ILP32) 4 s0 F32.one) 3 saturated4
    = Ok (out, s') /\
    repeat_read (Read (TG := ILP32) 4) 3 saturated4 = Ok (skipped, s2) /\
    same_but_frac s' s2 /\ F32.is_zero (frac_ s') = true /\
    repeat_read (Read (TG := ILP32) 4) 4 saturated4 = Ok (first :: rest, s'') /\
    Forall2 same_value out rest.
Proof.
  apply (ReadSpeed_one_is_Read_shifted (TG := ILP32) 4 saturated4 3).
  - reflexivity.
  - simpl. lia.
  - reflexivity.
  - vm_compute. reflexivity.
Defined.

(** C4, as the spec states it, fails: on the saturated buffer the two
    streams differ from the first value on. Plain [Read] gives 50, 20,
    30, 40; [ReadSpeed(1.0f)] gives 20, 30, 40, 50. *)
Lemma ReadSpeed_one_differs_from_Read :
  (let* s0 := Init 4 fresh4 in
   let* s1 := write_all (TG := ILP32) 4 s0 [f10; f20; f30; f40; f50] in
   let* (plain, _) := repeat_read (Read (TG := ILP32) 4) 4 s1 in
   let* (speed, _) :=
     repeat_read (fun s0 => ReadSpeed (TG := ILP32) 4 s0 F32.one) 4 s1 in
   Ok (frac_ s1, read_ptr_ s1, plain, speed))
  = Ok (F32.zero, 0, [f50; f20; f30; f40], [f20; f30; f40; f50])
  /\ F32.eqb f50 f20 = false.
Proof. split; vm_compute; reflexivity. Qed.

(** ** The bounds of [length_] *)

(** Breaks a hypothesis [H : m = Ok _] down along the binds, tests and
    pairs of the member function [m] unfolds to. *)
Ltac crack H :=
  repeat first
    [ discriminate H
    | match type of H with
      | bind ?m _ = Ok _ =>
          let E := fresh "E" in
          destruct m eqn:E; cbn [bind] in H; [| discriminate H]
      | (if ?b then _ else _) = Ok _ => let E := fresh "E" in destruct b eqn:E
      | (let '(_, _) := ?p in _) = Ok _ => let E := fresh "E" in destruct p eqn:E
      | (match ?p with (_, _) => _ end) = Ok _ => destruct p
      | (match ?o with Some _ => _ | None => _ end) = Ok _ =>
          let E := fresh "E" in destruct o eqn:E
      end ].

Section LengthBounds.

Context {TG : Target}.
Context {T : Type} {SM : Sample T}.
Variable max_size : Z.

Implicit Type s : LoopBuffer T.

Lemma line_set_length s i v s' :
  line_set max_size s i v = Ok s' -> length_ s' = length_ s.
Proof. unfold line_set. intros H. crack H. now injection H as <-. Qed.

Lemma line_scale_length s i f s' :
  line_scale max_size s i f = Ok s' -> length_ s' = length_ s.
Proof.
  unfold line_scale. intros H. crack H.
  now apply line_set_length in H.
Qed.

Lemma for_loop_length (body : Z -> LoopBuffer T -> Outcome (LoopBuffer T)) :
  (forall i s s', body i s = Ok s' -> length_ s' = length_ s) ->
  forall n i s s', for_loop n i body s = Ok s' -> length_ s' = length_ s.
Proof.
  intros Hbody. induction n as [|n IH]; intros i s s' H.
  - now injection H as <-.
  - cbn [for_loop] in H. crack H.
    apply IH in H. apply Hbody in E. congruence.
Qed.

Lemma Splice_length s s' : Splice max_size s = Ok s' -> length_ s' = length_ s.
Proof.
  unfold Splice. apply for_loop_length.
  intros i s1 s2 H. crack H.
  apply line_scale_length in H, E. congruence.
Qed.

Lemma Splice_3_length s f a b s' :
  Splice_3 max_size s f a b = Ok s' -> length_ s' = length_ s.
Proof.
  unfold Splice_3. intros H. crack H; [| now injection H as <-].
  apply for_loop_length in H; [| intros i s1 s2; apply line_set_length].
  apply for_loop_length in E1; [congruence |].
  intros i s1 s2 Hb. crack Hb.
  apply line_scale_length in Hb, E3. congruence.
Qed.

Lemma Read_2_length s ce mc v s' :
  Read_2 max_size s ce mc = Ok (v, s') -> length_ s' = length_ s.
Proof. unfold Read_2. intros H. crack H. now injection H as _ <-. Qed.

Lemma Read_3_length s cs ce mc v s' :
  Read_3 max_size s cs ce mc = Ok (v, s') -> length_ s' = length_ s.
Proof. unfold Read_3. intros H. crack H. now injection H as _ <-. Qed.

Lemma Read_5_length s st cs ce mc rl rs r1 r2 v st' s' :
  Read_5 max_size s st cs ce mc rl rs r1 r2 = Ok (v, st', s') -> length_ s' = length_ s.
Proof. unfold Read_5. intros H. crack H. now injection H as _ _ <-. Qed.

Lemma Read_6_length s st cs ce sp mc rl rs r1 r2 v st' s' :
  Read_6 max_size s st cs ce sp mc rl rs r1 r2 = Ok (v, st', s') ->
  length_ s' = length_ s.
Proof.
  unfold Read_6. intros H.
  destruct (length_ s >? 1); [| now injection H as _ _ <-].
  destruct (choose_window _ _ _ _ _ _ _ _ _ _); [| discriminate]. cbn [bind] in H.
  destruct (size_rem _ _); [| discriminate]. cbn [bind] in H.
  destruct (line_get _ _ _); [| discriminate]. cbn [bind] in H.
  destruct (if F32.leb F32.zero sp then _ else _); [| discriminate]. cbn [bind] in H.
  destruct (F32.modf _) as [fp ip].
  destruct (F32.to_int ip); [| discriminate]. cbn [bind] in H.
  destruct (size_rem _ _); [| discriminate]. cbn [bind] in H.
  destruct (_ <? 0); now injection H as _ _ <-.
Qed.

Lemma ReadOnce_length s v s' :
  ReadOnce max_size s = Ok (v, s') -> length_ s' = length_ s.
Proof.
  unfold ReadOnce. intros H.
  destruct (if read_ptr_ s <? length_ s then _ else _); [| discriminate].
  cbn [bind] in H. now injection H as _ <-.
Qed.

Lemma ReadSpeed_length s sp v s' :
  ReadSpeed max_size s sp = Ok (v, s') -> length_ s' = length_ s.
Proof.
  unfold ReadSpeed. intros H.
  destruct (F32.floor_to_int _); [| discriminate]. cbn [bind] in H.
  destruct (size_rem _ _); [| discriminate]. cbn [bind] in H.
  destruct (_ <? 0);
    (destruct (F32.to_int _); [| discriminate]; cbn [bind] in H;
     destruct (size_rem _ _); [| discriminate]; cbn [bind] in H;
     destruct (line_get _ _ _); [| discriminate]; cbn [bind] in H;
     destruct (size_rem _ _); [| discriminate]; cbn [bind] in H;
     destruct (line_get _ _ _); [| discriminate]; cbn [bind] in H;
     now injection H as _ <-).
Qed.

Lemma Init_length s s' : Init max_size s = Ok s' -> length_ s' = 1.
Proof. unfold Init. intros H. crack H. now injection H as <-. Qed.

Hypothesis max_size_fits : 1 <= max_size < SIZE_MOD.

(** [Write] never shrinks the length, never takes it past the array,
    and leaves it at least 1. *)
Lemma Write_length s v s' :
  Write max_size s v = Ok s' ->
  1 <= length_ s' /\ length_ s <= length_ s' /\
  (length_ s <= max_size -> length_ s' <= max_size).
Proof.
  unfold Write. intros H.
  destruct (line_set _ _ _ _) as [s1|] eqn:E1; [| discriminate]. cbn [bind] in H.
  apply line_set_length in E1.
  rewrite size_rem_ok in H by lia. cbn [bind] in H.
  set (w := size_wrap (write_ptr_ s1 + 1) mod max_size) in *.
  pose proof (Z.mod_pos_bound (size_wrap (write_ptr_ s1 + 1)) max_size ltac:(lia)) as Hw.
  fold w in Hw. cbn [with_write_ptr write_ptr_ length_] in H.
  rewrite Z.geb_leb in H.
  destruct (Z.leb_spec (length_ s1) w); injection H as <-; cbn.
  - rewrite size_wrap_small by (unfold is_size; lia). lia.
  - lia.
Qed.

(** What the two setters leave in [length_]. *)
Lemma SetLength_length s n :
  length_ (SetLength max_size s n) = Z.min n max_size.
Proof. unfold SetLength. cbn. destruct (Z.ltb_spec n max_size); lia. Qed.

Lemma Setlength_length s x s' :
  Setlength max_size s x = Ok s' ->
  0 <= length_ s' <= max_size /\
  (length_ s' = 0 <-> F32.to_int x = Ok 0 \/ max_size = 1).
Proof.
  unfold Setlength. intros H.
  destruct (F32.to_int x) as [k|] eqn:Ek; [| discriminate]. cbn [bind] in H.
  injection H as <-. cbn.
  destruct (to_int_trunc x k Ek) as [_ [Hlo Hhi]].
  unfold INT_MIN, INT_MAX in Hlo, Hhi.
  pose proof SIZE_MOD_ge as Hge.
  pose proof (size_wrap_is_size k) as [Hk0 Hk1].
  rewrite (size_wrap_small (max_size - 1)) by (unfold is_size; lia).
  assert (Hz : size_wrap k = 0 <-> k = 0).
  { split; [| now intros ->].
    destruct (Z.leb_spec 0 k).
    - rewrite size_wrap_small by (unfold is_size; lia). auto.
    - assert (size_wrap k = k + SIZE_MOD)
        by (unfold size_wrap; symmetry; apply (Z.mod_unique k SIZE_MOD (-1)); lia).
      lia. }
  destruct (Z.ltb_spec (size_wrap k) max_size).
  - split; [lia |]. split.
    + intros E0. left. f_equal. now apply Hz.
    + intros [[= ->] | ->]; [now apply Hz | lia].
  - split; [lia |]. split.
    + intros E0. right. lia.
    + intros [[= ->] | ->]; [| lia].
      assert (size_wrap 0 = 0) by now apply Hz. lia.
Qed.

(** The length one call leaves, from the length it finds. *)
Lemma exec_length (c : Call T) (w w' : World T) :
  well_typed c -> exec max_size c w = Ok w' ->
  (0 <= length_ (buffer w) <= max_size -> 0 <= length_ (buffer w') <= max_size) /\
  (~ sets_length_to_zero max_size c ->
   1 <= length_ (buffer w) <= max_size -> 1 <= length_ (buffer w') <= max_size) /\
  (sets_length_to_zero max_size c -> length_ (buffer w') = 0).
Proof.
  intros Hc H.
  destruct c; cbn [exec] in H; cbn [sets_length_to_zero well_typed] in *;
    try (crack H; injection H as <-; cbn [buffer on_buffer];
         match goal with
         | E : _ = Ok _ |- _ =>
             first [ apply Read_2_length in E | apply Read_3_length in E
                   | apply Read_5_length in E | apply Read_6_length in E
                   | apply ReadOnce_length in E | apply ReadSpeed_length in E
                   | apply Splice_length in E | apply Splice_3_length in E
                   | apply Read_keeps in E; destruct E as (_ & E & _) ];
             rewrite E; tauto
         end).
  - (* Init *)
    crack H. injection H as <-. cbn. apply Init_length in E. lia.
  - (* Reset *)
    injection H as <-. cbn. lia.
  - (* SetLength *)
    injection H as <-. cbn [buffer on_buffer]. rewrite SetLength_length.
    unfold is_size in Hc. lia.
  - (* Setlength *)
    destruct (Setlength max_size (buffer w) length) as [s'|] eqn:E;
      [| discriminate].
    injection H as <-. cbn [buffer on_buffer].
    apply Setlength_length in E. destruct E as [Hb Hz].
    split; [auto |]. split; [| tauto].
    intros Hn _. assert (length_ s' <> 0) by tauto. lia.
  - (* GetLength *) injection H as <-. tauto.
  - (* SetReadPosition *) injection H as <-. cbn. tauto.
  - (* GetReadPosition *) injection H as <-. tauto.
  - (* GetWritePosition *) injection H as <-. tauto.
  - (* Write *)
    crack H. injection H as <-. cbn [buffer on_buffer].
    apply Write_length in E. lia.
Qed.

End LengthBounds.

(** Calls made one after the other from a reachable state lead to
    reachable states. *)
Lemma reachable_run {TG : Target} {T : Type} {SM : Sample T} (max_size : Z)
    (allowed : Call T -> Prop) (cs : list (Call T)) :
  forall w w' : World T,
    reachable max_size allowed w ->
    Forall (fun c => well_typed c /\ allowed c) cs ->
    run_calls max_size cs w = Ok w' -> reachable max_size allowed w'.
Proof.
  induction cs as [|c cs IH]; intros w w' Hr Hcs Hrun.
  - now injection Hrun as <-.
  - cbn [run_calls] in Hrun.
    destruct (exec max_size c w) as [w1|] eqn:E; [| discriminate].
    cbn [bind] in Hrun. inversion Hcs as [|? ? [Hc Ha] Hrest]; subst.
    apply (IH w1 w'); [| assumption | assumption].
    now apply (reach_call max_size allowed c w w1).
Qed.

(** C2 (as amended). In every state reachable after [Init] or [Reset],
    by any public calls with any arguments, [0 <= length_ <= max_size].
    The lower bound [1 <= length_] holds as long as no call sets the
    length to 0, and the calls that do are exactly [SetLength(0)] and
    [Setlength(x)] with an [x] whose integer part is 0 (any [x] in the
    open interval (-1, 1)) or, when [max_size] is 1, any [x]; every
    other call, [Write] included, preserves [1 <= length_ <= max_size]. *)
Theorem length_bounds {TG : Target} {T : Type} {SM : Sample T} (max_size : Z) :
  1 <= max_size < SIZE_MOD ->
  (forall w : World T,
     reachable max_size any_call w -> 0 <= length_ (buffer w) <= max_size) /\
  (forall w : World T,
     reachable max_size (keeps_length_positive max_size) w ->
     1 <= length_ (buffer w) <= max_size) /\
  (forall (c : Call T) (w w' : World T),
     well_typed c -> sets_length_to_zero max_size c ->
     exec max_size c w = Ok w' -> length_ (buffer w') = 0).
Proof.
  intros Hfit. split; [| split].
  - intros w H.
    induction H as [w w' Hs HI | w w' Hs HR | c w w' Hr IH Hc _ He].
    + cbn [exec] in HI. crack HI. injection HI as <-. cbn.
      apply Init_length in E. lia.
    + injection HR as <-. cbn. lia.
    + destruct (exec_length max_size Hfit c w w' Hc He) as (Hb & _). auto.
  - intros w H.
    induction H as [w w' Hs HI | w w' Hs HR | c w w' Hr IH Hc Ha He].
    + cbn [exec] in HI. crack HI. injection HI as <-. cbn.
      apply Init_length in E. lia.
    + injection HR as <-. cbn. lia.
    + destruct (exec_length max_size Hfit c w w' Hc He) as (_ & Hb & _). auto.
  - intros c w w' Hc Hz He.
    destruct (exec_length max_size Hfit c w w' Hc He) as (_ & _ & Hb). auto.
Qed.

Lemma length_bounds_witness :
  (forall w : World float,
     reachable (TG := ILP32) 4 any_call w -> 0 <= length_ (buffer w) <= 4) /\
  (forall w : World float,
     reachable (TG := ILP32) 4 (keeps_length_positive 4) w ->
     1 <= length_ (buffer w) <= 4) /\
  (forall (c : Call float) (w w' : World float),
     well_typed (TG := ILP32) c -> sets_length_to_zero 4 c ->
     exec (TG := ILP32) 4 c w = Ok w' -> length_ (buffer w') = 0).
Proof.
  apply (length_bounds (TG := ILP32) (T := float) 4).
  vm_compute. split; [discriminate | reflexivity].
Defined.

(** C2, as the spec states it, fails: after [Init] and the five writes
    of the saturation trace, [SetLength(0)] leaves the length at 0, and
    so does [Setlength(-0.5f)]. *)
Lemma length_zero_is_reachable :
  (exists w : World float,
     run_calls (TG := ILP32) 4
       [CInit; CWrite f10; CWrite f20; CWrite f30; CWrite f40; CWrite f50;
        CSetLength 0] world4 = Ok w /\
     reachable (TG := ILP32) 4 any_call w /\ length_ (buffer w) = 0) /\
  (exists w : World float,
     run_calls (TG := ILP32) 4
       [CInit; CWrite f10; CWrite f20; CWrite f30; CWrite f40; CWrite f50;
        CSetlength minus_half] world4 = Ok w /\
     reachable (TG := ILP32) 4 any_call w /\ length_ (buffer w) = 0).
Proof.
  pose (w0 := mkWorld (mkLoopBuffer F32.zero 0 0 1 (replicate 4 F32.zero))
                Statics_init Statics_init).
  assert (H0 : reachable (TG := ILP32) 4 any_call w0)
    by (apply (reach_Init 4 any_call world4); reflexivity).
  split.
  - exists (mkWorld (mkLoopBuffer F32.zero 1 0 0 [f50; f20; f30; f40])
              Statics_init Statics_init).
    split; [vm_compute; reflexivity |]. split; [| reflexivity].
    apply (reachable_run 4 any_call
             [CWrite f10; CWrite f20; CWrite f30; CWrite f40; CWrite f50;
              CSetLength 0] w0 _ H0).
    + repeat constructor. vm_compute. discriminate.
    + vm_compute. reflexivity.
  - exists (mkWorld (mkLoopBuffer minus_half 1 0 0 [f50; f20; f30; f40])
              Statics_init Statics_init).
    split; [vm_compute; reflexivity |]. split; [| reflexivity].
    apply (reachable_run 4 any_call
             [CWrite f10; CWrite f20; CWrite f30; CWrite f40; CWrite f50;
              CSetlength minus_half] w0 _ H0).
    + repeat constructor.
    + vm_compute. reflexivity.
Qed.

(** * Further properties of the members *)

(** ** Init *)

(** X1. [Init] on any object (whatever the constructor left in it)
    succeeds and leaves every one of the [max_size] samples at [T(0)],
    both cursors at 0, the length at 1 and [frac_] at 0; [GetLength()]
    is then exactly 1. A second [Init] changes nothing. *)
Theorem Init_clears {T : Type} {SM : Sample T} (max_size : Z) (s : LoopBuffer T) :
  1 <= max_size -> sized max_size s ->
  exists s',
    Init max_size s = Ok s' /\
    sized max_size s' /\
    (forall i : nat, (i < Z.to_nat max_size)%nat ->
                     line_ s' !! i = Some (sample_of_int 0)) /\
    write_ptr_ s' = 0 /\ read_ptr_ s' = 0 /\ length_ s' = 1 /\
    frac_ s' = F32.zero /\ F32.trunc (GetLength s') = Ok 1 /\
    Init max_size s' = Ok s'.
Proof.
  intros Hm Hs. rewrite Init_ok by (try assumption; lia).
  eexists. split; [reflexivity |].
  assert (Hs' : sized max_size
                  (mkLoopBuffer F32.zero 0 0 1
                     (replicate (Z.to_nat max_size) (sample_of_int 0 : T))))
    by (unfold sized; cbn; apply length_replicate).
  split; [exact Hs' |].
  split; [intros i Hi; cbn; now apply lookup_replicate_2 |].
  repeat (split; [reflexivity |]).
  now rewrite Init_ok by (try assumption; lia).
Qed.

Lemma Init_clears_witness :
  exists s',
    Init 4 fresh4 = Ok s' /\
    sized 4 s' /\
    (forall i : nat, (i < Z.to_nat 4)%nat -> line_ s' !! i = Some (sample_of_int 0)) /\
    write_ptr_ s' = 0 /\ read_ptr_ s' = 0 /\ length_ s' = 1 /\
    frac_ s' = F32.zero /\ F32.trunc (GetLength s') = Ok 1 /\
    Init 4 s' = Ok s'.
Proof.
  apply (Init_clears 4 fresh4).
  - lia.
  - reflexivity.
Defined.

(** ** Write *)

(** X2. One [Write] on an object whose write cursor is inside the
    array stores the sample at the write cursor and touches no other
    slot; the cursor moves to [(write_ptr_ + 1) % max_size] and stays
    inside the array; [read_ptr_] and [frac_] are left alone; the length
    never shrinks, ends at least 1, and stays within the array if it was. *)
Theorem Write_stores {TG : Target} {T : Type} {SM : Sample T}
    (max_size : Z) (s : LoopBuffer T) (v : T) :
  1 <= max_size < SIZE_MOD -> sized max_size s -> 0 <= write_ptr_ s < max_size ->
  exists s',
    Write max_size s v = Ok s' /\
    sized max_size s' /\
    line_ s' !! Z.to_nat (write_ptr_ s) = Some v /\
    (forall i : nat, i <> Z.to_nat (write_ptr_ s) -> line_ s' !! i = line_ s !! i) /\
    write_ptr_ s' = (write_ptr_ s + 1) mod max_size /\
    0 <= write_ptr_ s' < max_size /\
    read_ptr_ s' = read_ptr_ s /\ frac_ s' = frac_ s /\
    1 <= length_ s' /\ length_ s <= length_ s' /\
    (length_ s <= max_size -> length_ s' <= max_size).
Proof.
  intros Hfit Hs Hw.
  pose proof (Write_ok max_size Hfit s v Hs Hw) as E.
  eexists. split; [exact E |].
  destruct (Write_length max_size Hfit s v _ E) as (H1 & H2 & H3).
  cbn zeta in *. cbn [line_ write_ptr_ read_ptr_ frac_].
  split; [unfold sized in *; cbn; now rewrite length_insert |].
  split; [apply list_lookup_insert_eq; unfold sized in Hs; lia |].
  split; [intros i Hi; now apply list_lookup_insert_ne |].
  split; [reflexivity |].
  split; [apply Z.mod_pos_bound; lia |].
  auto.
Qed.

Lemma Write_stores_witness :
  exists s',
    Write (TG := ILP32) 4 saturated4 f10 = Ok s' /\
    sized 4 s' /\
    line_ s' !! Z.to_nat (write_ptr_ saturated4) = Some f10 /\
    (forall i : nat, i <> Z.to_nat (write_ptr_ saturated4) ->
                     line_ s' !! i = line_ saturated4 !! i) /\
    write_ptr_ s' = (write_ptr_ saturated4 + 1) mod 4 /\
    0 <= write_ptr_ s' < 4 /\
    read_ptr_ s' = read_ptr_ saturated4 /\ frac_ s' = frac_ saturated4 /\
    1 <= length_ s' /\ length_ saturated4 <= length_ s' /\
    (length_ saturated4 <= 4 -> length_ s' <= 4).
Proof.
  apply (Write_stores (TG := ILP32) 4 saturated4 f10).
  - vm_compute. split; [discriminate | reflexivity].
  - reflexivity.
  - vm_compute. split; [discriminate | reflexivity].
Defined.

(** *** The ring *)

Section Ring.

Context {TG : Target}.
Context {T : Type} {SM : Sample T}.
Variable max_size : Z.
Hypothesis max_size_fits : 1 <= max_size < SIZE_MOD.

Implicit Type s : LoopBuffer T.

(** Stepping the cursor [k] times, [0 < k < max_size], does not bring it
    back to where it was. *)
Lemma ring_step_ne w k :
  0 <= w < max_size -> 0 < k < max_size -> (w + k) mod max_size <> w.
Proof.
  intros Hw Hk E.
  destruct (Z.lt_ge_cases (w + k) max_size) as [Hlt | Hge].
  - rewrite Z.mod_small in E by lia. lia.
  - assert (Hq : (w + k) mod max_size = w + k - max_size)
      by (symmetry; apply (Z.mod_unique (w + k) max_size 1); lia).
    lia.
Qed.

Lemma ring_step_succ w j :
  ((w + 1) mod max_size + Z.of_nat j) mod max_size
  = (w + Z.of_nat (S j)) mod max_size.
Proof.
  rewrite Z.add_mod_idemp_l by lia. f_equal. lia.
Qed.

Lemma write_all_ring vs : forall s,
  sized max_size s -> 0 <= write_ptr_ s < max_size ->
  exists s',
    write_all max_size s vs = Ok s' /\
    sized max_size s' /\
    write_ptr_ s' = (write_ptr_ s + Z.of_nat (length vs)) mod max_size /\
    read_ptr_ s' = read_ptr_ s /\ frac_ s' = frac_ s /\
    length_ s <= length_ s' /\ (length_ s <= max_size -> length_ s' <= max_size) /\
    (forall (j : nat) (v : T),
       vs !! j = Some v -> Z.of_nat (length vs) - Z.of_nat j <= max_size ->
       line_ s' !! Z.to_nat ((write_ptr_ s + Z.of_nat j) mod max_size) = Some v) /\
    (forall i : nat,
       (forall j : nat, (j < length vs)%nat ->
                        Z.to_nat ((write_ptr_ s + Z.of_nat j) mod max_size) <> i) ->
       line_ s' !! i = line_ s !! i).
Proof.
  induction vs as [|v vs IH]; intros s Hs Hw.
  - exists s. cbn [write_all length].
    rewrite Z.add_0_r, Z.mod_small by lia.
    split; [reflexivity |]. split; [exact Hs |].
    repeat (split; [reflexivity || lia || (intros; lia) |]).
    split; [intros j x Hx; discriminate | reflexivity].
  - pose proof (Write_ok max_size max_size_fits s v Hs Hw) as E.
    destruct (Write_length max_size max_size_fits s v _ E) as (_ & Hl1 & Hl2).
    cbn zeta in E, Hl1, Hl2.
    set (s1 := mkLoopBuffer (frac_ s) ((write_ptr_ s + 1) mod max_size) (read_ptr_ s)
                 (if (write_ptr_ s + 1) mod max_size >=? length_ s
                  then (write_ptr_ s + 1) mod max_size + 1 else length_ s)
                 (<[Z.to_nat (write_ptr_ s) := v]> (line_ s))) in *.
    assert (Hs1 : sized max_size s1)
      by (unfold sized in *; cbn; now rewrite length_insert).
    assert (Hw1 : 0 <= write_ptr_ s1 < max_size)
      by (cbn; apply Z.mod_pos_bound; lia).
    destruct (IH s1 Hs1 Hw1)
      as (s' & E' & Hs' & Hwp & Hrp & Hfr & Hm1 & Hm2 & Hkept & Hold).
    exists s'. cbn [write_all]. rewrite E. cbn [bind].
    split; [exact E' |]. split; [exact Hs' |].
    split; [rewrite Hwp; cbn [write_ptr_ length]; apply ring_step_succ |].
    split; [exact Hrp |]. split; [exact Hfr |].
    split; [lia |]. split; [intros Hle; apply Hm2, Hl2, Hle |].
    cbn [write_ptr_ s1] in Hkept, Hold.
    split.
    + intros [|j] x Hx Hn; cbn [length] in Hn.
      * injection Hx as ->.
        rewrite Z.add_0_r, Z.mod_small by lia.
        rewrite Hold.
        -- cbn. apply list_lookup_insert_eq. unfold sized in Hs. lia.
        -- intros j Hj Ej. cbn [write_ptr_] in Ej. rewrite ring_step_succ in Ej.
           apply (ring_step_ne (write_ptr_ s) (Z.of_nat (S j))); [lia | lia |].
           pose proof (Z.mod_pos_bound (write_ptr_ s + Z.of_nat (S j)) max_size
                         ltac:(lia)).
           lia.
      * cbn in Hx. rewrite <- ring_step_succ. apply Hkept; [exact Hx | lia].
    + intros i Hi.
      rewrite Hold.
      * cbn. apply list_lookup_insert_ne.
        specialize (Hi 0%nat ltac:(cbn; lia)).
        rewrite Z.add_0_r, Z.mod_small in Hi by lia. exact Hi.
      * intros j Hj. cbn [write_ptr_]. rewrite ring_step_succ.
        apply Hi. cbn. lia.
Qed.

End Ring.

(** X3. The array is a ring under [Write]: from any object with the
    write cursor [w] inside the array, writing [n] samples succeeds and
    leaves the cursor at [(w + n) % max_size]; each of the last
    [max_size] samples written sits at index [(w + j) % max_size] ([j]
    its position in the sequence), older ones having been overwritten;
    slots the cursor did not pass are unchanged, and so are [read_ptr_]
    and [frac_]. *)
Theorem writes_fill_ring {TG : Target} {T : Type} {SM : Sample T}
    (max_size : Z) (s : LoopBuffer T) (samples : list T) :
  1 <= max_size < SIZE_MOD -> sized max_size s -> 0 <= write_ptr_ s < max_size ->
  exists s',
    write_all max_size s samples = Ok s' /\
    write_ptr_ s' = (write_ptr_ s + Z.of_nat (length samples)) mod max_size /\
    read_ptr_ s' = read_ptr_ s /\ frac_ s' = frac_ s /\
    (forall (j : nat) (v : T),
       samples !! j = Some v ->
       Z.of_nat (length samples) - Z.of_nat j <= max_size ->
       line_ s' !! Z.to_nat ((write_ptr_ s + Z.of_nat j) mod max_size) = Some v) /\
    (forall i : nat,
       (forall j : nat, (j < length samples)%nat ->
                        Z.to_nat ((write_ptr_ s + Z.of_nat j) mod max_size) <> i) ->
       line_ s' !! i = line_ s !! i).
Proof.
  intros Hfit Hs Hw.
  destruct (write_all_ring max_size Hfit samples s Hs Hw)
    as (s' & E & _ & Hwp & Hrp & Hfr & _ & _ & Hkept & Hold).
  exists s'. auto 10.
Qed.

Lemma writes_fill_ring_witness :
  exists s',
    write_all (TG := ILP32) 4 saturated4 [f10; f20; f30; f40; f50] = Ok s' /\
    write_ptr_ s' = (write_ptr_ saturated4 + Z.of_nat 5) mod 4 /\
    read_ptr_ s' = read_ptr_ saturated4 /\ frac_ s' = frac_ saturated4 /\
    (forall (j : nat) (v : float),
       [f10; f20; f30; f40; f50] !! j = Some v ->
       Z.of_nat 5 - Z.of_nat j <= 4 ->
       line_ s' !! Z.to_nat ((write_ptr_ saturated4 + Z.of_nat j) mod 4) = Some v) /\
    (forall i : nat,
       (forall j : nat, (j < 5)%nat ->
                        Z.to_nat ((write_ptr_ saturated4 + Z.of_nat j) mod 4) <> i) ->
       line_ s' !! i = line_ saturated4 !! i).
Proof.
  apply (writes_fill_ring (TG := ILP32) 4 saturated4 [f10; f20; f30; f40; f50]).
  - vm_compute. split; [discriminate | reflexivity].
  - reflexivity.
  - vm_compute. split; [discriminate | reflexivity].
Defined.

Section Saturation.

Context {TG : Target}.
Context {T : Type} {SM : Sample T}.
Variable max_size : Z.
Hypothesis max_size_fits : 1 <= max_size < SIZE_MOD.

Implicit Type s : LoopBuffer T.

Lemma write_all_app (a b : list T) : forall s,
  write_all max_size s (a ++ b)
  = let* s1 := write_all max_size s a in write_all max_size s1 b.
Proof.
  induction a as [|v a IH]; intros s; [reflexivity |].
  cbn [write_all app]. destruct (Write max_size s v) as [s1|]; [| reflexivity].
  cbn [bind]. apply IH.
Qed.

Lemma write_all_length s vs :
  sized max_size s -> 0 <= write_ptr_ s < max_size ->
  length_ s = write_ptr_ s + 1 ->
  exists s',
    write_all max_size s vs = Ok s' /\
    length_ s' = Z.min (write_ptr_ s + Z.of_nat (length vs) + 1) max_size.
Proof.
  intros Hs Hw Hl.
  destruct (Z.lt_ge_cases (write_ptr_ s + Z.of_nat (length vs)) max_size) as [Hlt | Hge].
  - rewrite (write_all_grow max_size max_size_fits vs s) by (try assumption; lia).
    eexists. split; [reflexivity |]. cbn. lia.
  - set (k := Z.to_nat (max_size - 1 - write_ptr_ s)).
    rewrite <- (take_drop k vs), write_all_app.
    assert (Hk : length (take k vs) = k) by (rewrite length_take; lia).
    rewrite (write_all_grow max_size max_size_fits (take k vs) s)
      by (try assumption; lia).
    cbn [bind].
    match goal with
    | |- exists s', write_all _ ?s1 _ = _ /\ _ =>
        destruct (write_all_ring max_size max_size_fits (drop k vs) s1)
          as (s' & E & _ & _ & _ & _ & Hm1 & Hm2 & _)
    end.
    + unfold sized in *. cbn.
      rewrite !length_app, length_take, length_drop. lia.
    + cbn. lia.
    + exists s'. split; [exact E |]. cbn in Hm1, Hm2.
      rewrite take_drop. lia.
Qed.

End Saturation.

(** X4. Record until full: while the length is one ahead of the write
    cursor (as [Init] and [Reset] leave it), [n] writes leave the
    length at [min(write_ptr_ + n + 1, max_size)]: it grows by one per
    write and locks at [max_size] once the cursor has reached the last
    slot, whatever is written afterwards. *)
Theorem record_until_full {TG : Target} {T : Type} {SM : Sample T}
    (max_size : Z) (s : LoopBuffer T) (samples : list T) :
  1 <= max_size < SIZE_MOD -> sized max_size s ->
  0 <= write_ptr_ s < max_size -> length_ s = write_ptr_ s + 1 ->
  exists s',
    write_all max_size s samples = Ok s' /\
    length_ s' = Z.min (write_ptr_ s + Z.of_nat (length samples) + 1) max_size.
Proof. intros Hfit. now apply write_all_length. Qed.

Lemma record_until_full_witness :
  exists s',
    write_all (TG := ILP32) 4 (Reset saturated4) [f10; f20; f30; f40; f50; f10] = Ok s' /\
    length_ s' = Z.min (write_ptr_ (Reset saturated4) + Z.of_nat 6 + 1) 4.
Proof.
  apply (record_until_full (TG := ILP32) 4 (Reset saturated4)
           [f10; f20; f30; f40; f50; f10]).
  - vm_compute. split; [discriminate | reflexivity].
  - reflexivity.
  - vm_compute. split; [discriminate | reflexivity].
  - reflexivity.
Defined.

(** ** Read and ReadOnce, call after call *)

Section Streams.

Context {TG : Target}.
Context {T : Type} {SM : Sample T}.
Variable max_size : Z.
Hypothesis max_size_fits : 1 <= max_size < SIZE_MOD.

Implicit Type s : LoopBuffer T.

Lemma repeat_read_app (read : LoopBuffer T -> Outcome (T * LoopBuffer T)) (n m : nat) :
  forall s,
    repeat_read read (n + m) s
    = let* (o1, s1) := repeat_read read n s in
      let* (o2, s2) := repeat_read read m s1 in
      Ok (o1 ++ o2, s2).
Proof.
  induction n as [|n IH]; intros s.
  - cbn. destruct (repeat_read read m s) as [[o q]|]; reflexivity.
  - cbn [repeat_read Nat.add]. destruct (read s) as [[a s1]|]; [| reflexivity].
    cbn [bind]. rewrite IH.
    destruct (repeat_read read n s1) as [[o1 q1]|]; [| reflexivity]. cbn [bind].
    destruct (repeat_read read m q1) as [[o2 q2]|]; reflexivity.
Qed.

(** On the last sample of the loop plain [Read] wraps the cursor to 0. *)
Lemma Read_wraps s v :
  1 <= length_ s <= max_size -> read_ptr_ s = length_ s - 1 ->
  line_ s !! Z.to_nat (read_ptr_ s) = Some v ->
  Read max_size s = Ok (v, with_read_ptr s 0).
Proof.
  intros Hl Hr Hv. unfold Read.
  rewrite size_rem_ok by lia. cbn [bind].
  rewrite Z.mod_small by lia.
  rewrite (line_get_lookup _ _ _ v) by (try assumption; lia). cbn [bind].
  rewrite size_rem_ok by lia. cbn [bind].
  rewrite size_wrap_small by (unfold is_size; lia).
  replace (read_ptr_ s + 1) with (length_ s) by lia.
  now rewrite Z.mod_same by lia.
Qed.

Lemma loop_rotation (l : list T) (v : T) (L r : nat) :
  (r < L)%nat -> (L <= length l)%nat -> l !! (L - 1)%nat = Some v ->
  take (L - 1 - r) (drop r l) ++ [v] = drop r (take L l).
Proof.
  intros Hr HL Hv.
  replace L with (r + S (L - 1 - r))%nat at 2 by lia.
  rewrite <- take_drop_commute.
  rewrite (take_S_r _ _ v); [reflexivity |].
  rewrite lookup_drop. rewrite <- Hv. f_equal. lia.
Qed.

End Streams.

(** X5. Plain [Read] loops for ever with period [length_]: from a
    cursor inside the loop, [length_] calls return the loop from the
    cursor to its end followed by the loop from its start to the cursor,
    and leave the object exactly as it was. *)
Theorem Read_loops {TG : Target} {T : Type} {SM : Sample T}
    (max_size : Z) (s : LoopBuffer T) :
  1 <= max_size < SIZE_MOD -> sized max_size s ->
  1 <= length_ s <= max_size -> 0 <= read_ptr_ s < length_ s ->
  repeat_read (Read max_size) (Z.to_nat (length_ s)) s
  = Ok (drop (Z.to_nat (read_ptr_ s)) (loop s) ++ take (Z.to_nat (read_ptr_ s)) (loop s),
        s).
Proof.
  intros Hfit Hs Hl Hr.
  set (r := Z.to_nat (read_ptr_ s)). set (L := Z.to_nat (length_ s)).
  destruct (line_get_in max_size s (length_ s - 1) Hs ltac:(lia)) as [v Hv].
  replace L with ((L - 1 - r) + (1 + r))%nat by lia.
  rewrite repeat_read_app.
  rewrite (repeat_Read_inside max_size Hfit (L - 1 - r) s) by (try assumption; lia).
  cbn [bind].
  set (s1 := with_read_ptr s (read_ptr_ s + Z.of_nat (L - 1 - r))).
  assert (Hr1 : read_ptr_ s1 = length_ s - 1) by (cbn; lia).
  cbn [repeat_read Nat.add].
  rewrite (Read_wraps max_size Hfit s1 v);
    [| exact Hl | exact Hr1 | rewrite Hr1; exact Hv].
  cbn [bind].
  rewrite (repeat_Read_inside max_size Hfit r (with_read_ptr s1 0))
    by (try assumption; cbn; lia).
  cbn [bind]. cbn [with_read_ptr read_ptr_ line_ frac_ write_ptr_ length_].
  change (Z.to_nat 0) with 0%nat. rewrite drop_0. f_equal. f_equal.
  - unfold loop. fold L.
    rewrite <- (loop_rotation (line_ s) v L r);
      [| lia | unfold sized in Hs; lia
       | rewrite <- Hv; f_equal; lia].
    rewrite <- app_assoc. cbn [app]. f_equal. f_equal.
    rewrite take_take. f_equal. lia.
  - subst s1 r L. destruct s as [f w rp len ln].
    unfold with_read_ptr. cbn [read_ptr_ line_ frac_ write_ptr_ length_] in *.
    f_equal. lia.
Qed.

Lemma Read_loops_witness :
  repeat_read (Read (TG := ILP32) 4) (Z.to_nat (length_ (SetReadPosition (TG := ILP32) saturated4 2)))
    (SetReadPosition (TG := ILP32) saturated4 2)
  = Ok (drop (Z.to_nat (read_ptr_ (SetReadPosition (TG := ILP32) saturated4 2)))
          (loop (SetReadPosition (TG := ILP32) saturated4 2))
        ++ take (Z.to_nat (read_ptr_ (SetReadPosition (TG := ILP32) saturated4 2)))
             (loop (SetReadPosition (TG := ILP32) saturated4 2)),
        SetReadPosition (TG := ILP32) saturated4 2).
Proof.
  apply (Read_loops (TG := ILP32) 4 (SetReadPosition (TG := ILP32) saturated4 2)).
  - vm_compute. split; [discriminate | reflexivity].
  - reflexivity.
  - vm_compute. split; discriminate.
  - vm_compute. split; [discriminate | reflexivity].
Defined.

(** X6. Plain [Read] from any cursor, inside the loop or not: on an
    empty loop ([length_ == 0], as [SetLength(0)] leaves it) the call
    computes a remainder by zero; on a loop of at least one sample
    inside the array it succeeds, returns the sample at
    [read_ptr_ % length_], which is a sample of the loop, brings the
    cursor inside the loop, and changes nothing else. *)
Theorem Read_any_cursor {TG : Target} {T : Type} {SM : Sample T}
    (max_size : Z) (s : LoopBuffer T) :
  sized max_size s -> 0 <= length_ s <= max_size ->
  (length_ s = 0 -> Read max_size s = UB RemainderByZero) /\
  (1 <= length_ s ->
   exists (v : T) (r : Z),
     Read max_size s = Ok (v, with_read_ptr s r) /\
     line_ s !! Z.to_nat (read_ptr_ s mod length_ s) = Some v /\ v ∈ loop s /\
     r = size_wrap (read_ptr_ s + 1) mod length_ s /\ 0 <= r < length_ s).
Proof.
  intros Hs Hl. split.
  - intros E. unfold Read. now rewrite E.
  - intros H1. destruct (Read_ok max_size s Hs ltac:(lia)) as (v & Hv & E).
    eexists v, _. split; [exact E |]. split; [exact Hv |].
    split; [apply (Read_in_loop max_size s v _ H1 E) |].
    split; [reflexivity | apply Z.mod_pos_bound; lia].
Qed.

Lemma Read_any_cursor_witness :
  (length_ (SetReadPosition (TG := ILP32) saturated4 9) = 0 ->
   Read (TG := ILP32) 4 (SetReadPosition (TG := ILP32) saturated4 9) = UB RemainderByZero) /\
  (1 <= length_ (SetReadPosition (TG := ILP32) saturated4 9) ->
   exists (v : float) (r : Z),
     Read (TG := ILP32) 4 (SetReadPosition (TG := ILP32) saturated4 9)
     = Ok (v, with_read_ptr (SetReadPosition (TG := ILP32) saturated4 9) r) /\
     line_ (SetReadPosition (TG := ILP32) saturated4 9)
       !! Z.to_nat (read_ptr_ (SetReadPosition (TG := ILP32) saturated4 9)
                    mod length_ (SetReadPosition (TG := ILP32) saturated4 9)) = Some v /\
     v ∈ loop (SetReadPosition (TG := ILP32) saturated4 9) /\
     r = size_wrap (TG := ILP32)
           (read_ptr_ (SetReadPosition (TG := ILP32) saturated4 9) + 1)
         mod length_ (SetReadPosition (TG := ILP32) saturated4 9) /\
     0 <= r < length_ (SetReadPosition (TG := ILP32) saturated4 9)).
Proof.
  apply (Read_any_cursor (TG := ILP32) 4 (SetReadPosition (TG := ILP32) saturated4 9)).
  - reflexivity.
  - vm_compute. split; discriminate.
Defined.

(** *** ReadOnce *)

Section Once.

Context {TG : Target}.
Context {T : Type} {SM : Sample T}.
Variable max_size : Z.
Hypothesis max_size_fits : 1 <= max_size < SIZE_MOD.

Implicit Type s : LoopBuffer T.

Lemma repeat_ReadOnce_beyond n s :
  1 <= length_ s <= max_size -> length_ s <= read_ptr_ s ->
  repeat_read (ReadOnce max_size) n s = Ok (replicate n (sample_of_int 0), s).
Proof.
  intros Hl Hr. induction n as [|n IH]; [reflexivity |].
  cbn [repeat_read]. rewrite (ReadOnce_beyond max_size max_size_fits s) by assumption.
  cbn [bind]. now rewrite IH.
Qed.

(** With [length_ == 0] the bound [length_ - 1] of the advance wraps to
    the largest [size_t]: silence, and the cursor moves on. *)
Lemma ReadOnce_empty s :
  length_ s = 0 -> 0 <= read_ptr_ s -> read_ptr_ s + 1 < SIZE_MOD ->
  ReadOnce max_size s = Ok (sample_of_int 0, with_read_ptr s (read_ptr_ s + 1)).
Proof.
  intros Hl Hr Hb. unfold ReadOnce. rewrite Hl.
  destruct (Z.ltb_spec (read_ptr_ s) 0); [lia |]. cbn [bind].
  assert (Hw : size_wrap (0 - 1) = SIZE_MOD - 1)
    by (unfold size_wrap; symmetry; apply (Z.mod_unique (0 - 1) SIZE_MOD (-1)); lia).
  rewrite Hw.
  destruct (Z.ltb_spec (read_ptr_ s) (SIZE_MOD - 1)); [| lia].
  now rewrite size_wrap_small by (unfold is_size; lia).
Qed.

Lemma repeat_ReadOnce_empty n : forall s,
  length_ s = 0 -> 0 <= read_ptr_ s -> read_ptr_ s + Z.of_nat n < SIZE_MOD ->
  repeat_read (ReadOnce max_size) n s
  = Ok (replicate n (sample_of_int 0), with_read_ptr s (read_ptr_ s + Z.of_nat n)).
Proof.
  induction n as [|n IH]; intros s Hl Hr Hb.
  - cbn. rewrite Z.add_0_r. now destruct s.
  - cbn [repeat_read]. rewrite ReadOnce_empty by (try assumption; lia).
    cbn [bind]. rewrite IH by (cbn; lia). cbn [bind].
    unfold with_read_ptr. cbn. do 3 f_equal. lia.
Qed.

End Once.

(** X7. [ReadOnce] plays the loop once and then holds its last sample:
    from a cursor [r] inside a loop of length [L], [L - r + m] calls
    return the samples from the cursor to the end of the loop, in order,
    followed by [m] copies of the last one; the cursor ends, and stays,
    at [L - 1]. *)
Theorem ReadOnce_plays_once {TG : Target} {T : Type} {SM : Sample T}
    (max_size : Z) (s : LoopBuffer T) (m : nat) :
  1 <= max_size < SIZE_MOD -> sized max_size s ->
  1 <= length_ s <= max_size -> 0 <= read_ptr_ s < length_ s ->
  exists last,
    line_ s !! Z.to_nat (length_ s - 1) = Some last /\
    repeat_read (ReadOnce max_size) (Z.to_nat (length_ s - read_ptr_ s) + m) s
    = Ok (drop (Z.to_nat (read_ptr_ s)) (loop s) ++ replicate m last,
          with_read_ptr s (length_ s - 1)).
Proof.
  intros Hfit Hs Hl Hr.
  destruct (line_get_in max_size s (length_ s - 1) Hs ltac:(lia)) as [v Hv].
  exists v. split; [exact Hv |].
  set (r := Z.to_nat (read_ptr_ s)). set (L := Z.to_nat (length_ s)).
  replace (Z.to_nat (length_ s - read_ptr_ s) + m)%nat
    with ((L - 1 - r) + S m)%nat by lia.
  rewrite repeat_read_app.
  rewrite (repeat_ReadOnce_inside max_size Hfit (L - 1 - r) s) by (try assumption; lia).
  cbn [bind].
  replace (read_ptr_ s + Z.of_nat (L - 1 - r)) with (length_ s - 1) by lia.
  rewrite (repeat_ReadOnce_at_end max_size Hfit (S m) (with_read_ptr s (length_ s - 1)) v);
    [| exact Hl | reflexivity | exact Hv].
  cbn [bind replicate]. f_equal. f_equal.
  unfold loop. fold L.
  rewrite <- (loop_rotation (line_ s) v L r);
    [| lia | unfold sized in Hs; lia | rewrite <- Hv; f_equal; lia].
  now rewrite <- app_assoc.
Qed.

Lemma ReadOnce_plays_once_witness :
  exists last,
    line_ saturated4 !! Z.to_nat (length_ saturated4 - 1) = Some last /\
    repeat_read (ReadOnce (TG := ILP32) 4)
      (Z.to_nat (length_ saturated4 - read_ptr_ saturated4) + 3) saturated4
    = Ok (drop (Z.to_nat (read_ptr_ saturated4)) (loop saturated4) ++ replicate 3 last,
          with_read_ptr saturated4 (length_ saturated4 - 1)).
Proof.
  apply (ReadOnce_plays_once (TG := ILP32) 4 saturated4 3).
  - vm_compute. split; [discriminate | reflexivity].
  - reflexivity.
  - vm_compute. split; discriminate.
  - vm_compute. split; [discriminate | reflexivity].
Defined.

(** X8. [SetReadPosition] followed by [ReadOnce]: a position at or
    beyond the length is stored as given, and every [ReadOnce] then
    returns 0 and leaves the cursor there; a position inside the loop
    is replaced by [length_ - 1], so that every [ReadOnce] returns the
    last sample of the loop, whatever position was asked for. *)
Theorem SetReadPosition_then_ReadOnce {TG : Target} {T : Type} {SM : Sample T}
    (max_size : Z) (s : LoopBuffer T) (position : Z) (n : nat) :
  1 <= max_size < SIZE_MOD -> sized max_size s ->
  1 <= length_ s <= max_size -> is_size position ->
  (length_ s <= position ->
   read_ptr_ (SetReadPosition s position) = position /\
   repeat_read (ReadOnce max_size) n (SetReadPosition s position)
   = Ok (replicate n (sample_of_int 0), SetReadPosition s position)) /\
  (position < length_ s ->
   exists last,
     line_ s !! Z.to_nat (length_ s - 1) = Some last /\
     repeat_read (ReadOnce max_size) n (SetReadPosition s position)
     = Ok (replicate n last, SetReadPosition s position)).
Proof.
  intros Hfit Hs Hl Hp. unfold is_size in Hp.
  assert (Hrp : read_ptr_ (SetReadPosition s position)
                = if position >=? length_ s then position else length_ s - 1).
  { unfold SetReadPosition. cbn. rewrite Z.geb_leb.
    destruct (Z.leb_spec (length_ s) position).
    - destruct (Z.ltb_spec position 0); [lia | reflexivity].
    - rewrite size_wrap_small by (unfold is_size; lia).
      destruct (Z.ltb_spec (length_ s - 1) 0); [lia | reflexivity]. }
  rewrite Z.geb_leb in Hrp.
  split; intros Hc.
  - destruct (Z.leb_spec (length_ s) position); [| lia].
    split; [exact Hrp |].
    apply (repeat_ReadOnce_beyond max_size Hfit); [exact Hl | rewrite Hrp; exact Hc].
  - destruct (Z.leb_spec (length_ s) position); [lia |].
    destruct (line_get_in max_size s (length_ s - 1) Hs ltac:(lia)) as [v Hv].
    exists v. split; [exact Hv |].
    apply (repeat_ReadOnce_at_end max_size Hfit); [exact Hl | exact Hrp |].
    rewrite Hrp. exact Hv.
Qed.

Lemma SetReadPosition_then_ReadOnce_witness :
  (length_ saturated4 <= 2 ->
   read_ptr_ (SetReadPosition (TG := ILP32) saturated4 2) = 2 /\
   repeat_read (ReadOnce (TG := ILP32) 4) 3 (SetReadPosition (TG := ILP32) saturated4 2)
   = Ok (replicate 3 (sample_of_int 0), SetReadPosition (TG := ILP32) saturated4 2)) /\
  (2 < length_ saturated4 ->
   exists last,
     line_ saturated4 !! Z.to_nat (length_ saturated4 - 1) = Some last /\
     repeat_read (ReadOnce (TG := ILP32) 4) 3 (SetReadPosition (TG := ILP32) saturated4 2)
     = Ok (replicate 3 last, SetReadPosition (TG := ILP32) saturated4 2)).
Proof.
  apply (SetReadPosition_then_ReadOnce (TG := ILP32) 4 saturated4 2 3).
  - vm_compute. split; [discriminate | reflexivity].
  - reflexivity.
  - vm_compute. split; discriminate.
  - vm_compute. split; [discriminate | reflexivity].
Defined.

(** X9. [ReadOnce] on an empty loop ([length_ == 0]): no remainder is
    computed, every call returns 0, but the cursor is not held: the
    bound [length_ - 1] wraps to the largest [size_t], and the cursor
    moves up by one per call. *)
Theorem ReadOnce_on_empty_loop {TG : Target} {T : Type} {SM : Sample T}
    (max_size : Z) (s : LoopBuffer T) (n : nat) :
  length_ s = 0 -> 0 <= read_ptr_ s -> read_ptr_ s + Z.of_nat n < SIZE_MOD ->
  repeat_read (ReadOnce max_size) n s
  = Ok (replicate n (sample_of_int 0), with_read_ptr s (read_ptr_ s + Z.of_nat n)).
Proof. apply repeat_ReadOnce_empty. Qed.

Lemma ReadOnce_on_empty_loop_witness :
  repeat_read (ReadOnce (TG := ILP32) 4) 3 (SetLength 4 saturated4 0)
  = Ok (replicate 3 (sample_of_int 0),
        with_read_ptr (SetLength 4 saturated4 0)
          (read_ptr_ (SetLength 4 saturated4 0) + Z.of_nat 3)).
Proof.
  apply (ReadOnce_on_empty_loop (TG := ILP32) 4 (SetLength 4 saturated4 0) 3).
  - reflexivity.
  - vm_compute. discriminate.
  - vm_compute. reflexivity.
Defined.

(** ** The windowed reads *)

Section Windows.

Context {TG : Target}.
Context {T : Type} {SM : Sample T}.
Variable max_size : Z.

Implicit Type s : LoopBuffer T.

(** A read member that, at cursor [r] inside a window of [W] samples,
    returns the sample at index [idx r] and moves the cursor to
    [(r + 1) % W], changing nothing else: [n] calls return the samples
    at [idx ((r + i) % W)], [i = 0 .. n - 1]. *)
Lemma repeat_read_walk (read : LoopBuffer T -> Outcome (T * LoopBuffer T))
    (s : LoopBuffer T) (W : Z) (idx : Z -> Z) :
  0 < W ->
  (forall r, 0 <= r < W ->
     exists v, line_ s !! Z.to_nat (idx r) = Some v /\
               read (with_read_ptr s r) = Ok (v, with_read_ptr s ((r + 1) mod W))) ->
  forall (n : nat) (r : Z), 0 <= r < W ->
    exists out,
      repeat_read read n (with_read_ptr s r)
      = Ok (out, with_read_ptr s ((r + Z.of_nat n) mod W)) /\
      length out = n /\
      (forall i : nat, (i < n)%nat ->
         out !! i = line_ s !! Z.to_nat (idx ((r + Z.of_nat i) mod W))).
Proof.
  intros HW Hread. induction n as [|n IH]; intros r Hr.
  - exists []. rewrite Z.add_0_r, Z.mod_small by lia.
    split; [reflexivity |]. split; [reflexivity |]. intros i Hi. lia.
  - destruct (Hread r Hr) as (v & Hv & E).
    destruct (IH ((r + 1) mod W) ltac:(apply Z.mod_pos_bound; lia))
      as (out & Eo & Hlen & Hout).
    exists (v :: out). cbn [repeat_read]. rewrite E. cbn [bind].
    rewrite Eo. cbn [bind].
    split; [rewrite Z.add_mod_idemp_l by lia;
            replace (r + 1 + Z.of_nat n) with (r + Z.of_nat (S n)) by lia; reflexivity |].
    split; [cbn; lia |].
    intros [|i] Hi.
    + cbn. rewrite Z.add_0_r, Z.mod_small by lia. now rewrite Hv.
    + change ((v :: out) !! S i) with (out !! i).
      rewrite Hout by lia. rewrite Z.add_mod_idemp_l by lia.
      replace (r + 1 + Z.of_nat i) with (r + Z.of_nat (S i)) by lia. reflexivity.
Qed.

Lemma with_read_ptr_id s : with_read_ptr s (read_ptr_ s) = s.
Proof. now destruct s. Qed.

(** One [Read(clipEnd, minClip)] with a window of [W] samples. *)
Lemma Read_2_step s clipEnd minClip e W :
  sized max_size s ->
  F32.to_size (F32.mul clipEnd (F32.of_Z (length_ s))) = Ok e ->
  W = Z.max e minClip -> 1 <= W <= max_size ->
  forall r, 0 <= r < W -> W < SIZE_MOD ->
    exists v, line_ s !! Z.to_nat r = Some v /\
              Read_2 max_size (with_read_ptr s r) clipEnd minClip
              = Ok (v, with_read_ptr s ((r + 1) mod W)).
Proof.
  intros Hs He HW Hb r Hr Hfit.
  destruct (line_get_in max_size s r Hs ltac:(lia)) as [v Hv].
  exists v. split; [exact Hv |].
  unfold Read_2. cbn [with_read_ptr length_ read_ptr_]. rewrite He. cbn [bind].
  replace (if e <? minClip then minClip else e) with W
    by (destruct (Z.ltb_spec e minClip); lia).
  rewrite size_rem_ok by lia. cbn [bind].
  rewrite Z.mod_small by lia.
  unfold line_get. change (line_ (with_read_ptr s r)) with (line_ s).
  rewrite in_bounds_true by lia. rewrite Hv. cbn [bind].
  rewrite size_rem_ok by lia. cbn [bind].
  now rewrite size_wrap_small by (unfold is_size; lia).
Qed.

(** One [Read(clipStart, clipEnd, minClip)]: the fetch is taken modulo
    the length, the advance modulo the window. *)
Lemma Read_3_step s clipStart clipEnd minClip e o W :
  sized max_size s -> 1 <= length_ s <= max_size ->
  F32.to_size (F32.mul clipEnd (F32.of_Z (length_ s))) = Ok e ->
  F32.to_size (F32.mul clipStart (F32.of_Z (length_ s))) = Ok o ->
  W = Z.max e minClip -> 1 <= W < SIZE_MOD -> 0 <= o -> W + o <= SIZE_MOD ->
  forall r, 0 <= r < W ->
    exists v, line_ s !! Z.to_nat ((r + o) mod length_ s) = Some v /\
              Read_3 max_size (with_read_ptr s r) clipStart clipEnd minClip
              = Ok (v, with_read_ptr s ((r + 1) mod W)).
Proof.
  intros Hs Hl He Ho HW Hb Ho0 Hfit r Hr.
  pose proof (Z.mod_pos_bound (r + o) (length_ s) ltac:(lia)) as Hi.
  destruct (line_get_in max_size s ((r + o) mod length_ s) Hs ltac:(lia)) as [v Hv].
  exists v. split; [exact Hv |].
  unfold Read_3. cbn [with_read_ptr length_ read_ptr_]. rewrite He, Ho. cbn [bind].
  replace (if e <? minClip then minClip else e) with W
    by (destruct (Z.ltb_spec e minClip); lia).
  rewrite size_wrap_small by (unfold is_size; lia).
  rewrite size_rem_ok by lia. cbn [bind].
  unfold line_get. change (line_ (with_read_ptr s r)) with (line_ s).
  rewrite in_bounds_true by lia. rewrite Hv. cbn [bind].
  rewrite size_rem_ok by lia. cbn [bind].
  now rewrite size_wrap_small by (unfold is_size; lia).
Qed.

End Windows.

(** X10. [Read(clipEnd, minClip)] loops over a window at the start of
    the array: with [W = max(minClip, (size_t)(clipEnd * length_))]
    between 1 and [max_size], [n] calls from a cursor [r] inside the
    window return the samples at [(r + i) % W], [i = 0 .. n - 1], and
    leave the cursor at [(r + n) % W]; nothing else changes. [W] is not
    bounded by the length: a window longer than the loop plays samples
    beyond it. *)
Theorem Read_2_loops_window {TG : Target} {T : Type} {SM : Sample T}
    (max_size : Z) (s : LoopBuffer T) (clipEnd : float) (minClip e W : Z) (n : nat) :
  max_size < SIZE_MOD -> sized max_size s ->
  F32.to_size (F32.mul clipEnd (F32.of_Z (length_ s))) = Ok e ->
  W = Z.max e minClip -> 1 <= W <= max_size ->
  0 <= read_ptr_ s < W ->
  exists out,
    repeat_read (fun s0 => Read_2 max_size s0 clipEnd minClip) n s
    = Ok (out, with_read_ptr s ((read_ptr_ s + Z.of_nat n) mod W)) /\
    length out = n /\
    (forall i : nat, (i < n)%nat ->
       out !! i = line_ s !! Z.to_nat ((read_ptr_ s + Z.of_nat i) mod W)).
Proof.
  intros Hfit Hs He HW Hb Hr.
  destruct (repeat_read_walk (fun s0 => Read_2 max_size s0 clipEnd minClip) s W
              (fun r => r) ltac:(lia)
              (fun r Hr' => Read_2_step max_size s clipEnd minClip e W Hs He HW Hb r Hr'
                              ltac:(lia))
              n (read_ptr_ s) Hr) as (out & E & Hlen & Hout).
  exists out. rewrite with_read_ptr_id in E. auto.
Qed.

Lemma Read_2_loops_window_witness :
  exists out,
    repeat_read (fun s0 => Read_2 (TG := ILP32) 4 s0 half 1) 5 saturated4
    = Ok (out, with_read_ptr saturated4 ((read_ptr_ saturated4 + Z.of_nat 5) mod 2)) /\
    length out = 5%nat /\
    (forall i : nat, (i < 5)%nat ->
       out !! i = line_ saturated4 !! Z.to_nat ((read_ptr_ saturated4 + Z.of_nat i) mod 2)).
Proof.
  apply (Read_2_loops_window (TG := ILP32) 4 saturated4 half 1 2 2 5).
  - vm_compute. reflexivity.
  - reflexivity.
  - vm_compute. reflexivity.
  - reflexivity.
  - lia.
  - vm_compute. split; [discriminate | reflexivity].
Defined.

(** X11. [Read(clipStart, clipEnd, minClip)] advances the cursor
    modulo the window [W = max(minClip, (size_t)(clipEnd * length_))]
    but fetches at [(read_ptr_ + offset) % length_], with
    [offset = (size_t)(clipStart * length_)]: the fetch stays inside the
    loop whatever the window and the offset are, so the call is defined
    on every loop of at least one sample inside the array, even with a
    window longer than the loop. [n] calls return the samples at
    [((r + i) % W + offset) % length_]. *)
Theorem Read_3_fetches_in_loop {TG : Target} {T : Type} {SM : Sample T}
    (max_size : Z) (s : LoopBuffer T) (clipStart clipEnd : float)
    (minClip e o W : Z) (n : nat) :
  sized max_size s -> 1 <= length_ s <= max_size ->
  F32.to_size (F32.mul clipEnd (F32.of_Z (length_ s))) = Ok e ->
  F32.to_size (F32.mul clipStart (F32.of_Z (length_ s))) = Ok o ->
  W = Z.max e minClip -> 1 <= W < SIZE_MOD -> W + o <= SIZE_MOD ->
  0 <= read_ptr_ s < W ->
  exists out,
    repeat_read (fun s0 => Read_3 max_size s0 clipStart clipEnd minClip) n s
    = Ok (out, with_read_ptr s ((read_ptr_ s + Z.of_nat n) mod W)) /\
    length out = n /\
    (forall i : nat, (i < n)%nat ->
       out !! i = line_ s !! Z.to_nat (((read_ptr_ s + Z.of_nat i) mod W + o)
                                        mod length_ s)) /\
    (forall v, v ∈ out -> v ∈ loop s).
Proof.
  intros Hs Hl He Ho HW Hb Hfit Hr.
  assert (Ho0 : 0 <= o).
  { unfold F32.to_size in Ho. destruct (F32.trunc _) as [z|]; [| discriminate].
    cbn [bind] in Ho. destruct (Z.leb_spec 0 z); [| discriminate].
    destruct (z <? SIZE_MOD); [| discriminate]. cbn in Ho. injection Ho as <-. lia. }
  destruct (repeat_read_walk (fun s0 => Read_3 max_size s0 clipStart clipEnd minClip) s W
              (fun r => (r + o) mod length_ s) ltac:(lia)
              (Read_3_step max_size s clipStart clipEnd minClip e o W
                 Hs Hl He Ho HW Hb Ho0 Hfit)
              n (read_ptr_ s) Hr) as (out & E & Hlen & Hout).
  exists out. rewrite with_read_ptr_id in E.
  split; [exact E |]. split; [exact Hlen |]. split; [exact Hout |].
  intros v Hv. apply list_elem_of_lookup in Hv as [i Hi].
  assert (Hin : (i < n)%nat) by (rewrite <- Hlen; eapply lookup_lt_Some; eauto).
  rewrite (Hout i Hin) in Hi.
  pose proof (Z.mod_pos_bound ((read_ptr_ s + Z.of_nat i) mod W + o) (length_ s)
                ltac:(lia)).
  apply list_elem_of_lookup.
  exists (Z.to_nat (((read_ptr_ s + Z.of_nat i) mod W + o) mod length_ s)).
  unfold loop. rewrite lookup_take_lt by lia. exact Hi.
Qed.

Lemma Read_3_fetches_in_loop_witness :
  exists out,
    repeat_read (fun s0 => Read_3 (TG := ILP32) 4 s0 half two_and_half 1) 6 saturated4
    = Ok (out, with_read_ptr saturated4 ((read_ptr_ saturated4 + Z.of_nat 6) mod 10)) /\
    length out = 6%nat /\
    (forall i : nat, (i < 6)%nat ->
       out !! i = line_ saturated4
                    !! Z.to_nat (((read_ptr_ saturated4 + Z.of_nat i) mod 10 + 2)
                                 mod length_ saturated4)) /\
    (forall v, v ∈ out -> v ∈ loop saturated4).
Proof.
  apply (Read_3_fetches_in_loop (TG := ILP32) 4 saturated4 half two_and_half 1 10 2 10 6).
  - reflexivity.
  - vm_compute. split; discriminate.
  - vm_compute. reflexivity.
  - vm_compute. reflexivity.
  - reflexivity.
  - vm_compute. split; [discriminate | reflexivity].
  - vm_compute. discriminate.
  - vm_compute. split; [discriminate | reflexivity].
Defined.

(** *** The randomised reads *)

Section Randomised.

Context {TG : Target}.
Context {T : Type} {SM : Sample T}.
Variable max_size : Z.

Implicit Type s : LoopBuffer T.

Lemma to_size_is_size x z : F32.to_size x = Ok z -> is_size z.
Proof.
  unfold F32.to_size. destruct (F32.trunc x) as [t|]; [| discriminate]. cbn [bind].
  destruct (Z.leb_spec 0 t); [| discriminate].
  destruct (Z.ltb_spec t SIZE_MOD); [| discriminate].
  cbn. intros [= <-]. unfold is_size. lia.
Qed.

Lemma random_point_is_size s clip r z : random_point s clip r = Ok z -> is_size z.
Proof.
  unfold random_point. destruct (size_rem _ _); [| discriminate]. cbn [bind].
  apply to_size_is_size.
Qed.

Lemma clamp_min_max n minClip len :
  (if (if n <? minClip then minClip else n) >=? len
   then len else (if n <? minClip then minClip else n))
  = Z.min (Z.max n minClip) len.
Proof.
  rewrite Z.geb_leb.
  destruct (Z.ltb_spec n minClip);
    [destruct (Z.leb_spec len minClip) | destruct (Z.leb_spec len n)]; lia.
Qed.

(** What the opening of the two randomised reads leaves in the
    statics: the offset and the value [n] the window is clamped from
    come from the knobs when the random flag is off, from [rand()] when
    it is on and the cursor is at 0, and from the previous call
    otherwise. *)
Lemma choose_window_ok s st cs ce mc rl rs fo r1 r2 st' :
  choose_window s st cs ce mc rl rs fo r1 r2 = Ok st' ->
  exists n,
    newEnd_ st' = Z.min (Z.max n mc) (length_ s) /\
    (rs = false -> F32.to_size (F32.mul cs (F32.of_Z (length_ s))) = Ok (offset_ st')) /\
    (rs = true -> read_ptr_ s = 0 ->
       exists p, random_point s cs r1 = Ok p /\
                 offset_ st' = if fo && (p <? 10) then 10 else p) /\
    (rs = true -> read_ptr_ s <> 0 -> offset_ st' = offset_ st) /\
    (rl = false -> F32.to_size (F32.mul ce (F32.of_Z (length_ s))) = Ok n) /\
    (rl = true -> read_ptr_ s = 0 -> random_point s ce r2 = Ok n) /\
    (rl = true -> read_ptr_ s <> 0 -> n = newEnd_ st).
Proof.
  unfold choose_window, GetReadPosition. intros H.
  destruct (if negb rs then _ else _) as [o|] eqn:Eo; [| discriminate].
  cbn [bind] in H.
  destruct (if negb rl then _ else _) as [n|] eqn:En; [| discriminate].
  cbn [bind] in H. injection H as <-. cbn [newEnd_ offset_].
  exists n. split; [apply clamp_min_max |].
  destruct rs; cbn [negb] in Eo.
  - destruct (Z.eqb_spec (read_ptr_ s) 0) as [E0 | E0].
    + destruct (random_point s cs r1) as [p|] eqn:Ep; [| discriminate].
      cbn [bind] in Eo. injection Eo as <-.
      split; [discriminate |]. split; [intros _ _; now exists p |].
      split; [intros _ Hc; contradiction |].
      destruct rl; cbn [negb] in En.
      * repeat split; try discriminate; try (intros; congruence).
      * repeat split; try discriminate; try (intros; congruence).
    + injection Eo as <-.
      split; [discriminate |]. split; [intros _ Hc; contradiction |].
      split; [reflexivity |].
      destruct rl; cbn [negb] in En.
      * injection En as <-.
        repeat split; try discriminate; try (intros; congruence).
      * repeat split; try discriminate; try (intros; congruence).
  - split; [intros _; exact Eo |]. split; [discriminate |]. split; [discriminate |].
    destruct rl; cbn [negb] in En.
    + destruct (Z.eqb_spec (read_ptr_ s) 0) as [E0 | E0].
      * repeat split; try discriminate; try (intros; congruence).
      * injection En as <-.
        repeat split; try discriminate; try (intros; congruence).
    + repeat split; try discriminate; try (intros; congruence).
Qed.

End Randomised.

(** X12. With both random flags off, the five-argument [Read] is the
    three-argument [Read] with the window clamped to the loop: its
    result does not depend on what earlier calls left in the statics nor
    on [rand()], and as long as the window
    [max(minClip, (size_t)(clipEnd * length_))] does not exceed the
    length, it returns the sample and leaves the object exactly as the
    three-argument [Read] does, storing the window and the offset in its
    statics. *)
Theorem Read_5_plain_is_Read_3 {TG : Target} {T : Type} {SM : Sample T}
    (max_size : Z) (s : LoopBuffer T) (st st2 : Statics) (clipStart clipEnd : float)
    (minClip r1 r2 q1 q2 e o : Z) :
  F32.to_size (F32.mul clipEnd (F32.of_Z (length_ s))) = Ok e ->
  F32.to_size (F32.mul clipStart (F32.of_Z (length_ s))) = Ok o ->
  Read_5 max_size s st clipStart clipEnd minClip false false r1 r2
  = Read_5 max_size s st2 clipStart clipEnd minClip false false q1 q2 /\
  (Z.max e minClip <= length_ s ->
   Read_5 max_size s st clipStart clipEnd minClip false false r1 r2
   = let* (a, s') := Read_3 max_size s clipStart clipEnd minClip in
     Ok (a, mkStatics (Z.max e minClip) o, s')).
Proof.
  intros He Ho. split; [reflexivity |]. intros Hw.
  unfold Read_5, Read_3, choose_window. cbn [negb]. rewrite He, Ho. cbn [bind].
  rewrite clamp_min_max. rewrite Z.min_l by lia. cbn [offset_ newEnd_].
  replace (if e <? minClip then minClip else e) with (Z.max e minClip)
    by (destruct (Z.ltb_spec e minClip); lia).
  destruct (size_rem _ (length_ s)) as [i|]; [| reflexivity]. cbn [bind].
  destruct (line_get max_size s i) as [a|]; [| reflexivity]. cbn [bind].
  destruct (size_rem _ _) as [r|]; reflexivity.
Qed.

Lemma Read_5_plain_is_Read_3_witness :
  Read_5 (TG := ILP32) 4 saturated4 Statics_init half half 1 false false 7 9
  = Read_5 (TG := ILP32) 4 saturated4 (mkStatics 3 1) half half 1 false false 5 6 /\
  (Z.max 2 1 <= length_ saturated4 ->
   Read_5 (TG := ILP32) 4 saturated4 Statics_init half half 1 false false 7 9
   = let* (a, s') := Read_3 (TG := ILP32) 4 saturated4 half half 1 in
     Ok (a, mkStatics (Z.max 2 1) 2, s')).
Proof.
  apply (Read_5_plain_is_Read_3 (TG := ILP32) 4 saturated4 Statics_init (mkStatics 3 1)
           half half 1 7 9 5 6 2 2).
  - vm_compute. reflexivity.
  - vm_compute. reflexivity.
Defined.

(** X13. With both random flags on, the five-argument [Read] consults
    [rand()] only when the cursor is at 0: at any other cursor the call
    keeps the stored offset, clamps the stored window again, and gives
    the same result whatever [rand()] would return; at cursor 0 the new
    offset is [(size_t)(clipStart * (rand() % length_))] and the window
    is clamped from [(size_t)(clipEnd * (rand() % length_))]. *)
Theorem Read_5_rerolls_at_zero {TG : Target} {T : Type} {SM : Sample T}
    (max_size : Z) (s : LoopBuffer T) (st : Statics) (clipStart clipEnd : float)
    (minClip r1 r2 : Z) (a : T) (st' : Statics) (s' : LoopBuffer T) :
  Read_5 max_size s st clipStart clipEnd minClip true true r1 r2 = Ok (a, st', s') ->
  (read_ptr_ s <> 0 ->
   offset_ st' = offset_ st /\
   newEnd_ st' = Z.min (Z.max (newEnd_ st) minClip) (length_ s) /\
   forall q1 q2,
     Read_5 max_size s st clipStart clipEnd minClip true true q1 q2 = Ok (a, st', s')) /\
  (read_ptr_ s = 0 ->
   random_point s clipStart r1 = Ok (offset_ st') /\
   exists n, random_point s clipEnd r2 = Ok n /\
             newEnd_ st' = Z.min (Z.max n minClip) (length_ s)).
Proof.
  intros H. split; intros Hr.
  - assert (Hq : forall q1 q2,
               Read_5 max_size s st clipStart clipEnd minClip true true q1 q2
               = Read_5 max_size s st clipStart clipEnd minClip true true r1 r2).
    { intros q1 q2. unfold Read_5, choose_window, GetReadPosition. cbn [negb].
      destruct (Z.eqb_spec (read_ptr_ s) 0); [contradiction | reflexivity]. }
    pose proof H as H0. unfold Read_5 in H.
    destruct (choose_window _ _ _ _ _ _ _ _ _ _) as [w|] eqn:Ew; [| discriminate].
    cbn [bind] in H.
    destruct (choose_window_ok s st clipStart clipEnd minClip true true false r1 r2 w Ew)
      as (n & Hn & _ & _ & Ho & _ & _ & Hk).
    crack H. injection H as _ <- _.
    split; [now apply Ho |]. split; [rewrite Hn, (Hk eq_refl Hr); reflexivity |].
    intros q1 q2. rewrite Hq. exact H0.
  - unfold Read_5 in H.
    destruct (choose_window _ _ _ _ _ _ _ _ _ _) as [w|] eqn:Ew; [| discriminate].
    cbn [bind] in H.
    destruct (choose_window_ok s st clipStart clipEnd minClip true true false r1 r2 w Ew)
      as (n & Hn & _ & Ho & _ & _ & Hk & _).
    crack H. injection H as _ <- _.
    destruct (Ho eq_refl Hr) as (p & Hp & Ep). cbn [andb] in Ep.
    split; [now rewrite Ep |]. exists n. split; [now apply Hk | exact Hn].
Qed.

Lemma Read_5_rerolls_at_zero_witness :
  (read_ptr_ saturated4 <> 0 ->
   offset_ (mkStatics 1 1) = offset_ Statics_init /\
   newEnd_ (mkStatics 1 1) = Z.min (Z.max (newEnd_ Statics_init) 1) (length_ saturated4) /\
   forall q1 q2,
     Read_5 (TG := ILP32) 4 saturated4 Statics_init half F32.one 1 true true q1 q2
     = Ok (f20, mkStatics 1 1, saturated4)) /\
  (read_ptr_ saturated4 = 0 ->
   random_point (TG := ILP32) saturated4 half 7 = Ok (offset_ (mkStatics 1 1)) /\
   exists n, random_point (TG := ILP32) saturated4 F32.one 9 = Ok n /\
             newEnd_ (mkStatics 1 1) = Z.min (Z.max n 1) (length_ saturated4)).
Proof.
  apply (Read_5_rerolls_at_zero (TG := ILP32) 4 saturated4 Statics_init half F32.one
           1 7 9 f20 (mkStatics 1 1) saturated4).
  vm_compute. reflexivity.
Defined.

Section RandomisedBounds.

Context {TG : Target}.
Context {T : Type} {SM : Sample T}.
Variable max_size : Z.

Implicit Type s : LoopBuffer T.

(** The value the window is clamped from is not negative. *)
Lemma choose_window_bounds s st cs ce mc rl rs fo r1 r2 st' :
  0 <= length_ s -> 0 <= mc -> 0 <= newEnd_ st ->
  choose_window s st cs ce mc rl rs fo r1 r2 = Ok st' ->
  0 <= newEnd_ st' <= length_ s /\
  (fo = true -> rs = true -> read_ptr_ s = 0 -> 10 <= offset_ st').
Proof.
  intros Hl Hm Hn H.
  destruct (choose_window_ok s st cs ce mc rl rs fo r1 r2 st' H)
    as (n & En & _ & Ho & _ & Hk1 & Hk2 & Hk3).
  assert (0 <= n).
  { destruct rl.
    - destruct (Z.eq_dec (read_ptr_ s) 0) as [E0 | E0].
      + apply (random_point_is_size s ce r2 n). auto.
      + rewrite (Hk3 eq_refl E0). exact Hn.
    - apply (to_size_is_size (F32.mul ce (F32.of_Z (length_ s))) n). auto. }
  split; [lia |].
  intros -> -> E0. destruct (Ho eq_refl E0) as (p & _ & ->). cbn [andb].
  destruct (Z.ltb_spec p 10); lia.
Qed.

Lemma fetch_in_loop s i v :
  0 < length_ s ->
  size_rem i (length_ s) = Ok (i mod length_ s) ->
  line_get max_size s (i mod length_ s) = Ok v -> v ∈ loop s.
Proof.
  intros Hl _. unfold line_get.
  destruct (in_bounds _ _); [| discriminate].
  destruct (line_ s !! _) as [x|] eqn:Ex; [| discriminate]. intros [= ->].
  pose proof (Z.mod_pos_bound i (length_ s) Hl).
  apply list_elem_of_lookup. exists (Z.to_nat (i mod length_ s)).
  unfold loop. rewrite lookup_take_lt by lia. exact Ex.
Qed.

End RandomisedBounds.

(** X14. Whatever its arguments, the statics and [rand()], a
    five-argument [Read] that returns has clamped the window to
    [1 <= newEnd <= length_], left the cursor inside that window,
    returned a sample of the loop, and changed nothing of the object but
    the cursor. *)
Theorem Read_5_stays_in_loop {TG : Target} {T : Type} {SM : Sample T}
    (max_size : Z) (s : LoopBuffer T) (st : Statics) (clipStart clipEnd : float)
    (minClip : Z) (randomLength randomStart : bool) (r1 r2 : Z)
    (a : T) (st' : Statics) (s' : LoopBuffer T) :
  0 <= length_ s -> 0 <= minClip -> 0 <= newEnd_ st ->
  Read_5 max_size s st clipStart clipEnd minClip randomLength randomStart r1 r2
  = Ok (a, st', s') ->
  1 <= newEnd_ st' <= length_ s /\
  0 <= read_ptr_ s' < newEnd_ st' /\
  a ∈ loop s /\
  s' = with_read_ptr s (read_ptr_ s').
Proof.
  intros Hl Hm Hn H. unfold Read_5 in H.
  destruct (choose_window _ _ _ _ _ _ _ _ _ _) as [w|] eqn:Ew; [| discriminate].
  cbn [bind] in H.
  destruct (choose_window_bounds s st clipStart clipEnd minClip randomLength randomStart
              false r1 r2 w Hl Hm Hn Ew) as [Hb _].
  unfold size_rem in H.
  destruct (Z.eqb_spec (length_ s) 0); [discriminate |]. cbn [bind] in H.
  destruct (line_get max_size s _) as [x|] eqn:Ex; [| discriminate]. cbn [bind] in H.
  destruct (Z.eqb_spec (newEnd_ w) 0); [discriminate |]. cbn [bind] in H.
  injection H as <- <- <-.
  pose proof (Z.mod_pos_bound (size_wrap (read_ptr_ s + 1)) (newEnd_ w) ltac:(lia)).
  split; [lia |]. split; [cbn; lia |]. split; [| reflexivity].
  apply (fetch_in_loop max_size s (size_wrap (read_ptr_ s + offset_ w)) x);
    [lia | now apply size_rem_ok | exact Ex].
Qed.

Lemma Read_5_stays_in_loop_witness :
  1 <= newEnd_ (mkStatics 1 1) <= length_ saturated4 /\
  0 <= read_ptr_ saturated4 < newEnd_ (mkStatics 1 1) /\
  f20 ∈ loop saturated4 /\
  saturated4 = with_read_ptr saturated4 (read_ptr_ saturated4).
Proof.
  apply (Read_5_stays_in_loop (TG := ILP32) 4 saturated4 Statics_init half F32.one
           1 true true 7 9 f20 (mkStatics 1 1) saturated4).
  - vm_compute. discriminate.
  - lia.
  - vm_compute. discriminate.
  - vm_compute. reflexivity.
Defined.

(** X15. The six-argument [Read]: on a loop of at most one sample it
    returns [0.f] and changes neither the object nor its statics; on a
    longer loop, a call that returns has clamped the window to
    [1 <= newEnd <= length_], left the cursor inside that window, raised
    a freshly drawn random offset to at least 10, and changed nothing of
    the object but the cursor and [frac_]. *)
Theorem Read_6_stays_in_window {TG : Target} {T : Type} {SM : Sample T}
    (max_size : Z) (s : LoopBuffer T) (st : Statics) (clipStart clipEnd speed : float)
    (minClip : Z) (randomLength randomStart : bool) (r1 r2 : Z)
    (a : T) (st' : Statics) (s' : LoopBuffer T) :
  0 <= minClip -> 0 <= newEnd_ st ->
  Read_6 max_size s st clipStart clipEnd speed minClip randomLength randomStart r1 r2
  = Ok (a, st', s') ->
  (length_ s <= 1 -> a = sample_of_float F32.zero /\ st' = st /\ s' = s) /\
  (1 < length_ s ->
   1 <= newEnd_ st' <= length_ s /\
   0 <= read_ptr_ s' < newEnd_ st' /\
   (randomStart = true -> read_ptr_ s = 0 -> 10 <= offset_ st') /\
   same_but_frac s' (with_read_ptr s (read_ptr_ s'))).
Proof.
  intros Hm Hn H. unfold Read_6 in H.
  destruct (Z.gtb_spec (length_ s) 1) as [Hl | Hl].
  - split; [lia |]. intros _.
    destruct (choose_window _ _ _ _ _ _ _ _ _ _) as [w|] eqn:Ew; [| discriminate].
    cbn [bind] in H.
    destruct (choose_window_bounds s st clipStart clipEnd minClip randomLength randomStart
                true r1 r2 w ltac:(lia) Hm Hn Ew) as [Hb Ho].
    destruct (size_rem _ _); [| discriminate]. cbn [bind] in H.
    destruct (line_get _ _ _); [| discriminate]. cbn [bind] in H.
    destruct (if F32.leb F32.zero speed then _ else _); [| discriminate].
    cbn [bind] in H.
    destruct (F32.modf _) as [fp ip].
    destruct (F32.to_int ip) as [k|]; [| discriminate]. cbn [bind] in H.
    unfold size_rem in H.
    destruct (Z.eqb_spec (newEnd_ w) 0); [discriminate |]. cbn [bind] in H.
    cbn [with_read_ptr with_frac read_ptr_ frac_] in H.
    pose proof (Z.mod_pos_bound (size_wrap (read_ptr_ s + size_wrap k)) (newEnd_ w)
                  ltac:(lia)) as Hr.
    destruct (Z.ltb_spec (size_wrap (read_ptr_ s + size_wrap k) mod newEnd_ w) 0);
      [lia |].
    injection H as _ <- <-. cbn.
    split; [lia |]. split; [lia |]. split; [now apply Ho |]. now repeat split.
  - split; [| lia]. intros _. injection H as <- <- <-. auto.
Qed.

Lemma Read_6_stays_in_window_witness :
  (length_ saturated4 <= 1 ->
   S754_finite false 9175040 (-18) = sample_of_float F32.zero /\
   mkStatics 4 2 = Statics_init /\
   with_frac saturated4 minus_half = saturated4) /\
  (1 < length_ saturated4 ->
   1 <= newEnd_ (mkStatics 4 2) <= length_ saturated4 /\
   0 <= read_ptr_ (with_frac saturated4 minus_half) < newEnd_ (mkStatics 4 2) /\
   (false = true -> read_ptr_ saturated4 = 0 -> 10 <= offset_ (mkStatics 4 2)) /\
   same_but_frac (with_frac saturated4 minus_half)
     (with_read_ptr saturated4 (read_ptr_ (with_frac saturated4 minus_half)))).
Proof.
  apply (Read_6_stays_in_window (TG := ILP32) 4 saturated4 Statics_init
           half F32.one minus_half 1 false false 0 0
           (S754_finite false 9175040 (-18)) (mkStatics 4 2)
           (with_frac saturated4 minus_half)).
  - lia.
  - vm_compute. discriminate.
  - vm_compute. reflexivity.
Defined.

(** ** Splice *)

Section Fades.

Context {T : Type} {SM : Sample T}.
Variable max_size : Z.

Implicit Type s : LoopBuffer T.

Lemma with_line_with_line s l l' : with_line (with_line s l) l' = with_line s l'.
Proof. reflexivity. Qed.

Lemma line_scale_with_line s l i f v :
  length l = Z.to_nat max_size -> 0 <= i < max_size ->
  l !! Z.to_nat i = Some v ->
  line_scale max_size (with_line s l) i f
  = Ok (with_line s (<[Z.to_nat i := sample_scale v f]> l)).
Proof.
  intros Hlen Hi Hv. unfold line_scale, line_get, line_set. cbn [line_ with_line].
  rewrite in_bounds_true by assumption. rewrite Hv. reflexivity.
Qed.

(** A loop that scales [line_[a0 + i]] and then [line_[b0 - i]] by
    [ramp i n], for [i = 0 .. n - 1], the two runs of indices being
    disjoint and inside the array. *)
Lemma fade_loop (body : Z -> LoopBuffer T -> Outcome (LoopBuffer T))
    (a0 b0 n : Z) (s : LoopBuffer T) :
  sized max_size s -> 0 <= a0 -> a0 + n <= b0 - n + 1 -> b0 < max_size -> 0 <= n ->
  (forall i l, 0 <= i < n ->
     body i (with_line s l)
     = let* s2 := line_scale max_size (with_line s l) (a0 + i) (ramp i n) in
       line_scale max_size s2 (b0 - i) (ramp i n)) ->
  exists l',
    for_loop (Z.to_nat n) 0 body s = Ok (with_line s l') /\
    length l' = length (line_ s) /\
    (forall i v, 0 <= i < n -> line_ s !! Z.to_nat (a0 + i) = Some v ->
                 l' !! Z.to_nat (a0 + i) = Some (sample_scale v (ramp i n))) /\
    (forall i v, 0 <= i < n -> line_ s !! Z.to_nat (b0 - i) = Some v ->
                 l' !! Z.to_nat (b0 - i) = Some (sample_scale v (ramp i n))) /\
    (forall idx : nat,
       ~ (a0 <= Z.of_nat idx < a0 + n) -> ~ (b0 - n < Z.of_nat idx <= b0) ->
       l' !! idx = line_ s !! idx).
Proof.
  intros Hs Ha Hd Hb Hn Hbody.
  pose (Inv := fun (k : Z) (l : list T) =>
    length l = length (line_ s) /\
    (forall i v, 0 <= i < k -> line_ s !! Z.to_nat (a0 + i) = Some v ->
                 l !! Z.to_nat (a0 + i) = Some (sample_scale v (ramp i n))) /\
    (forall i v, 0 <= i < k -> line_ s !! Z.to_nat (b0 - i) = Some v ->
                 l !! Z.to_nat (b0 - i) = Some (sample_scale v (ramp i n))) /\
    (forall idx : nat,
       ~ (a0 <= Z.of_nat idx < a0 + k) -> ~ (b0 - k < Z.of_nat idx <= b0) ->
       l !! idx = line_ s !! idx)).
  assert (Hloop : forall (m : nat) (k : Z) (l : list T),
             0 <= k -> k + Z.of_nat m = n -> Inv k l ->
             exists l', for_loop m k body (with_line s l) = Ok (with_line s l') /\ Inv n l').
  { induction m as [|m IH]; intros k l Hk Hkm HI.
    - exists l. split; [reflexivity |]. now replace n with k by lia.
    - destruct HI as (Hlen & Hfront & Hback & Hrest).
      unfold sized in Hs.
      destruct (lookup_lt_is_Some_2 (line_ s) (Z.to_nat (a0 + k)) ltac:(lia)) as [va Hva].
      destruct (lookup_lt_is_Some_2 (line_ s) (Z.to_nat (b0 - k)) ltac:(lia)) as [vb Hvb].
      assert (Hla : l !! Z.to_nat (a0 + k) = Some va)
        by (rewrite Hrest by lia; exact Hva).
      assert (Hlb : l !! Z.to_nat (b0 - k) = Some vb)
        by (rewrite Hrest by lia; exact Hvb).
      cbn [for_loop]. rewrite Hbody by lia.
      rewrite (line_scale_with_line s l (a0 + k) _ va) by (try assumption; lia).
      cbn [bind].
      rewrite (line_scale_with_line s _ (b0 - k) _ vb);
        [| rewrite length_insert; lia | lia
         | rewrite list_lookup_insert_ne by lia; exact Hlb].
      cbn [bind].
      apply IH; [lia | lia |].
      split; [now rewrite !length_insert |].
      split; [| split].
      + intros i v Hi Hv.
        rewrite list_lookup_insert_ne by lia.
        destruct (Z.eq_dec i k) as [-> | Hne].
        * rewrite list_lookup_insert_eq by lia. congruence.
        * rewrite list_lookup_insert_ne by lia. apply Hfront; [lia | exact Hv].
      + intros i v Hi Hv.
        destruct (Z.eq_dec i k) as [-> | Hne].
        * rewrite list_lookup_insert_eq by (rewrite length_insert; lia). congruence.
        * rewrite !list_lookup_insert_ne by lia. apply Hback; [lia | exact Hv].
      + intros idx H1 H2.
        rewrite !list_lookup_insert_ne by lia. apply Hrest; lia. }
  destruct (Hloop (Z.to_nat n) 0 (line_ s) ltac:(lia) ltac:(lia)) as (l' & E & HI).
  { split; [reflexivity |].
    split; [intros; lia |]. split; [intros; lia |]. reflexivity. }
  exists l'. split; [| exact HI].
  rewrite <- E. f_equal. now destruct s.
Qed.

(** A loop that assigns [v] to [line_[i]], for [i = first .. first + n - 1]. *)
Lemma assign_loop (v : T) (n : nat) : forall (first : Z) (l : list T) (s : LoopBuffer T),
  length l = Z.to_nat max_size -> 0 <= first -> first + Z.of_nat n <= max_size ->
  exists l',
    for_loop n first (fun i s' => line_set max_size s' i v) (with_line s l)
    = Ok (with_line s l') /\
    length l' = length l /\
    (forall idx : nat, first <= Z.of_nat idx < first + Z.of_nat n -> l' !! idx = Some v) /\
    (forall idx : nat, ~ (first <= Z.of_nat idx < first + Z.of_nat n) ->
                       l' !! idx = l !! idx).
Proof.
  induction n as [|n IH]; intros first l s Hlen Hf Hb.
  - exists l. split; [reflexivity |]. split; [reflexivity |].
    split; [intros; lia | reflexivity].
  - cbn [for_loop].
    rewrite line_set_in by (try (unfold sized; cbn; assumption); lia).
    cbn [bind line_ with_line].
    destruct (IH (first + 1) (<[Z.to_nat first := v]> l) s)
      as (l' & E & Hl' & Hin & Hout); [rewrite length_insert; lia | lia | lia |].
    exists l'. split; [exact E |].
    split; [rewrite Hl'; apply length_insert |].
    split.
    + intros idx Hi. destruct (Z.eq_dec (Z.of_nat idx) first) as [Heq | Hne].
      * rewrite Hout by lia.
        replace idx with (Z.to_nat first) by lia.
        apply list_lookup_insert_eq. lia.
      * apply Hin. lia.
    + intros idx Hi. rewrite Hout by lia. apply list_lookup_insert_ne. lia.
Qed.

End Fades.

Section SpliceFacts.

Context {TG : Target}.
Context {T : Type} {SM : Sample T}.
Variable max_size : Z.

Implicit Type s : LoopBuffer T.

Lemma line_scale_UB s i f u :
  line_scale max_size s i f = UB u -> exists j, u = OutOfBounds j.
Proof.
  unfold line_scale, line_get, line_set.
  destruct (in_bounds max_size i); [| intros [= <-]; eauto].
  destruct (line_ s !! Z.to_nat i); [| intros [= <-]; eauto].
  cbn [bind]. discriminate.
Qed.

(** A loop whose body cannot get through iteration [i0]. *)
Lemma for_loop_UB (P : LoopBuffer T -> Prop) (Q : Undefined -> Prop)
    (body : Z -> LoopBuffer T -> Outcome (LoopBuffer T)) (i0 : Z) :
  (forall i s1 s2, body i s1 = Ok s2 -> P s1 -> P s2) ->
  (forall i s1 u, body i s1 = UB u -> Q u) ->
  (forall s1, P s1 -> exists u, body i0 s1 = UB u) ->
  forall (n : nat) (first : Z) s,
    first <= i0 < first + Z.of_nat n -> P s ->
    exists u, for_loop n first body s = UB u /\ Q u.
Proof.
  intros Hkeep Hub Hfail. induction n as [|n IH]; intros first s Hi HP; [lia |].
  cbn [for_loop]. destruct (body first s) as [s2|u] eqn:E.
  - cbn [bind]. destruct (Z.eq_dec first i0) as [-> | Hne].
    + destruct (Hfail s HP) as [u Eu]. congruence.
    + apply IH; [lia | eapply Hkeep; eauto].
  - exists u. split; [reflexivity | eapply Hub; eauto].
Qed.

End SpliceFacts.

(** X16. The argument-less [Splice] has no guard: on a loop shorter
    than its fixed fade of 2048 samples the index [(length_ - 1) - i]
    wraps below zero to a huge [size_t], and the call ends in an access
    outside the array, whatever the capacity. *)
Theorem Splice_short_loop {TG : Target} {T : Type} {SM : Sample T}
    (max_size : Z) (s : LoopBuffer T) :
  max_size < SIZE_MOD -> 0 <= length_ s < 2048 ->
  exists i, Splice max_size s = UB (OutOfBounds i).
Proof.
  intros Hfit Hl. pose proof SIZE_MOD_ge as Hge.
  assert (Hm1 : size_wrap (-1) = SIZE_MOD - 1)
    by (unfold size_wrap; symmetry; apply (Z.mod_unique (-1) SIZE_MOD (-1)); lia).
  destruct (for_loop_UB (fun s1 => length_ s1 = length_ s)
              (fun u => exists j, u = OutOfBounds j)
              (fun i s' =>
                 let* s1 := line_scale max_size s' i (ramp i 2048) in
                 line_scale max_size s1 (size_wrap (size_wrap (length_ s1 - 1) - i))
                   (ramp i 2048))
              (length_ s)) with (n := Z.to_nat 2048) (first := 0) (s := s)
    as (u & E & j & ->).
  - intros i s1 s2 H HP.
    destruct (line_scale max_size s1 i (ramp i 2048)) as [s3|] eqn:E3; [| discriminate].
    cbn [bind] in H. apply line_scale_length in H, E3. congruence.
  - intros i s1 u H.
    destruct (line_scale max_size s1 i (ramp i 2048)) as [s3|] eqn:E3.
    + cbn [bind] in H. eapply line_scale_UB; eauto.
    + cbn [bind] in H. injection H as <-. eapply line_scale_UB; eauto.
  - intros s1 HP.
    destruct (line_scale max_size s1 (length_ s) (ramp (length_ s) 2048)) as [s3|u] eqn:E3.
    + cbn [bind]. apply line_scale_length in E3. rewrite E3, HP.
      assert (Hidx : size_wrap (size_wrap (length_ s - 1) - length_ s) = SIZE_MOD - 1).
      { destruct (Z.eq_dec (length_ s) 0) as [-> | Hne].
        - change (0 - 1) with (-1). rewrite Hm1.
          rewrite Z.sub_0_r. apply size_wrap_small. unfold is_size. lia.
        - rewrite (size_wrap_small (length_ s - 1)) by (unfold is_size; lia).
          now replace (length_ s - 1 - length_ s) with (-1) by lia. }
      rewrite Hidx. unfold line_scale.
      rewrite line_get_out by lia. cbn [bind]. eauto.
    + cbn [bind]. eauto.
  - lia.
  - reflexivity.
  - exists j. exact E.
Qed.

Lemma Splice_short_loop_witness :
  exists i, Splice (TG := ILP32) 4 saturated4 = UB (OutOfBounds i).
Proof.
  apply (Splice_short_loop (TG := ILP32) 4 saturated4).
  - vm_compute. reflexivity.
  - vm_compute. split; [discriminate | reflexivity].
Defined.

(** X17. The argument-less [Splice] on a loop of at least 4096 samples
    inside the array: for [i = 0 .. 2047] the sample at [i] and the
    sample at [length_ - 1 - i] are each multiplied once by
    [(float)i / 2048.f] (so the first and the last sample of the loop
    become [x * 0.f]); every other sample, the cursors, the length and
    [frac_] are unchanged. *)
Theorem Splice_fades_both_ends {TG : Target} {T : Type} {SM : Sample T}
    (max_size : Z) (s : LoopBuffer T) :
  max_size < SIZE_MOD -> sized max_size s -> 4096 <= length_ s <= max_size ->
  exists l',
    Splice max_size s = Ok (with_line s l') /\
    length l' = length (line_ s) /\
    (forall i v, 0 <= i < 2048 -> line_ s !! Z.to_nat i = Some v ->
                 l' !! Z.to_nat i = Some (sample_scale v (ramp i 2048))) /\
    (forall i v, 0 <= i < 2048 -> line_ s !! Z.to_nat (length_ s - 1 - i) = Some v ->
                 l' !! Z.to_nat (length_ s - 1 - i) = Some (sample_scale v (ramp i 2048))) /\
    (forall idx : nat,
       2048 <= Z.of_nat idx < length_ s - 2048 \/ length_ s <= Z.of_nat idx ->
       l' !! idx = line_ s !! idx).
Proof.
  intros Hfit Hs Hl.
  destruct (fade_loop max_size
              (fun i s' =>
                 let* s1 := line_scale max_size s' i (ramp i 2048) in
                 line_scale max_size s1 (size_wrap (size_wrap (length_ s1 - 1) - i))
                   (ramp i 2048))
              0 (length_ s - 1) 2048 s Hs ltac:(lia) ltac:(lia) ltac:(lia) ltac:(lia))
    as (l' & E & Hlen & Hfront & Hback & Hrest).
  - intros i l Hi. change (0 + i) with i.
    destruct (line_scale max_size (with_line s l) i (ramp i 2048)) as [s1|] eqn:E1;
      [| reflexivity].
    cbn [bind]. apply line_scale_length in E1. cbn [length_ with_line] in E1.
    rewrite E1.
    rewrite (size_wrap_small (length_ s - 1)) by (unfold is_size; lia).
    now rewrite size_wrap_small by (unfold is_size; lia).
  - exists l'. split; [exact E |]. split; [exact Hlen |].
    split; [intros i v Hi Hv; apply (Hfront i v Hi); exact Hv |].
    split; [exact Hback |].
    intros idx Hidx. apply Hrest; lia.
Qed.

Lemma Splice_fades_both_ends_witness :
  exists l',
    Splice (TG := ILP32) 4096 silent4096 = Ok (with_line silent4096 l') /\
    length l' = length (line_ silent4096) /\
    (forall i v, 0 <= i < 2048 -> line_ silent4096 !! Z.to_nat i = Some v ->
                 l' !! Z.to_nat i = Some (sample_scale v (ramp i 2048))) /\
    (forall i v, 0 <= i < 2048 ->
                 line_ silent4096 !! Z.to_nat (length_ silent4096 - 1 - i) = Some v ->
                 l' !! Z.to_nat (length_ silent4096 - 1 - i)
                 = Some (sample_scale v (ramp i 2048))) /\
    (forall idx : nat,
       2048 <= Z.of_nat idx < length_ silent4096 - 2048 \/
       length_ silent4096 <= Z.of_nat idx ->
       l' !! idx = line_ silent4096 !! idx).
Proof.
  apply (Splice_fades_both_ends (TG := ILP32) 4096 silent4096).
  - vm_compute. reflexivity.
  - vm_compute. reflexivity.
  - vm_compute. split; discriminate.
Defined.

(** X18. The guarded [Splice(fadeLength, startPoint, endPoint)] when the
    guard passes and the two faded runs lie inside the loop without
    overlapping ([startPoint + fadeLength <= endPoint - fadeLength + 1]):
    the sample at [startPoint + i] and, for [i >= 1], the sample at
    [endPoint - i] are multiplied by [(float)i / (float)fadeLength]; every
    sample from [endPoint] to [length_ - 1] is then overwritten with
    [0.f] (the faded sample at [endPoint] included); all other samples,
    the cursors, the length and [frac_] stay as they were. *)
Theorem Splice_3_effect {T : Type} {SM : Sample T}
    (max_size : Z) (s : LoopBuffer T) (fadeLength startPoint endPoint : Z) :
  sized max_size s -> length_ s <= max_size -> max_size <= INT_MAX ->
  0 <= fadeLength -> 2 * fadeLength < length_ s ->
  0 <= startPoint -> startPoint + fadeLength <= endPoint - fadeLength + 1 ->
  0 <= endPoint < length_ s ->
  exists l',
    Splice_3 max_size s fadeLength startPoint endPoint = Ok (with_line s l') /\
    length l' = length (line_ s) /\
    (forall i v, 0 <= i < fadeLength ->
                 line_ s !! Z.to_nat (startPoint + i) = Some v ->
                 l' !! Z.to_nat (startPoint + i)
                 = Some (sample_scale v (ramp i fadeLength))) /\
    (forall i v, 1 <= i < fadeLength ->
                 line_ s !! Z.to_nat (endPoint - i) = Some v ->
                 l' !! Z.to_nat (endPoint - i)
                 = Some (sample_scale v (ramp i fadeLength))) /\
    (forall idx : nat, endPoint <= Z.of_nat idx < length_ s ->
                       l' !! idx = Some (sample_of_float F32.zero)) /\
    (forall idx : nat,
       ~ (startPoint <= Z.of_nat idx < startPoint + fadeLength) ->
       Z.of_nat idx <= endPoint - fadeLength /\ Z.of_nat idx < endPoint \/
       length_ s <= Z.of_nat idx ->
       l' !! idx = line_ s !! idx).
Proof.
  intros Hs Hl Hm Hf Hg Hsp Hd Hep.
  pose proof Hm as Hm'. unfold INT_MAX in Hm'.
  unfold Splice_3.
  rewrite int_arith_ok by (unfold is_int, INT_MIN, INT_MAX; lia). cbn [bind].
  rewrite int_of_size_small by lia.
  destruct (Z.ltb_spec (2 * fadeLength) (length_ s)); [| lia].
  rewrite Z.geb_leb.
  destruct (Z.leb_spec 0 startPoint); [| lia].
  destruct (Z.ltb_spec endPoint (length_ s)); [| lia]. cbn [andb].
  destruct (fade_loop max_size
              (fun i s' =>
                 let* j := int_arith (startPoint + i) in
                 let* s1 := line_scale max_size s' j (ramp i fadeLength) in
                 let* k := int_arith (endPoint - i) in
                 line_scale max_size s1 k (ramp i fadeLength))
              startPoint endPoint fadeLength s Hs ltac:(lia) ltac:(lia) ltac:(lia)
              ltac:(lia))
    as (l1 & E1 & Hlen1 & Hfront & Hback & Hrest).
  { intros i l Hi.
    rewrite int_arith_ok by (unfold is_int, INT_MIN, INT_MAX; lia). cbn [bind].
    destruct (line_scale max_size (with_line s l) (startPoint + i) (ramp i fadeLength));
      [| reflexivity].
    cbn [bind].
    now rewrite int_arith_ok by (unfold is_int, INT_MIN, INT_MAX; lia). }
  rewrite E1. cbn [bind].
  change (length_ (with_line s l1)) with (length_ s).
  rewrite int_of_size_small by lia.
  destruct (assign_loop max_size (sample_of_float F32.zero)
              (Z.to_nat (length_ s - endPoint)) endPoint l1 s)
    as (l2 & E2 & Hlen2 & Hzero & Hkeep).
  { rewrite Hlen1. exact Hs. }
  { lia. }
  { lia. }
  exists l2. split; [exact E2 |].
  split; [congruence |].
  split; [| split; [| split]].
  - intros i v Hi Hv. rewrite Hkeep by lia. now apply Hfront.
  - intros i v Hi Hv. rewrite Hkeep by lia. apply Hback; [lia | exact Hv].
  - intros idx Hidx. apply Hzero. lia.
  - intros idx Ha Hb. rewrite Hkeep by lia. apply Hrest; lia.
Qed.

Lemma Splice_3_effect_witness :
  exists l',
    Splice_3 8 full8 2 0 5 = Ok (with_line full8 l') /\
    length l' = length (line_ full8) /\
    (forall i v, 0 <= i < 2 ->
                 line_ full8 !! Z.to_nat (0 + i) = Some v ->
                 l' !! Z.to_nat (0 + i) = Some (sample_scale v (ramp i 2))) /\
    (forall i v, 1 <= i < 2 ->
                 line_ full8 !! Z.to_nat (5 - i) = Some v ->
                 l' !! Z.to_nat (5 - i) = Some (sample_scale v (ramp i 2))) /\
    (forall idx : nat, 5 <= Z.of_nat idx < length_ full8 ->
                       l' !! idx = Some (sample_of_float F32.zero)) /\
    (forall idx : nat,
       ~ (0 <= Z.of_nat idx < 0 + 2) ->
       Z.of_nat idx <= 5 - 2 /\ Z.of_nat idx < 5 \/ length_ full8 <= Z.of_nat idx ->
       l' !! idx = line_ full8 !! idx).
Proof.
  apply (Splice_3_effect 8 full8 2 0 5).
  - vm_compute. reflexivity.
  - vm_compute. discriminate.
  - vm_compute. discriminate.
  - lia.
  - vm_compute. reflexivity.
  - lia.
  - lia.
  - vm_compute. split; [discriminate | reflexivity].
Defined.

(** ** What the reads leave alone *)

Section ReadFrames.

Context {TG : Target}.
Context {T : Type} {SM : Sample T}.
Variable max_size : Z.

Implicit Type s : LoopBuffer T.

Lemma ReadOnce_keeps s v s' :
  ReadOnce max_size s = Ok (v, s') ->
  frac_ s' = frac_ s /\ length_ s' = length_ s /\ line_ s' = line_ s /\
  write_ptr_ s' = write_ptr_ s.
Proof. unfold ReadOnce. intros H. crack H; injection H as _ <-; cbn; auto. Qed.

Lemma Read_2_keeps s ce mc v s' :
  Read_2 max_size s ce mc = Ok (v, s') ->
  frac_ s' = frac_ s /\ length_ s' = length_ s /\ line_ s' = line_ s /\
  write_ptr_ s' = write_ptr_ s.
Proof. unfold Read_2. intros H. crack H. injection H as _ <-. cbn. auto. Qed.

Lemma Read_3_keeps s cs ce mc v s' :
  Read_3 max_size s cs ce mc = Ok (v, s') ->
  frac_ s' = frac_ s /\ length_ s' = length_ s /\ line_ s' = line_ s /\
  write_ptr_ s' = write_ptr_ s.
Proof. unfold Read_3. intros H. crack H. injection H as _ <-. cbn. auto. Qed.

Lemma Read_5_keeps s st cs ce mc rl rs r1 r2 v st' s' :
  Read_5 max_size s st cs ce mc rl rs r1 r2 = Ok (v, st', s') ->
  frac_ s' = frac_ s /\ length_ s' = length_ s /\ line_ s' = line_ s /\
  write_ptr_ s' = write_ptr_ s.
Proof. unfold Read_5. intros H. crack H. injection H as _ _ <-. cbn. auto. Qed.

Lemma Read_6_keeps s st cs ce sp mc rl rs r1 r2 v st' s' :
  Read_6 max_size s st cs ce sp mc rl rs r1 r2 = Ok (v, st', s') ->
  length_ s' = length_ s /\ line_ s' = line_ s /\ write_ptr_ s' = write_ptr_ s.
Proof.
  unfold Read_6. intros H.
  destruct (length_ s >? 1); [| injection H as _ _ <-; auto].
  destruct (choose_window _ _ _ _ _ _ _ _ _ _); [| discriminate]. cbn [bind] in H.
  destruct (size_rem _ _); [| discriminate]. cbn [bind] in H.
  destruct (line_get _ _ _); [| discriminate]. cbn [bind] in H.
  destruct (if F32.leb F32.zero sp then _ else _); [| discriminate]. cbn [bind] in H.
  destruct (F32.modf _) as [fp ip].
  destruct (F32.to_int ip); [| discriminate]. cbn [bind] in H.
  destruct (size_rem _ _); [| discriminate]. cbn [bind] in H.
  destruct (_ <? 0); injection H as _ _ <-; cbn; auto.
Qed.

Lemma ReadSpeed_keeps s sp v s' :
  ReadSpeed max_size s sp = Ok (v, s') ->
  length_ s' = length_ s /\ line_ s' = line_ s /\ write_ptr_ s' = write_ptr_ s.
Proof.
  unfold ReadSpeed. intros H.
  destruct (F32.floor_to_int _); [| discriminate]. cbn [bind] in H.
  destruct (size_rem _ _); [| discriminate]. cbn [bind] in H.
  destruct (_ <? 0);
    (destruct (F32.to_int _); [| discriminate]; cbn [bind] in H;
     destruct (size_rem _ _); [| discriminate]; cbn [bind] in H;
     destruct (line_get _ _ _); [| discriminate]; cbn [bind] in H;
     destruct (size_rem _ _); [| discriminate]; cbn [bind] in H;
     destruct (line_get _ _ _); [| discriminate]; cbn [bind] in H;
     injection H as _ <-; cbn; auto).
Qed.

End ReadFrames.

(** X19. No read changes what has been recorded: a call of any of the
    seven read members or of a getter, with any arguments, that returns
    leaves the samples, the loop length and the write cursor exactly as
    they were; only the read cursor moves, and [frac_] too under
    [ReadSpeed] and the six-argument [Read], which alone assign it. *)
Theorem reads_keep_the_recording {TG : Target} {T : Type} {SM : Sample T}
    (max_size : Z) (c : Call T) (w w' : World T) :
  is_read c = true -> exec max_size c w = Ok w' ->
  line_ (buffer w') = line_ (buffer w) /\
  length_ (buffer w') = length_ (buffer w) /\
  write_ptr_ (buffer w') = write_ptr_ (buffer w) /\
  (moves_frac c = false -> frac_ (buffer w') = frac_ (buffer w)).
Proof.
  intros Hc H.
  destruct c; try discriminate Hc; cbn [exec] in H; cbn [moves_frac];
    try (injection H as <-; auto);
    crack H; injection H as <-; cbn [buffer on_buffer].
  - apply Read_keeps in E. tauto.
  - apply ReadOnce_keeps in E. tauto.
  - apply Read_2_keeps in E. tauto.
  - apply Read_3_keeps in E. tauto.
  - apply Read_5_keeps in E. tauto.
  - apply Read_6_keeps in E. split; [tauto |]. split; [tauto |]. split; [tauto |].
    discriminate.
  - apply ReadSpeed_keeps in E. split; [tauto |]. split; [tauto |]. split; [tauto |].
    discriminate.
Qed.

Lemma reads_keep_the_recording_witness :
  line_ (buffer (mkWorld (with_read_ptr saturated4 1) Statics_init Statics_init))
  = line_ (buffer world_saturated4) /\
  length_ (buffer (mkWorld (with_read_ptr saturated4 1) Statics_init Statics_init))
  = length_ (buffer world_saturated4) /\
  write_ptr_ (buffer (mkWorld (with_read_ptr saturated4 1) Statics_init Statics_init))
  = write_ptr_ (buffer world_saturated4) /\
  (moves_frac (T := float) CRead = false ->
   frac_ (buffer (mkWorld (with_read_ptr saturated4 1) Statics_init Statics_init))
   = frac_ (buffer world_saturated4)).
Proof.
  apply (reads_keep_the_recording (TG := ILP32) 4 CRead world_saturated4
           (mkWorld (with_read_ptr saturated4 1) Statics_init Statics_init)).
  - reflexivity.
  - vm_compute. reflexivity.
Defined.

(** ** The shape of the object in reachable states *)

Section Shape.

Context {TG : Target}.
Context {T : Type} {SM : Sample T}.
Variable max_size : Z.

Implicit Type s : LoopBuffer T.

Lemma line_set_shape s i v s' :
  line_set max_size s i v = Ok s' ->
  length (line_ s') = length (line_ s) /\ write_ptr_ s' = write_ptr_ s.
Proof.
  unfold line_set. intros H. crack H. injection H as <-. cbn.
  now rewrite length_insert.
Qed.

Lemma line_scale_shape s i f s' :
  line_scale max_size s i f = Ok s' ->
  length (line_ s') = length (line_ s) /\ write_ptr_ s' = write_ptr_ s.
Proof. unfold line_scale. intros H. crack H. now apply line_set_shape in H. Qed.

Lemma for_loop_shape (body : Z -> LoopBuffer T -> Outcome (LoopBuffer T)) :
  (forall i s s', body i s = Ok s' ->
                  length (line_ s') = length (line_ s) /\ write_ptr_ s' = write_ptr_ s) ->
  forall n i s s', for_loop n i body s = Ok s' ->
                   length (line_ s') = length (line_ s) /\ write_ptr_ s' = write_ptr_ s.
Proof.
  intros Hbody. induction n as [|n IH]; intros i s s' H.
  - now injection H as <-.
  - cbn [for_loop] in H. crack H.
    apply IH in H. apply Hbody in E. destruct H, E. split; congruence.
Qed.

Lemma Splice_shape s s' :
  Splice max_size s = Ok s' ->
  length (line_ s') = length (line_ s) /\ write_ptr_ s' = write_ptr_ s.
Proof.
  unfold Splice. apply for_loop_shape.
  intros i s1 s2 H. crack H.
  apply line_scale_shape in H, E. destruct H, E. split; congruence.
Qed.

Lemma Splice_3_shape s f a b s' :
  Splice_3 max_size s f a b = Ok s' ->
  length (line_ s') = length (line_ s) /\ write_ptr_ s' = write_ptr_ s.
Proof.
  unfold Splice_3. intros H. crack H; [| now injection H as <-].
  apply for_loop_shape in H; [| intros i s1 s2; apply line_set_shape].
  apply for_loop_shape in E1.
  - destruct H, E1. split; congruence.
  - intros i s1 s2 Hb. crack Hb.
    apply line_scale_shape in Hb, E3. destruct Hb, E3. split; congruence.
Qed.

Lemma Init_shape s s' :
  Init max_size s = Ok s' ->
  length (line_ s') = length (line_ s) /\ write_ptr_ s' = 0.
Proof.
  unfold Init. intros H. crack H. injection H as <-. cbn.
  apply for_loop_shape in E; [tauto |].
  intros i s1 s2. apply line_set_shape.
Qed.

Lemma Write_cursor s v s' :
  1 <= max_size -> Write max_size s v = Ok s' -> 0 <= write_ptr_ s' < max_size.
Proof.
  intros Hm. unfold Write.
  destruct (line_set max_size s (write_ptr_ s) v) as [s1|]; [| discriminate].
  cbn [bind]. unfold size_rem.
  destruct (max_size =? 0); [discriminate |]. cbn [bind].
  pose proof (Z.mod_pos_bound (size_wrap (write_ptr_ s1 + 1)) max_size ltac:(lia)).
  intros [= <-]. destruct (_ >=? _); cbn; lia.
Qed.

Lemma Setlength_shape s x s' :
  Setlength max_size s x = Ok s' ->
  line_ s' = line_ s /\ write_ptr_ s' = write_ptr_ s.
Proof. unfold Setlength. intros H. crack H. injection H as <-. cbn. auto. Qed.

(** Every call keeps the array at its [max_size] elements and the write
    cursor inside it. *)
Lemma exec_shape (c : Call T) (w w' : World T) :
  1 <= max_size -> exec max_size c w = Ok w' ->
  sized max_size (buffer w) -> 0 <= write_ptr_ (buffer w) < max_size ->
  sized max_size (buffer w') /\ 0 <= write_ptr_ (buffer w') < max_size.
Proof.
  intros Hm H Hs Hw. unfold sized in *.
  destruct c; cbn [exec] in H;
    try (injection H as <-; cbn; split; [assumption | lia]);
    crack H; injection H as <-; cbn [buffer on_buffer].
  - apply Init_shape in E. destruct E as [K1 K2]. rewrite K1, K2.
    split; [assumption | lia].
  - apply Setlength_shape in E. destruct E as [K1 K2]. rewrite K1, K2. auto.
  - split; [eapply Write_sized; eauto | eapply Write_cursor; eauto].
  - apply Read_keeps in E. destruct E as (_ & _ & K1 & K2). rewrite K1, K2. auto.
  - apply ReadOnce_keeps in E. destruct E as (_ & _ & K1 & K2). rewrite K1, K2. auto.
  - apply Read_2_keeps in E. destruct E as (_ & _ & K1 & K2). rewrite K1, K2. auto.
  - apply Read_3_keeps in E. destruct E as (_ & _ & K1 & K2). rewrite K1, K2. auto.
  - apply Read_5_keeps in E. destruct E as (_ & _ & K1 & K2). rewrite K1, K2. auto.
  - apply Read_6_keeps in E. destruct E as (_ & K1 & K2). rewrite K1, K2. auto.
  - apply ReadSpeed_keeps in E. destruct E as (_ & K1 & K2). rewrite K1, K2. auto.
  - apply Splice_shape in E. destruct E as [K1 K2]. rewrite K1, K2. auto.
  - apply Splice_3_shape in E. destruct E as [K1 K2]. rewrite K1, K2. auto.
Qed.

Lemma reachable_shape (allowed : Call T -> Prop) (w : World T) :
  1 <= max_size -> reachable max_size allowed w ->
  sized max_size (buffer w) /\ 0 <= write_ptr_ (buffer w) < max_size.
Proof.
  intros Hm H.
  induction H as [w w' Hs HI | w w' Hs HR | c w w' Hr IH Hc _ He].
  - cbn [exec] in HI. crack HI. injection HI as <-. cbn [buffer on_buffer].
    apply Init_shape in E. destruct E as [E1 E2]. unfold sized.
    rewrite E1, E2. split; [exact Hs | lia].
  - injection HR as <-. cbn. split; [exact Hs | lia].
  - destruct IH as [Hs Hw]. exact (exec_shape c w w' Hm He Hs Hw).
Qed.

Hypothesis max_size_fits : 1 <= max_size < SIZE_MOD.

Lemma reachable_positive (w : World T) :
  reachable max_size (keeps_length_positive max_size) w ->
  1 <= length_ (buffer w) <= max_size.
Proof.
  intros H.
  induction H as [w w' Hs HI | w w' Hs HR | c w w' Hr IH Hc Ha He].
  - cbn [exec] in HI. crack HI. injection HI as <-. cbn.
    apply Init_length in E. lia.
  - injection HR as <-. cbn. lia.
  - destruct (exec_length max_size max_size_fits c w w' Hc He) as (_ & Hb & _). auto.
Qed.

End Shape.

(** X20. [Write] is safe wherever the program can get: in every state
    reachable after [Init] or [Reset] by any public calls with any
    arguments, the array still has its [max_size] elements and the write
    cursor is inside it, so a [Write] of any sample returns (it never
    stores outside the array). *)
Theorem Write_defined_when_reachable {TG : Target} {T : Type} {SM : Sample T}
    (max_size : Z) (w : World T) (v : T) :
  1 <= max_size < SIZE_MOD -> reachable max_size any_call w ->
  0 <= write_ptr_ (buffer w) < max_size /\
  exists s', Write max_size (buffer w) v = Ok s' /\
             line_ s' = <[Z.to_nat (write_ptr_ (buffer w)) := v]> (line_ (buffer w)).
Proof.
  intros Hfit Hr.
  destruct (reachable_shape max_size any_call w ltac:(lia) Hr) as [Hs Hw].
  split; [exact Hw |].
  rewrite (Write_ok max_size Hfit (buffer w) v Hs Hw).
  eexists. split; [reflexivity |]. reflexivity.
Qed.

Lemma Write_defined_when_reachable_witness :
  0 <= write_ptr_ (buffer (mkWorld (Reset fresh4) Statics_init Statics_init)) < 4 /\
  exists s',
    Write (TG := ILP32) 4 (buffer (mkWorld (Reset fresh4) Statics_init Statics_init)) f10
    = Ok s' /\
    line_ s'
    = <[Z.to_nat (write_ptr_ (buffer (mkWorld (Reset fresh4) Statics_init Statics_init)))
        := f10]> (line_ (buffer (mkWorld (Reset fresh4) Statics_init Statics_init))).
Proof.
  apply (Write_defined_when_reachable (TG := ILP32) 4
           (mkWorld (Reset fresh4) Statics_init Statics_init) f10).
  - vm_compute. split; [discriminate | reflexivity].
  - apply (reach_Reset 4 any_call world4); reflexivity.
Defined.

(** X21. [Read] and [ReadOnce] are safe as long as the length has not
    been set to 0: in every state reachable after [Init] or [Reset] by
    public calls other than [SetLength(0)] and a [Setlength] that stores
    0, both return, and what [Read] returns is a sample of the loop. *)
Theorem Read_defined_when_reachable {TG : Target} {T : Type} {SM : Sample T}
    (max_size : Z) (w : World T) :
  1 <= max_size < SIZE_MOD ->
  reachable max_size (keeps_length_positive max_size) w ->
  (exists v s', Read max_size (buffer w) = Ok (v, s') /\ v ∈ loop (buffer w)) /\
  (exists v s', ReadOnce max_size (buffer w) = Ok (v, s')).
Proof.
  intros Hfit Hr.
  destruct (reachable_shape max_size _ w ltac:(lia) Hr) as [Hs Hw].
  pose proof (reachable_positive max_size Hfit w Hr) as Hl.
  set (s := buffer w) in *.
  pose proof (Z.mod_pos_bound (read_ptr_ s) (length_ s) ltac:(lia)) as Hb.
  split.
  - destruct (Read_ok max_size s Hs Hl) as (v & Hv & E).
    exists v. eexists. split; [exact E |].
    apply list_elem_of_lookup. exists (Z.to_nat (read_ptr_ s mod length_ s)).
    unfold loop. rewrite lookup_take_lt by lia. exact Hv.
  - unfold ReadOnce.
    destruct (read_ptr_ s <? length_ s).
    + rewrite size_rem_ok by lia. cbn [bind].
      destruct (line_get_in max_size s (read_ptr_ s mod length_ s) Hs ltac:(lia))
        as [v Hv].
      rewrite (line_get_lookup _ _ _ v) by (try assumption; lia). cbn [bind].
      eauto.
    + cbn [bind]. eauto.
Qed.

Lemma Read_defined_when_reachable_witness :
  (exists v s',
     Read (TG := ILP32) 4 (buffer (mkWorld (Reset fresh4) Statics_init Statics_init))
     = Ok (v, s') /\
     v ∈ loop (buffer (mkWorld (Reset fresh4) Statics_init Statics_init))) /\
  (exists v s',
     ReadOnce (TG := ILP32) 4 (buffer (mkWorld (Reset fresh4) Statics_init Statics_init))
     = Ok (v, s')).
Proof.
  apply (Read_defined_when_reachable (TG := ILP32) 4
           (mkWorld (Reset fresh4) Statics_init Statics_init)).
  - vm_compute. split; [discriminate | reflexivity].
  - apply (reach_Reset 4 (keeps_length_positive 4) world4); reflexivity.
Defined.

(** X22. [SetLength] followed by [GetLength]: the float handed back is
    the stored length [min(n, max_size)] converted to [float] with
    nothing added ([frac_] has been reset), and it is that integer
    exactly as long as the length is below [2^24]. *)
Theorem SetLength_then_GetLength {T : Type} (max_size : Z) (s : LoopBuffer T) (n : Z) :
  0 <= n -> 0 <= max_size -> Z.min n max_size < 2 ^ 24 ->
  length_ (SetLength max_size s n) = Z.min n max_size /\
  GetLength (SetLength max_size s n) = F32.of_Z (Z.min n max_size) /\
  F32.trunc (GetLength (SetLength max_size s n)) = Ok (Z.min n max_size).
Proof.
  intros Hn Hm Hlt.
  assert (El : length_ (SetLength max_size s n) = Z.min n max_size).
  { unfold SetLength. cbn [with_length length_].
    destruct (Z.ltb_spec n max_size); lia. }
  assert (Eg : GetLength (SetLength max_size s n) = F32.of_Z (Z.min n max_size)).
  { unfold GetLength. rewrite El.
    change (frac_ (SetLength max_size s n)) with F32.zero.
    apply of_Z_add_zero. lia. }
  split; [exact El |]. split; [exact Eg |].
  rewrite Eg. apply of_Z_exact. lia.
Qed.

Lemma SetLength_then_GetLength_witness :
  length_ (SetLength 4 saturated4 3) = Z.min 3 4 /\
  GetLength (SetLength 4 saturated4 3) = F32.of_Z (Z.min 3 4) /\
  F32.trunc (GetLength (SetLength 4 saturated4 3)) = Ok (Z.min 3 4).
Proof.
  apply (SetLength_then_GetLength 4 saturated4 3).
  - lia.
  - lia.
  - vm_compute. reflexivity.
Defined.

(** X23. [Reset] rewinds without erasing: the samples stay in the array,
    both positions read 0 and [GetLength()] is 1, so that from then on
    (until something is written) every [Read] returns the sample in slot
    0 and leaves the object as [Reset] left it. *)
Theorem Reset_then_Read {TG : Target} {T : Type} {SM : Sample T}
    (max_size : Z) (s : LoopBuffer T) (n : nat) :
  1 <= max_size -> sized max_size s ->
  exists v,
    line_ s !! 0%nat = Some v /\
    line_ (Reset s) = line_ s /\
    GetReadPosition (Reset s) = 0 /\ GetWritePosition (Reset s) = 0 /\
    F32.trunc (GetLength (Reset s)) = Ok 1 /\
    repeat_read (Read max_size) n (Reset s) = Ok (replicate n v, Reset s).
Proof.
  intros Hm Hs.
  assert (Hrs : sized max_size (Reset s)) by exact Hs.
  destruct (Read_ok max_size (Reset s) Hrs ltac:(cbn; lia)) as (v & Hv & E).
  cbn [Reset length_ read_ptr_ line_] in Hv. rewrite Z.mod_1_r in Hv.
  change (length_ (Reset s)) with 1 in E. rewrite Z.mod_1_r in E.
  change (with_read_ptr (Reset s) 0) with (Reset s) in E.
  exists v. split; [exact Hv |]. split; [reflexivity |].
  split; [reflexivity |]. split; [reflexivity |].
  split; [vm_compute; reflexivity |].
  induction n as [|n IH]; [reflexivity |].
  cbn [repeat_read]. rewrite E. cbn [bind]. rewrite IH. reflexivity.
Qed.

Lemma Reset_then_Read_witness :
  exists v,
    line_ saturated4 !! 0%nat = Some v /\
    line_ (Reset saturated4) = line_ saturated4 /\
    GetReadPosition (Reset saturated4) = 0 /\ GetWritePosition (Reset saturated4) = 0 /\
    F32.trunc (GetLength (Reset saturated4)) = Ok 1 /\
    repeat_read (Read (TG := ILP32) 4) 3 (Reset saturated4)
    = Ok (replicate 3 v, Reset saturated4).
Proof.
  apply (Reset_then_Read (TG := ILP32) 4 saturated4 3).
  - lia.
  - vm_compute. reflexivity.
Defined.
